(** * Ties-subset scoring of rewardbench/utils.py

    A shallow embedding of [_compute_prompt_stats] and [process_single_model]
    (rewardbench/utils.py, lines 998-1098) and the properties of the
    specification that concern them.

    Numbers.  Python scores are modelled as real numbers ([R]): finite values
    with exact arithmetic.  The results of the numpy stage are extended reals
    ([npfloat]) carrying the IEEE special values that numpy produces there:
    NaN (mean of an empty array, 0/0) and the two infinities (x/0).  Rounding
    and overflow of binary64 arithmetic are not modelled, and neither are
    scores that are NaN or infinite on input.

    Exceptions.  A Python exception is a value of [exn]; a computation that
    may raise has type [result A], and a loop stops at the first exception.

    Containers.  A dict is an association list in insertion order; the set
    of common prompts is a list.  A dataset is the list of its rows, each
    with the three columns the scorer reads, and its other columns by
    name.

    Further functions.  After the specification-side notions come the
    embeddings of [calculate_scores_per_section] (lines 68-84),
    [reroll_and_score_dataset] (lines 535-581), [process_preference_data]
    (lines 246-250), [prepare_dialogue_from_tokenizer] (lines 809-893) and
    [prepare_dialogue] (lines 896-985), and after the properties of the
    specification those that the code of these functions and of the scorer
    shows.  The tokenizer and the conversation template are parameters: a
    function from the messages, or from the template, to the text. *)

From Stdlib Require Import Reals Lra Lia ZArith List String Ascii Bool
  Permutation.
Import ListNotations.

Set Implicit Arguments.

(** ** Exceptions and the error monad *)

(** The first four classes are the Python built-ins the code can raise on
    inputs of the modelled types.  The last three are the names of the
    specification's taxonomy; no line of the source raises them. *)
Inductive exn : Type :=
| ValueError
| IndexError
| TypeError
| KeyError
| MalformedIdError
| InvalidGroupError
| InvalidScoreError.

Inductive result (A : Type) : Type :=
| Ok (a : A)
| Raise (e : exn).

Arguments Ok {A} a.
Arguments Raise {A} e.

Definition bind {A B : Type} (m : result A) (k : A -> result B) : result B :=
  match m with
  | Ok a => k a
  | Raise e => Raise e
  end.

Notation "x <- m ;; k" := (bind m (fun x => k))
  (at level 61, m at next level, right associativity).
Notation "' pat <- m ;; k" := (bind m (fun x => match x with pat => k end))
  (at level 61, pat pattern, m at next level, right associativity).

(** A [for] loop over [l] that threads the state [st] and stops at the first
    exception. *)
Fixpoint for_each {A S : Type} (body : S -> A -> result S) (l : list A)
  (st : S) : result S :=
  match l with
  | [] => Ok st
  | a :: l' => st' <- body st a ;; for_each body l' st'
  end.

(** A list comprehension whose element expression may raise. *)
Fixpoint for_list {A B : Type} (f : A -> result B) (l : list A)
  : result (list B) :=
  match l with
  | [] => Ok []
  | a :: l' => b <- f a ;; bs <- for_list f l' ;; Ok (b :: bs)
  end.

(** An elementwise operation on two arrays of the same length whose element
    operation may raise. *)
Fixpoint elementwise {A B C : Type} (f : A -> B -> result C)
  (la : list A) (lb : list B) : result (list C) :=
  match la, lb with
  | a :: la', b :: lb' =>
      c <- f a b ;; cs <- elementwise f la' lb' ;; Ok (c :: cs)
  | _, _ => Ok []
  end.

(** ** Python strings: [str.split] and [int] *)

Module PyStr.

(** [s.split(sep)] for a separator of one character. *)
Fixpoint split (sep : ascii) (s : string) : list string :=
  match s with
  | EmptyString => [EmptyString]
  | String c rest =>
      if Ascii.eqb c sep then EmptyString :: split sep rest
      else match split sep rest with
           | [] => [String c EmptyString]
           | w :: ws => String c w :: ws
           end
  end.

(** The characters that [int] skips around an ASCII literal: \t \n \v \f
    \r and the space. *)
Definition is_space (c : ascii) : bool :=
  let n := nat_of_ascii c in
  ((9 <=? n) && (n <=? 13) || (n =? 32))%nat.

Definition is_digit (c : ascii) : bool :=
  let n := nat_of_ascii c in ((48 <=? n) && (n <=? 57))%nat.

Definition digit_val (c : ascii) : Z := Z.of_nat (nat_of_ascii c - 48).

Fixpoint lstrip (s : string) : string :=
  match s with
  | EmptyString => EmptyString
  | String c rest => if is_space c then lstrip rest else s
  end.

Fixpoint rstrip (s : string) : string :=
  match s with
  | EmptyString => EmptyString
  | String c rest =>
      match rstrip rest with
      | EmptyString => if is_space c then EmptyString else String c EmptyString
      | rest' => String c rest'
      end
  end.

(** Decimal digits, single underscores allowed between two digits.
    [after_digit] tells whether the previous character was a digit. *)
Fixpoint digits (s : string) (acc : Z) (after_digit : bool) : option Z :=
  match s with
  | EmptyString => if after_digit then Some acc else None
  | String c rest =>
      if is_digit c then digits rest (10 * acc + digit_val c)%Z true
      else if Ascii.eqb c "_" then
             if after_digit then digits rest acc false else None
      else None
  end.

(** [int(s)] in base 10 for an ASCII string: surrounding whitespace is
    stripped, one sign is allowed, anything else raises [ValueError].
    (Decimal digits and spaces outside ASCII are not modelled.) *)
Definition int (s : string) : result Z :=
  let body := rstrip (lstrip s) in
  let parsed :=
    match body with
    | String "-" rest => option_map Z.opp (digits rest 0%Z false)
    | String "+" rest => digits rest 0%Z false
    | _ => digits body 0%Z false
    end in
  match parsed with
  | Some n => Ok n
  | None => Raise ValueError
  end.

End PyStr.

(** ** numpy float64 values *)

Module Np.

Local Open Scope R_scope.

Inductive npfloat : Type :=
| Fin (x : R)
| PInf
| NInf
| NaN.

Definition Rgtb (x y : R) : bool := if Rgt_dec x y then true else false.

(** Sign of a real as numpy sees it when it multiplies or divides by a
    special value. *)
Inductive sign : Type := Neg | Zero | Pos.

Definition sgn (x : R) : sign :=
  if Rlt_dec 0 x then Pos else if Rlt_dec x 0 then Neg else Zero.

(** [x / y] on float64 operands, numpy's default error state (warn, do not
    raise): a finite nonzero numerator over zero gives an infinity of the
    numerator's sign, 0/0 gives NaN.  The divisor 0 of the code is always
    the positive zero [a - a]. *)
Definition div (a b : npfloat) : npfloat :=
  match a, b with
  | NaN, _ | _, NaN => NaN
  | Fin x, Fin y =>
      if Req_dec_T y 0 then
        match sgn x with Pos => PInf | Neg => NInf | Zero => NaN end
      else Fin (x / y)
  | Fin _, (PInf | NInf) => Fin 0
  | (PInf | NInf), (PInf | NInf) => NaN
  | PInf, Fin y => if Rlt_dec y 0 then NInf else PInf
  | NInf, Fin y => if Rlt_dec y 0 then PInf else NInf
  end.

Definition add (a b : npfloat) : npfloat :=
  match a, b with
  | NaN, _ | _, NaN => NaN
  | Fin x, Fin y => Fin (x + y)
  | PInf, NInf | NInf, PInf => NaN
  | PInf, _ | _, PInf => PInf
  | NInf, _ | _, NInf => NInf
  end.

Definition neg (a : npfloat) : npfloat :=
  match a with
  | Fin x => Fin (- x)
  | PInf => NInf
  | NInf => PInf
  | NaN => NaN
  end.

Definition sub (a b : npfloat) : npfloat := add a (neg b).

Definition mul (a b : npfloat) : npfloat :=
  match a, b with
  | NaN, _ | _, NaN => NaN
  | Fin x, Fin y => Fin (x * y)
  | Fin x, PInf | PInf, Fin x =>
      match sgn x with Pos => PInf | Neg => NInf | Zero => NaN end
  | Fin x, NInf | NInf, Fin x =>
      match sgn x with Pos => NInf | Neg => PInf | Zero => NaN end
  | PInf, PInf | NInf, NInf => PInf
  | PInf, NInf | NInf, PInf => NInf
  end.

(** [np.tanh] *)
Definition tanh (a : npfloat) : npfloat :=
  match a with
  | Fin x => Fin (Rtrigo_def.tanh x)
  | PInf => Fin 1
  | NInf => Fin (-1)
  | NaN => NaN
  end.

(** The largest finite binary64 value, to which [np.nan_to_num] sends
    an infinity. *)
Definition float_max : R := (2 - / 2 ^ 52) * 2 ^ 1023.

(** [np.nan_to_num(a, nan=0.0)] on one element; the result is always
    finite. *)
Definition nan_to_num (a : npfloat) : R :=
  match a with
  | NaN => 0
  | PInf => float_max
  | NInf => - float_max
  | Fin x => x
  end.

Definition sum (l : list R) : R := fold_right Rplus 0 l.

(** [np.mean] of a float64 array of finite values: NaN on the empty array
    (numpy warns "Mean of empty slice" and returns nan). *)
Definition mean (l : list R) : npfloat :=
  match l with
  | [] => NaN
  | _ :: _ => Fin (sum l / INR (List.length l))
  end.

(** A boolean array is averaged as an array of 0s and 1s. *)
Definition of_bool (b : bool) : R := if b then 1 else 0.

Definition mean_bool (l : list bool) : npfloat := mean (map of_bool l).

End Np.

(** ** Python dicts in insertion order *)

Module Dict.
Section Dict.

Variables (K V : Type) (eqb : K -> K -> bool).

Definition dict : Type := list (K * V).

(** [d.get(k)] *)
Fixpoint get (d : dict) (k : K) : option V :=
  match d with
  | [] => None
  | (k', v) :: d' => if eqb k k' then Some v else get d' k
  end.

(** [d[k] = v]: an existing key keeps its position, a new key goes last. *)
Fixpoint set (d : dict) (k : K) (v : V) : dict :=
  match d with
  | [] => [(k, v)]
  | (k', v') :: d' => if eqb k k' then (k', v) :: d' else (k', v') :: set d' k v
  end.

Definition keys (d : dict) : list K := map fst d.
Definition values (d : dict) : list V := map snd d.

Definition mem (d : dict) (k : K) : bool :=
  match get d k with Some _ => true | None => false end.

End Dict.
End Dict.

(** ** The ties scorer *)

Module Ties.

Import Np.
Local Open Scope R_scope.

(** One entry of [sample["scores"]]: a number, or a list of numbers of which
    the code reads element 0. *)
Inductive raw_score : Type :=
| Scalar (x : R)
| Listed (l : list R).

(** The three columns the scorer reads, one record per row. *)
Record Sample : Type := mkSample {
  id : string;
  num_correct : Z;
  scores : list raw_score
}.

(** A value of any other column. *)
Inductive cell : Type :=
| CNone
| CInt (z : Z)
| CNum (x : R)
| CStr (s : string).

(** A [datasets.Dataset]: the rows of the three columns read by the scorer,
    and the remaining columns by name, in order, each with one cell per row. *)
Record Dataset : Type := mkDataset {
  rows : list Sample;
  columns : list (string * list cell)
}.

Definition column_names (d : Dataset) : list string :=
  "id"%string :: "num_correct"%string :: "scores"%string :: map fst (columns d).

Definition column (d : Dataset) (name : string) : option (list cell) :=
  Dict.get String.eqb (columns d) name.

Definition has_column (d : Dataset) (name : string) : bool :=
  existsb (String.eqb name) (column_names d).

(** [dataset[i][name]] for a pass-through column. *)
Definition cell_at (d : Dataset) (name : string) (i : nat) : option cell :=
  match column d name with
  | Some col => nth_error col i
  | None => None
  end.

(** [dataset.remove_columns(names)], for names among the pass-through
    columns. *)
Definition remove_columns (names : list string) (d : Dataset) : Dataset :=
  {| rows := rows d;
     columns :=
       filter (fun c => negb (existsb (String.eqb (fst c)) names)) (columns d) |}.

(** [dataset.add_column(name, col)]: the new column goes last; a name already
    present or a column of the wrong length raises [ValueError]. *)
Definition add_column (name : string) (col : list cell) (d : Dataset)
  : result Dataset :=
  if has_column d name then Raise ValueError
  else if negb (List.length col =? List.length (rows d))%nat then Raise ValueError
  else Ok {| rows := rows d; columns := columns d ++ [(name, col)] |}.

(** *** Built-in [max] and [min] of a list *)

Definition py_max (l : list R) : result R :=
  match l with
  | [] => Raise ValueError
  | x :: l' => Ok (fold_left (fun m y => if Rgt_dec y m then y else m) l' x)
  end.

Definition py_min (l : list R) : result R :=
  match l with
  | [] => Raise ValueError
  | x :: l' => Ok (fold_left (fun m y => if Rlt_dec y m then y else m) l' x)
  end.

(** *** [_compute_prompt_stats] *)

Record PromptStats : Type := mkStats {
  accurate : bool;
  different_correct_margin : option R;
  correct_incorrect_margin : R
}.

Definition correct_scores (samples : list (bool * R)) : list R :=
  map snd (filter (fun p => fst p) samples).

Definition incorrect_scores (samples : list (bool * R)) : list R :=
  map snd (filter (fun p => negb (fst p)) samples).

Definition _compute_prompt_stats (samples : list (bool * R))
  : result PromptStats :=
  best_correct <- py_max (correct_scores samples) ;;
  worst_correct <- py_min (correct_scores samples) ;;
  best_incorrect <- py_max (incorrect_scores samples) ;;
  let different_correct_margin :=
    if (1 <? List.length (correct_scores samples))%nat
    then Some (best_correct - worst_correct) else None in
  let correct_incorrect_margin := worst_correct - best_incorrect in
  let accurate := Rgtb correct_incorrect_margin 0 in
  Ok (mkStats accurate different_correct_margin correct_incorrect_margin).

(** *** [process_single_model]: grouping *)

Definition key : Type := (string * Z)%type.

Definition key_eqb (a b : key) : bool :=
  (String.eqb (fst a) (fst b) && Z.eqb (snd a) (snd b))%bool.

Definition groups : Type := Dict.dict key (list (bool * R)).

(** [sample_type, prompt_id_str = sample["id"].split(":")] followed by
    [int(prompt_id_str)]; unpacking anything but two parts raises
    [ValueError]. *)
Definition parse_id (s : string) : result key :=
  match PyStr.split ":" s with
  | [sample_type; prompt_id_str] =>
      prompt_id <- PyStr.int prompt_id_str ;;
      Ok (sample_type, prompt_id)
  | _ => Raise ValueError
  end.

(** [raw_score[0] if isinstance(raw_score, list) else raw_score] *)
Definition unwrap (raw : raw_score) : result R :=
  match raw with
  | Listed [] => Raise IndexError
  | Listed (x :: _) => Ok x
  | Scalar x => Ok x
  end.

(** [grouped_samples[k].append(x)] on a [defaultdict(list)] *)
Definition append (g : groups) (k : key) (x : bool * R) : groups :=
  match Dict.get key_eqb g k with
  | Some l => Dict.set key_eqb g k (l ++ [x])
  | None => Dict.set key_eqb g k [x]
  end.

Definition enumerate {A : Type} (l : list A) : list (nat * A) :=
  combine (seq 0 (List.length l)) l.

(** The body of the loop over the scores of one row. *)
Definition add_score (k : key) (num_correct : Z) (g : groups)
  (ir : nat * raw_score) : result groups :=
  score <- unwrap (snd ir) ;;
  Ok (append g k ((Z.of_nat (fst ir) <? num_correct)%Z, score)).

(** The body of the loop over the rows. *)
Definition add_sample (g : groups) (sample : Sample) : result groups :=
  ' (sample_type, prompt_id) <- parse_id (id sample) ;;
  for_each (add_score (sample_type, prompt_id) (num_correct sample))
           (enumerate (scores sample)) g.

Definition group_samples (dataset : list Sample) : result groups :=
  for_each add_sample dataset [].

(** *** [process_single_model]: per-prompt statistics *)

Definition stats_dict : Type := Dict.dict Z PromptStats.

Definition add_stats (st : stats_dict * stats_dict)
  (item : key * list (bool * R)) : result (stats_dict * stats_dict) :=
  let '((sample_type, prompt_id), samples) := item in
  let '(ref_stats, tied_stats) := st in
  stats <- _compute_prompt_stats samples ;;
  if String.eqb sample_type "ref"
  then Ok (Dict.set Z.eqb ref_stats prompt_id stats, tied_stats)
  else Ok (ref_stats, Dict.set Z.eqb tied_stats prompt_id stats).

Definition prompt_stats (grouped_samples : groups)
  : result (stats_dict * stats_dict) :=
  for_each add_stats grouped_samples ([], []).

(** *** [process_single_model]: global metrics *)

(** [d[pid]] *)
Definition getitem (d : stats_dict) (pid : Z) : result PromptStats :=
  match Dict.get Z.eqb d pid with
  | Some s => Ok s
  | None => Raise KeyError
  end.

(** [np.mean([s[0] for s in stats.values()]) if stats else 0.0] *)
Definition accuracy (stats : stats_dict) : npfloat :=
  match stats with
  | [] => Fin 0
  | _ :: _ => mean_bool (map accurate (Dict.values stats))
  end.

(** [set(ref_stats) & set(tied_stats)].  Python leaves the iteration order
    of a set unspecified; the model lists the common ids in the order of
    [ref_stats]. *)
Definition common_prompts (ref_stats tied_stats : stats_dict) : list Z :=
  filter (Dict.mem Z.eqb tied_stats) (Dict.keys ref_stats).

(** [a > d] on one element, where [d] comes from an array that holds [None]
    as soon as one tied prompt has a single correct answer: comparing a
    float with [None] raises [TypeError]. *)
Definition gt_margin (a : R) (d : option R) : result bool :=
  match d with
  | Some y => Ok (Rgtb a y)
  | None => Raise TypeError
  end.

(** [a / d - 1] on one element. *)
Definition normalised_gap (a : R) (d : option R) : result npfloat :=
  match d with
  | Some y => Ok (sub (div (Fin a) (Fin y)) (Fin 1))
  | None => Raise TypeError
  end.

(** [np.minimum] of two arrays of the same length. *)
Fixpoint minimum (la lb : list R) : list R :=
  match la, lb with
  | a :: la', b :: lb' => Rmin a b :: minimum la' lb'
  | _, _ => []
  end.

Record Metrics : Type := mkMetrics {
  ref_accuracy : npfloat;
  tied_accuracy : npfloat;
  correctness_preferred : npfloat;
  correctness_preferred_hard : npfloat;
  margin_scores : list R;
  correctness_margin_score : npfloat;
  overall_score : npfloat
}.

Definition weighted (ta ra cp cph cms : npfloat) : npfloat :=
  add (add (add (add (mul (Fin 0.30) ta) (mul (Fin 0.30) ra))
                (mul (Fin 0.20) cp))
           (mul (Fin 0.20) cph))
      (mul (Fin 0.01) cms).

(** The metrics over the prompts [all_prompts], iterated in the order of
    the list. *)
Definition metrics_over (ref_stats tied_stats : stats_dict)
  (all_prompts : list Z) : result Metrics :=
  let ref_accuracy := accuracy ref_stats in
  let tied_accuracy := accuracy tied_stats in
  diff_corr_margin <-
    for_list (fun pid => s <- getitem tied_stats pid ;;
                         Ok (different_correct_margin s)) all_prompts ;;
  corr_incorrect_ties <-
    for_list (fun pid => s <- getitem tied_stats pid ;;
                         Ok (correct_incorrect_margin s)) all_prompts ;;
  corr_incorrect_ref <-
    for_list (fun pid => s <- getitem ref_stats pid ;;
                         Ok (correct_incorrect_margin s)) all_prompts ;;
  preferred <- elementwise gt_margin corr_incorrect_ties diff_corr_margin ;;
  let correctness_preferred := mean_bool preferred in
  hard <- elementwise gt_margin
            (minimum corr_incorrect_ref corr_incorrect_ties)
            diff_corr_margin ;;
  let correctness_preferred_hard := mean_bool hard in
  gaps <- elementwise normalised_gap
            (minimum corr_incorrect_ref corr_incorrect_ties)
            diff_corr_margin ;;
  let margin_scores := map (fun g => nan_to_num (tanh g)) gaps in
  let correctness_margin_score := mean margin_scores in
  let overall_score :=
    weighted tied_accuracy ref_accuracy correctness_preferred
             correctness_preferred_hard correctness_margin_score in
  Ok (mkMetrics ref_accuracy tied_accuracy correctness_preferred
        correctness_preferred_hard margin_scores correctness_margin_score
        overall_score).

Definition metrics (ref_stats tied_stats : stats_dict) : result Metrics :=
  metrics_over ref_stats tied_stats (common_prompts ref_stats tied_stats).

(** Everything [process_single_model] computes before it packages the
    result. *)
Definition score_details (dataset : list Sample) : result Metrics :=
  grouped_samples <- group_samples dataset ;;
  ' (ref_stats, tied_stats) <- prompt_stats grouped_samples ;;
  metrics ref_stats tied_stats.

(** *** [process_single_model] *)

Definition process_single_model (dataset : Dataset)
  : result (Dataset * npfloat) :=
  m <- score_details (rows dataset) ;;
  let dataset' :=
    if has_column dataset "results"
    then remove_columns ["results"%string] dataset
    else dataset in
  results_dataset <-
    add_column "results" (repeat CNone (List.length (rows dataset'))) dataset' ;;
  Ok (results_dataset, overall_score m).

End Ties.

(** * Specification-side notions *)

Module Spec.

Import Np Ties.
Local Open Scope R_scope.

(** [m] is the least element of [l]. *)
Definition is_min (m : R) (l : list R) : Prop :=
  In m l /\ forall y, In y l -> m <= y.

(** [m] is the greatest element of [l]. *)
Definition is_max (m : R) (l : list R) : Prop :=
  In m l /\ forall y, In y l -> y <= m.

(** *** The groups of a dataset, read off the rows

    The score a raw entry stands for, the (is_correct, score) pairs of a
    row, and the pairs that the rows with the key [k] contribute, in the
    order of the rows. *)
Definition score_of (raw : raw_score) : R :=
  match raw with
  | Scalar x => x
  | Listed (x :: _) => x
  | Listed [] => 0
  end.

Definition labelled (num_correct : Z) (ir : nat * raw_score) : bool * R :=
  ((Z.of_nat (fst ir) <? num_correct)%Z, score_of (snd ir)).

Definition pairs (s : Sample) : list (bool * R) :=
  map (labelled (num_correct s)) (enumerate (scores s)).

Definition group_of (ds : list Sample) (k : key) : list (bool * R) :=
  flat_map (fun s => match parse_id (id s) with
                     | Ok k' => if key_eqb k k' then pairs s else []
                     | Raise _ => []
                     end) ds.

(** What a group holds after more pairs were appended to it: [None] stands
    for a key that is not in the dict. *)
Definition merge {A : Type} (o : option (list A)) (l : list A)
  : option (list A) :=
  match l with
  | [] => o
  | _ :: _ => Some (match o with Some l0 => l0 | None => [] end ++ l)
  end.

(** The statistics of a group, when it has some. *)
Definition stats_opt (l : list (bool * R)) : option PromptStats :=
  match _compute_prompt_stats l with
  | Ok s => Some s
  | Raise _ => None
  end.

(** The statistics of the group of type [t] and prompt [p] of a dataset;
    [None] when no row has that key. *)
Definition stats_at (ds : list Sample) (t : string) (p : Z)
  : option PromptStats :=
  match group_of ds (t, p) with
  | [] => None
  | l => stats_opt l
  end.

(** *** The per-prompt terms of the metrics, read off the two dicts *)

Definition stat (d : stats_dict) (p : Z) : PromptStats :=
  match Dict.get Z.eqb d p with
  | Some s => s
  | None => mkStats false None 0
  end.

Definition spread (d : stats_dict) (p : Z) : R :=
  match different_correct_margin (stat d p) with
  | Some x => x
  | None => 0
  end.

Definition min_margin (ref_stats tied_stats : stats_dict) (p : Z) : R :=
  Rmin (correct_incorrect_margin (stat ref_stats p))
       (correct_incorrect_margin (stat tied_stats p)).

Definition preferred_at (tied_stats : stats_dict) (p : Z) : bool :=
  Rgtb (correct_incorrect_margin (stat tied_stats p)) (spread tied_stats p).

Definition hard_at (ref_stats tied_stats : stats_dict) (p : Z) : bool :=
  Rgtb (min_margin ref_stats tied_stats p) (spread tied_stats p).

Definition margin_at (ref_stats tied_stats : stats_dict) (p : Z) : R :=
  nan_to_num
    (tanh (sub (div (Fin (min_margin ref_stats tied_stats p))
                    (Fin (spread tied_stats p)))
               (Fin 1))).

(** *** Valid datasets *)

Definition is_nil {A : Type} (l : list A) : bool :=
  match l with [] => true | _ :: _ => false end.

(** A score entry that the code can read: not an empty list. *)
Definition readable (raw : raw_score) : bool :=
  match raw with Listed [] => false | _ => true end.

(** A row that the grouping loop accepts: its id parses and its score
    entries are readable. *)
Definition row_ok (s : Sample) : bool :=
  match parse_id (id s) with
  | Ok _ => forallb readable (scores s)
  | Raise _ => false
  end.

(** The sample types of the data model. *)
Definition typed (s : Sample) : bool :=
  match parse_id (id s) with
  | Ok (t, _) => (String.eqb t "ref" || String.eqb t "tied")%bool
  | Raise _ => true
  end.

(** The invariant of a prompt group: a correct and an incorrect entry. *)
Definition well_formed (g : list (bool * R)) : bool :=
  (negb (is_nil (correct_scores g)) && negb (is_nil (incorrect_scores g)))%bool.

(** A tied prompt that has a reference prompt has two correct answers or
    more. *)
Definition tie_ok (ds : list Sample) (p : Z) : bool :=
  (is_nil (group_of ds ("ref"%string, p))
   || is_nil (group_of ds ("tied"%string, p))
   || (2 <=? List.length (correct_scores (group_of ds ("tied"%string, p))))%nat)%bool.

Definition rows_ok (ds : list Sample) : bool := forallb row_ok ds.

Definition all_typed (ds : list Sample) : bool := forallb typed ds.

(** Every group is well formed. *)
Definition groups_ok (ds : list Sample) : bool :=
  forallb (fun s => match parse_id (id s) with
                    | Ok k => (is_nil (group_of ds k)
                               || well_formed (group_of ds k))%bool
                    | Raise _ => true
                    end) ds.

Definition ties_ok (ds : list Sample) : bool :=
  forallb (fun s => match parse_id (id s) with
                    | Ok k => tie_ok ds (snd k)
                    | Raise _ => true
                    end) ds.

(** A valid dataset: every row is accepted and has a type of the data
    model, every group is well formed, and every tied prompt paired with a
    reference prompt has at least two correct answers. *)
Definition valid_dataset (ds : list Sample) : bool :=
  (rows_ok ds && all_typed ds && groups_ok ds && ties_ok ds)%bool.

(** The prompt ids that have both a reference and a tied group. *)
Definition paired (ds : list Sample) (p : Z) : bool :=
  (negb (is_nil (group_of ds ("ref"%string, p)))
   && negb (is_nil (group_of ds ("tied"%string, p))))%bool.

(** The filter of [remove_columns(["results"])]. *)
Definition not_results (c : string * list cell) : bool :=
  negb (existsb (String.eqb (fst c)) ["results"%string]).

(** The overall score of a run, when there is one. *)
Definition overall_opt (m : result Metrics) : option npfloat :=
  match m with
  | Ok m => Some (overall_score m)
  | Raise _ => None
  end.

Definition overall_of (ds : list Sample) : option npfloat :=
  overall_opt (score_details ds).

(** Every prompt of the list has a tied group with a spread. *)
Definition spreads_defined (tied_stats : stats_dict) (ps : list Z) : bool :=
  forallb (fun p => match different_correct_margin (stat tied_stats p) with
                    | Some _ => true
                    | None => false
                    end) ps.

(** The groups and the dataset of the specification's worked example:
    one reference prompt and one tied prompt with the prompt id 0. *)
Definition example_ref_group : list (bool * R) :=
  [(true, 5); (false, 2); (false, 1)].

Definition example_tied_group : list (bool * R) :=
  [(true, 5); (true, 4); (false, 2); (false, 1)].

Definition example_rows : list Sample :=
  [ mkSample "ref:0" 1 [Scalar 5; Scalar 2; Scalar 1];
    mkSample "tied:0" 2 [Scalar 5; Scalar 4; Scalar 2; Scalar 1] ].

Definition example_dataset : Dataset :=
  mkDataset example_rows
    [("subset"%string, [CStr "ties"; CStr "ties"]);
     ("results"%string, [CNum 1; CNum 0])].

(** The dataset that [process_single_model] returns with the score. *)
Definition packaged (d : Dataset) : Dataset :=
  mkDataset (rows d)
    (columns (if has_column d "results"
              then remove_columns ["results"%string] d else d) ++
     [("results"%string, repeat CNone (List.length (rows d)))]).

(** *** Sample types other than "ref" *)

(** No prompt id stands under two sample types other than "ref". *)
Definition one_tied_type (ds : list Sample) : bool :=
  forallb (fun s =>
    forallb (fun s' =>
      match parse_id (id s), parse_id (id s') with
      | Ok (t, p), Ok (t', p') =>
          (String.eqb t "ref" || String.eqb t' "ref" || negb (Z.eqb p p')
           || String.eqb t t')%bool
      | _, _ => true
      end) ds) ds.

(** A prompt that has a reference group and a group of another type has
    two correct answers or more in the latter. *)
Definition nonref_ties_ok (ds : list Sample) : bool :=
  forallb (fun s =>
    match parse_id (id s) with
    | Ok (t, p) =>
        (String.eqb t "ref"
         || is_nil (group_of ds ("ref"%string, p))
         || is_nil (group_of ds (t, p))
         || (2 <=? List.length (correct_scores (group_of ds (t, p))))%nat)%bool
    | Raise _ => true
    end) ds.

(** The number of accurate groups of a dict. *)
Definition accurate_count (d : stats_dict) : nat :=
  List.length (filter accurate (Dict.values d)).

(** *** Particular datasets *)

(** A reference prompt and a tied prompt whose correct answers all score
    below the incorrect one. *)
Definition low_margin_dataset : Dataset :=
  mkDataset
    [ mkSample "ref:0" 1 [Scalar 0; Scalar 10];
      mkSample "tied:0" 2 [Scalar 0; Scalar 1; Scalar 10] ]
    [].

(** A reference prompt without a tied prompt. *)
Definition ref_only_dataset : Dataset :=
  mkDataset [ mkSample "ref:0" 1 [Scalar 5; Scalar 2; Scalar 1] ] [].

(** A tied prompt whose two correct answers have the same score. *)
Definition zero_spread_dataset : Dataset :=
  mkDataset
    [ mkSample "ref:0" 1 [Scalar 5; Scalar 2];
      mkSample "tied:0" 2 [Scalar 4; Scalar 4; Scalar 1] ]
    [].

(** A row whose id has no colon. *)
Definition malformed_dataset : Dataset :=
  mkDataset [ mkSample "badid" 1 [Scalar 1; Scalar 0] ] [].

(** Rows outside the data model: a group of type "other" with the prompt
    id of a tied group. *)
Definition untyped_rows : list Sample :=
  [ mkSample "tied:0" 2 [Scalar 5; Scalar 4; Scalar 1];
    mkSample "other:0" 2 [Scalar 1; Scalar 0; Scalar 5];
    mkSample "ref:0" 1 [Scalar 5; Scalar 1] ].

Definition untyped_rows_swapped : list Sample :=
  [ mkSample "other:0" 2 [Scalar 1; Scalar 0; Scalar 5];
    mkSample "tied:0" 2 [Scalar 5; Scalar 4; Scalar 1];
    mkSample "ref:0" 1 [Scalar 5; Scalar 1] ].

(** The rows of [untyped_rows_swapped] with "tied" written for "other". *)
Definition retyped_rows_swapped : list Sample :=
  [ mkSample "tied:0" 2 [Scalar 1; Scalar 0; Scalar 5];
    mkSample "tied:0" 2 [Scalar 5; Scalar 4; Scalar 1];
    mkSample "ref:0" 1 [Scalar 5; Scalar 1] ].

(** A reference prompt and two prompts of the type "other", one of them
    accurate. *)
Definition other_type_dataset : Dataset :=
  mkDataset
    [ mkSample "ref:0" 1 [Scalar 5; Scalar 2; Scalar 1];
      mkSample "other:0" 2 [Scalar 5; Scalar 4; Scalar 2; Scalar 1];
      mkSample "other:1" 1 [Scalar 1; Scalar 3] ]
    [].

(** A prompt with a correct answer and no incorrect one. *)
Definition one_sided_dataset : Dataset :=
  mkDataset [ mkSample "ref:0" 1 [Scalar 1] ] [].

End Spec.

(** * Further definitions *)

(** [rmap f m]: the value of [m] through [f], an exception as it is. *)
Definition rmap {A B : Type} (f : A -> B) (m : result A) : result B :=
  match m with
  | Ok a => Ok (f a)
  | Raise e => Raise e
  end.

(** ** Variations of a dataset *)

Module Variation.

Import Np Ties Spec.
Local Open Scope R_scope.

(** A prompt whose tied group has one correct answer, and a row with an
    empty score entry. *)
Definition single_correct_tie_dataset : Dataset :=
  mkDataset
    [ mkSample "ref:0" 1 [Scalar 5; Scalar 2];
      mkSample "tied:0" 1 [Scalar 4; Scalar 1] ]
    [].

Definition empty_entry_dataset : Dataset :=
  mkDataset [ mkSample "ref:0" 1 [Scalar 5; Listed []] ] [].

(** *** Affine changes of the score scale *)

Definition rescale (c b x : R) : R := c * x + b.

Definition rescale_raw (c b : R) (raw : raw_score) : raw_score :=
  match raw with
  | Scalar x => Scalar (rescale c b x)
  | Listed l => Listed (map (rescale c b) l)
  end.

Definition rescale_sample (c b : R) (s : Sample) : Sample :=
  mkSample (id s) (num_correct s) (map (rescale_raw c b) (scores s)).

Definition rescale_dataset (c b : R) (d : Dataset) : Dataset :=
  mkDataset (map (rescale_sample c b) (rows d)) (columns d).

Definition rescale_pair (c b : R) (x : bool * R) : bool * R :=
  (fst x, rescale c b (snd x)).

Definition map_values {K V W : Type} (h : V -> W) (d : Dict.dict K V)
  : Dict.dict K W :=
  map (fun kv => (fst kv, h (snd kv))) d.

Definition rescale_groups (c b : R) : groups -> groups :=
  map_values (map (rescale_pair c b)).

Definition scale_stats (c : R) (s : PromptStats) : PromptStats :=
  mkStats (accurate s)
          (option_map (Rmult c) (different_correct_margin s))
          (c * correct_incorrect_margin s).

Definition scale_stats_dict (c : R) : stats_dict -> stats_dict :=
  map_values (scale_stats c).

(** *** Ids *)

(** [c in s] *)
Fixpoint has_char (c : ascii) (s : string) : bool :=
  match s with
  | EmptyString => false
  | String x rest => (Ascii.eqb x c || has_char c rest)%bool
  end.

End Variation.

(** ** Section scores *)

Module SectionScores.

Local Open Scope R_scope.

(** [d[k]] on a dict with string keys. *)
Definition item {V : Type} (d : Dict.dict string V) (k : string) : result V :=
  match Dict.get String.eqb d k with
  | Some v => Ok v
  | None => Raise KeyError
  end.

(** The body of the loop over the tests of one section; the state is
    [(total_weighted_score, total_examples)]. *)
Definition add_test (example_counts : Dict.dict string Z)
  (metrics : Dict.dict string R) (acc : R * Z) (test : string)
  : result (R * Z) :=
  if Dict.mem String.eqb metrics test then
    m <- item metrics test ;;
    n <- item example_counts test ;;
    let total_weighted_score := fst acc + m * IZR n in
    n' <- item example_counts test ;;
    Ok (total_weighted_score, (snd acc + n')%Z)
  else Ok acc.

(** The score of one section. *)
Definition section_score (example_counts : Dict.dict string Z)
  (metrics : Dict.dict string R) (tests : list string) : result R :=
  totals <- for_each (add_test example_counts metrics) tests (0, 0%Z) ;;
  if (0 <? snd totals)%Z then Ok (fst totals / IZR (snd totals)) else Ok 0.

(** The body of the loop over the sections. *)
Definition add_section (example_counts : Dict.dict string Z)
  (metrics : Dict.dict string R) (section_scores : Dict.dict string R)
  (entry : string * list string) : result (Dict.dict string R) :=
  s <- section_score example_counts metrics (snd entry) ;;
  Ok (Dict.set String.eqb section_scores (fst entry) s).

Definition calculate_scores_per_section (example_counts : Dict.dict string Z)
  (subset_mapping : Dict.dict string (list string))
  (metrics : Dict.dict string R) : result (Dict.dict string R) :=
  for_each (add_section example_counts metrics) subset_mapping [].

End SectionScores.

Module SectionSpec.

Import SectionScores.
Local Open Scope R_scope.

Definition count_of (example_counts : Dict.dict string Z) (t : string) : Z :=
  match Dict.get String.eqb example_counts t with
  | Some n => n
  | None => 0%Z
  end.

Definition metric_of (metrics : Dict.dict string R) (t : string) : R :=
  match Dict.get String.eqb metrics t with
  | Some m => m
  | None => 0
  end.

(** The tests of a section that have a metric. *)
Definition present (metrics : Dict.dict string R) (tests : list string)
  : list string :=
  filter (Dict.mem String.eqb metrics) tests.

(** Every test with a metric has a count. *)
Definition counted (example_counts : Dict.dict string Z)
  (metrics : Dict.dict string R) (tests : list string) : bool :=
  forallb (Dict.mem String.eqb example_counts) (present metrics tests).

Definition weighted_sum (example_counts : Dict.dict string Z)
  (metrics : Dict.dict string R) (tests : list string) : R :=
  Np.sum (map (fun t => metric_of metrics t * IZR (count_of example_counts t))
              (present metrics tests)).

Definition examples (example_counts : Dict.dict string Z)
  (metrics : Dict.dict string R) (tests : list string) : Z :=
  fold_right Z.add 0%Z (map (count_of example_counts) (present metrics tests)).

(** The example-weighted mean of the metrics of a section, 0 without
    examples. *)
Definition section_value (example_counts : Dict.dict string Z)
  (metrics : Dict.dict string R) (tests : list string) : R :=
  if (0 <? examples example_counts metrics tests)%Z
  then weighted_sum example_counts metrics tests /
       IZR (examples example_counts metrics tests)
  else 0.

Definition leaderboard_counts : Dict.dict string Z :=
  [("alpaca"%string, 100%Z); ("mt-bench"%string, 300%Z)].

Definition leaderboard_mapping : Dict.dict string (list string) :=
  [("Chat"%string, ["alpaca"%string; "mt-bench"%string; "absent"%string]);
   ("Safety"%string, ["absent"%string])].

Definition leaderboard_metrics : Dict.dict string R :=
  [("alpaca"%string, 1); ("mt-bench"%string, 0.5)].

End SectionSpec.

(** ** Rerolling a best-of-n dataset *)

Module Reroll.

Import Np Ties.
Local Open Scope R_scope.

(** One row of the data frame: the two columns that are combined
    ([cols_to_combine] at its default, "text" and "scores"), one score per
    row, and the value of every other column by name.  The names of the
    columns are distinct and the cells of a column are of one type. *)
Record Row : Type := mkRow {
  row_text : string;
  row_score : R;
  row_other : string -> cell
}.

(** [df]: its rows and [df.columns]. *)
Record DataFrame : Type := mkFrame {
  frame_rows : list Row;
  frame_columns : list string
}.

(** A value of a rerolled row. *)
Inductive entry : Type :=
| Texts (l : list string)
| Scores (l : list R)
| Result (x : R)
| Value (c : cell).

Definition new_row : Type := Dict.dict string entry.

(** The bounds of a slice [a:b] on a sequence of length [n]. *)
Definition clamp_index (n i : Z) : Z :=
  if (i <? 0)%Z then Z.max (i + n) 0 else Z.min i n.

(** [l[a:b]], also [df.iloc[a:b]] on the rows. *)
Definition py_slice {A : Type} (l : list A) (a b : Z) : list A :=
  let n := Z.of_nat (List.length l) in
  let start := clamp_index n a in
  let stop := clamp_index n b in
  firstn (Z.to_nat (stop - start)) (skipn (Z.to_nat start) l).

(** [np.max] of a list of numbers; the empty list raises [ValueError]. *)
Definition np_max (l : list R) : result R :=
  match l with
  | [] => Raise ValueError
  | x :: l' => Ok (fold_left Rmax l' x)
  end.

(** [np.sum(scores == max_val)] *)
Definition count_equal (v : R) (l : list R) : nat :=
  List.length (filter (fun x => if Req_dec_T x v then true else false) l).

(** The "results" value of a group: the penalty for ties. *)
Definition tie_penalty (scores : list R) : result R :=
  max_val <- np_max scores ;;
  match scores with
  | [] => Raise IndexError
  | first :: _ =>
      if Req_dec_T first max_val
      then Ok (1 / INR (count_equal max_val scores))
      else Ok 0
  end.

Definition cell_eqb (a b : cell) : bool :=
  match a, b with
  | CNone, CNone => true
  | CInt x, CInt y => Z.eqb x y
  | CNum x, CNum y => if Req_dec_T x y then true else false
  | CStr x, CStr y => String.eqb x y
  | _, _ => false
  end.

(** [series.unique()]: the distinct values in the order of their first
    occurrence. *)
Fixpoint unique (l : list cell) : list cell :=
  match l with
  | [] => []
  | x :: l' => x :: filter (fun y => negb (cell_eqb x y)) (unique l')
  end.

(** The body of the loop over the other columns. *)
Definition take_constant (group : list Row) (row : new_row) (col : string)
  : result new_row :=
  match unique (map (fun r => row_other r col) group) with
  | [v] => Ok (Dict.set String.eqb row col (Value v))
  | _ => Raise ValueError
  end.

Definition cols_to_combine : list string := ["text"%string; "scores"%string].

Definition other_columns (df : DataFrame) : list string :=
  filter (fun col => negb (existsb (String.eqb col) cols_to_combine))
         (frame_columns df).

(** The new row of one group. *)
Definition combine_group (df : DataFrame) (group : list Row) : result new_row :=
  let row := Dict.set String.eqb [] "text"%string (Texts (map row_text group)) in
  let row := Dict.set String.eqb row "scores"%string (Scores (map row_score group)) in
  results <- tie_penalty (map row_score group) ;;
  let row := Dict.set String.eqb row "results"%string (Result results) in
  for_each (take_constant group) (other_columns df) row.

(** The body of the loop over the group sizes; the state is
    [(rerolled_rows, current_idx)]. *)
Definition reroll_group (df : DataFrame) (st : list new_row * Z)
  (group_size : Z) : result (list new_row * Z) :=
  let group := py_slice (frame_rows df) (snd st) (snd st + group_size)%Z in
  row <- combine_group df group ;;
  Ok (fst st ++ [row], (snd st + group_size)%Z).

(** The result is the list [rerolled_rows]; its conversion to a data
    frame and a dataset is left out. *)
Definition reroll_and_score_dataset (df : DataFrame)
  (total_completions : list Z) : result (list new_row) :=
  if negb (fold_right Z.add 0%Z total_completions
           =? Z.of_nat (List.length (frame_rows df)))%Z
  then Raise ValueError
  else
    st <- for_each (reroll_group df) total_completions ([], 0%Z) ;;
    Ok (fst st).

End Reroll.

Module RerollSpec.

Import Np Ties Reroll.
Local Open Scope R_scope.

(** Consecutive chunks of the given sizes. *)
Fixpoint chunks {A : Type} (sizes : list nat) (l : list A) : list (list A) :=
  match sizes with
  | [] => []
  | n :: sizes' => firstn n l :: chunks sizes' (skipn n l)
  end.

(** The scores of a rerolled row. *)
Definition scores_of (row : new_row) : list R :=
  match Dict.get String.eqb row "scores"%string with
  | Some (Scores l) => l
  | _ => []
  end.

Definition texts_of (row : new_row) : list string :=
  match Dict.get String.eqb row "text"%string with
  | Some (Texts l) => l
  | _ => []
  end.

Definition bon_frame : DataFrame :=
  mkFrame
    [ mkRow "a" 1 (fun _ => CInt 7); mkRow "b" 3 (fun _ => CInt 7);
      mkRow "c" 2 (fun _ => CInt 8); mkRow "d" 2 (fun _ => CInt 8);
      mkRow "e" 1 (fun _ => CInt 8) ]
    ["text"%string; "scores"%string; "prompt_id"%string].

End RerollSpec.

(** ** Dialogue formatting *)

Module Chat.

Local Open Scope string_scope.
Local Open Scope list_scope.

(** The Python values a dataset row can hold.  The keys of a dict are
    strings, and a string is the sequence of its characters. *)
#[warnings="-register-all"]
Inductive value : Type :=
| VNone
| VBool (b : bool)
| VInt (n : Z)
| VFloat (x : R)
| VStr (s : string)
| VList (l : list value)
| VDict (d : list (string * value)).

(** What these functions can raise: the failure of an [assert], a built-in
    exception, or an exception of another class that comes out of the
    tokenizer or of the conversation template. *)
Inductive raised : Type :=
| AssertionError
| Builtin (e : exn)
| Foreign (name : string).

Inductive outcome (A : Type) : Type :=
| Done (a : A)
| Fail (e : raised).

Arguments Done {A} a.
Arguments Fail {A} e.

Definition and_then {A B : Type} (m : outcome A) (k : A -> outcome B)
  : outcome B :=
  match m with
  | Done a => k a
  | Fail e => Fail e
  end.

Notation "x <~ m ;; k" := (and_then m (fun x => k))
  (at level 61, m at next level, right associativity).

(** A [for] loop that threads its state and stops at the first exception. *)
Fixpoint iter {A S : Type} (body : S -> A -> outcome S) (l : list A) (st : S)
  : outcome S :=
  match l with
  | [] => Done st
  | a :: l' => st' <~ body st a ;; iter body l' st'
  end.

(** A row of the dataset, [example]. *)
Definition row : Type := Dict.dict string value.

(** [k in example.keys()] *)
Definition has (example : row) (k : string) : bool :=
  Dict.mem String.eqb example k.

(** [example[k]] *)
Definition lookup (example : row) (k : string) : outcome value :=
  match Dict.get String.eqb example k with
  | Some v => Done v
  | None => Fail (Builtin KeyError)
  end.

(** [example[k] = v] *)
Definition assign (example : row) (k : string) (v : value) : row :=
  Dict.set String.eqb example k v.

(** [v[k]] for a string [k]. *)
Definition subscript (v : value) (k : string) : outcome value :=
  match v with
  | VDict d => lookup d k
  | _ => Fail (Builtin TypeError)
  end.

(** [{"role": role, "content": content}] *)
Definition message (role : string) (content : value) : value :=
  VDict [("role", VStr role); ("content", content)].

(** A list of messages, each kept as its role and its content, as the
    Python list of dicts. *)
Definition render (messages : list (string * value)) : value :=
  VList (map (fun m => message (fst m) (snd m)) messages).

(** [l[-1]] *)
Definition last_of {A : Type} (l : list A) : outcome A :=
  match l with
  | [] => Fail (Builtin IndexError)
  | x :: l' => Done (last l' x)
  end.

(** [l[-1] = x] *)
Definition set_last {A : Type} (l : list A) (x : A) : outcome (list A) :=
  match l with
  | [] => Fail (Builtin IndexError)
  | _ => Done (removelast l ++ [x])
  end.

Fixpoint str_but_last (s : string) : string :=
  match s with
  | EmptyString => EmptyString
  | String c EmptyString => EmptyString
  | String c rest => String c (str_but_last rest)
  end.

Fixpoint str_last (s : string) : option string :=
  match s with
  | EmptyString => None
  | String c EmptyString => Some (String c EmptyString)
  | String c rest => str_last rest
  end.

(** [v[:-1]]; on a dict the slice is an unhashable key (TypeError, as Python
    up to 3.11 has it). *)
Definition but_last (v : value) : outcome value :=
  match v with
  | VList l => Done (VList (removelast l))
  | VStr s => Done (VStr (str_but_last s))
  | _ => Fail (Builtin TypeError)
  end.

(** [v[-1]] *)
Definition last_item (v : value) : outcome value :=
  match v with
  | VList l => last_of l
  | VStr s =>
      match str_last s with
      | Some c => Done (VStr c)
      | None => Fail (Builtin IndexError)
      end
  | VDict _ => Fail (Builtin KeyError)
  | _ => Fail (Builtin TypeError)
  end.

(** [v[0]] *)
Definition first_item (v : value) : outcome value :=
  match v with
  | VList (x :: _) => Done x
  | VList [] => Fail (Builtin IndexError)
  | VStr (String c _) => Done (VStr (String c EmptyString))
  | VStr EmptyString => Fail (Builtin IndexError)
  | VDict _ => Fail (Builtin KeyError)
  | _ => Fail (Builtin TypeError)
  end.

(** The items of [enumerate(v)]: the elements of a list, the characters of a
    string, the keys of a dict. *)
Definition items (v : value) : outcome (list value) :=
  match v with
  | VList l => Done l
  | VStr s => Done (map (fun c => VStr (String c EmptyString)) (list_ascii_of_string s))
  | VDict d => Done (map (fun kv => VStr (fst kv)) d)
  | _ => Fail (Builtin TypeError)
  end.

(** *** [process_preference_data] of [load_and_process_dataset] *)

Definition process_preference_data (example : row) : outcome row :=
  chosen <~ lookup example "chosen" ;;
  prompt <~ but_last chosen ;;
  let example := assign example "prompt" prompt in
  chosen <~ lookup example "chosen" ;;
  final <~ last_item chosen ;;
  content <~ subscript final "content" ;;
  let example := assign example "chosen" content in
  rejected <~ lookup example "rejected" ;;
  final <~ last_item rejected ;;
  content <~ subscript final "content" ;;
  Done (assign example "rejected" content).

(** *** [prepare_dialogue_from_tokenizer] *)

Section Tokenizer.

(** [tokenizer.apply_chat_template(messages, tokenize=False)], a function
    of the messages. *)
Variable apply_chat_template : value -> outcome string.

(** The body of the loop over the messages of the prompt. *)
Definition add_message (messages : list (string * value))
  (il : nat * value) : outcome (list (string * value)) :=
  p <~ subscript (snd il) "content" ;;
  _ <~ subscript (snd il) "role" ;;
  if ((fst il + 1) mod 2 =? 1)%nat
  then Done (messages ++ [("user", p)])
  else Done (messages ++ [("assistant", p)]).

Definition multi_turn (example : row) (prompt : list value) : outcome row :=
  messages <~ iter add_message (Ties.enumerate prompt) [] ;;
  final <~ last_of messages ;;
  if negb (fst final =? "user") then Fail AssertionError else
  temp_prompt <~ apply_chat_template (render messages) ;;
  chosen <~ lookup example "chosen" ;;
  let messages := messages ++ [("assistant", chosen)] in
  text_chosen <~ apply_chat_template (render messages) ;;
  let example := assign example "text_chosen" (VStr text_chosen) in
  rejected <~ lookup example "rejected" ;;
  messages <~ set_last messages ("assistant", rejected) ;;
  text_rejected <~ apply_chat_template (render messages) ;;
  let example := assign example "text_rejected" (VStr text_rejected) in
  Done (assign example "prompt" (VStr temp_prompt)).

Definition single_turn (example : row) : outcome row :=
  prompt <~ lookup example "prompt" ;;
  temp_prompt <~ apply_chat_template (render [("user", prompt)]) ;;
  prompt <~ lookup example "prompt" ;;
  chosen <~ lookup example "chosen" ;;
  text_chosen <~
    apply_chat_template (render [("user", prompt); ("assistant", chosen)]) ;;
  let example := assign example "text_chosen" (VStr text_chosen) in
  prompt <~ lookup example "prompt" ;;
  rejected <~ lookup example "rejected" ;;
  text_rejected <~
    apply_chat_template (render [("user", prompt); ("assistant", rejected)]) ;;
  let example := assign example "text_rejected" (VStr text_rejected) in
  Done (assign example "prompt" (VStr temp_prompt)).

Definition instruction (example : row) : outcome row :=
  messages <~
    (if has example "messages" then lookup example "messages"
     else
       prompt <~ lookup example "prompt" ;;
       input <~ lookup example "input" ;;
       Done (render [("user", prompt); ("assistant", input)])) ;;
  text <~ apply_chat_template messages ;;
  Done (assign example "text" (VStr text)).

Definition prepare_dialogue_from_tokenizer (example : row) (ift : bool)
  : outcome row :=
  if has example "chosen" && has example "rejected" then
    prompt <~ lookup example "prompt" ;;
    match prompt with
    | VList (line :: lines) => multi_turn example (line :: lines)
    | _ => single_turn example
    end
  else if ift then instruction example
  else Fail (Builtin ValueError).

End Tokenizer.

(** *** [prepare_dialogue] *)

(** The conversation template: its two roles and its messages, each
    message the list [[role, content]].  The other fields of the template
    are not written by [prepare_dialogue]. *)
Record Conversation : Type := mkConversation {
  roles : string * string;
  messages : list (string * value)
}.

(** A step that may raise and may change the template. *)
Definition step (A : Type) : Type := Conversation -> outcome A * Conversation.

Definition pure {A : Type} (a : A) : step A := fun t => (Done a, t).

Definition lift {A : Type} (m : outcome A) : step A := fun t => (m, t).

Definition next {A B : Type} (m : step A) (k : A -> step B) : step B :=
  fun t =>
    match m t with
    | (Done a, t') => k a t'
    | (Fail e, t') => (Fail e, t')
    end.

Notation "x <~~ m ;; k" := (next m (fun x => k))
  (at level 61, m at next level, right associativity).

Fixpoint each {A : Type} (body : A -> step unit) (l : list A) : step unit :=
  match l with
  | [] => pure tt
  | a :: l' => _ <~~ body a ;; each body l'
  end.

(** [dialogue_template.messages = l] *)
Definition set_messages (l : list (string * value)) : step unit :=
  fun t => (Done tt, mkConversation (roles t) l).

(** [dialogue_template.messages.append([role, content])] *)
Definition append_message (m : string * value) : step unit :=
  fun t => (Done tt, mkConversation (roles t) (messages t ++ [m])).

(** [dialogue_template.messages[-1] = [role, content]] *)
Definition replace_last_message (m : string * value) : step unit :=
  fun t =>
    match set_last (messages t) m with
    | Done l => (Done tt, mkConversation (roles t) l)
    | Fail e => (Fail e, t)
    end.

(** [dialogue_template.roles[0]] and [dialogue_template.roles[1]] *)
Definition role0 : step string := fun t => (Done (fst (roles t)), t).
Definition role1 : step string := fun t => (Done (snd (roles t)), t).

(** [dialogue_template.messages[-1][0]] *)
Definition last_role : step string :=
  fun t =>
    match last_of (messages t) with
    | Done m => (Done (fst m), t)
    | Fail e => (Fail e, t)
    end.

Section Template.

(** [dialogue_template.get_prompt()], a function of the template. *)
Variable get_prompt : Conversation -> outcome string.

Definition prompt_text : step string := fun t => (get_prompt t, t).

(** The body of the loop over the messages of the prompt. *)
Definition add_turn (il : nat * value) : step unit :=
  p <~~ lift (subscript (snd il) "content") ;;
  _ <~~ lift (subscript (snd il) "role") ;;
  if ((fst il + 1) mod 2 =? 1)%nat
  then r <~~ role0 ;; append_message (r, p)
  else r <~~ role1 ;; append_message (r, p).

Definition multi_turn_template (example : row) (prompt : list value)
  : step row :=
  _ <~~ set_messages [] ;;
  _ <~~ each add_turn (Ties.enumerate prompt) ;;
  final <~~ last_role ;;
  r0 <~~ role0 ;;
  if negb (final =? r0) then lift (Fail AssertionError) else
  temp_prompt <~~ prompt_text ;;
  r1 <~~ role1 ;;
  chosen <~~ lift (lookup example "chosen") ;;
  _ <~~ append_message (r1, chosen) ;;
  text_chosen <~~ prompt_text ;;
  let example := assign example "text_chosen" (VStr text_chosen) in
  r1 <~~ role1 ;;
  rejected <~~ lift (lookup example "rejected") ;;
  _ <~~ replace_last_message (r1, rejected) ;;
  text_rejected <~~ prompt_text ;;
  let example := assign example "text_rejected" (VStr text_rejected) in
  pure (assign example "prompt" (VStr temp_prompt)).

(** [if isinstance(example["prompt"], list): example["prompt"] =
    example["prompt"][0]] *)
Definition unwrap_prompt (example : row) : outcome row :=
  prompt <~ lookup example "prompt" ;;
  match prompt with
  | VList _ =>
      prompt <~ lookup example "prompt" ;;
      first <~ first_item prompt ;;
      Done (assign example "prompt" first)
  | _ => Done example
  end.

Definition single_turn_template (example : row) : step row :=
  example <~~ lift (unwrap_prompt example) ;;
  r0 <~~ role0 ;;
  prompt <~~ lift (lookup example "prompt") ;;
  _ <~~ set_messages [(r0, prompt)] ;;
  temp_prompt <~~ prompt_text ;;
  r0 <~~ role0 ;;
  prompt <~~ lift (lookup example "prompt") ;;
  r1 <~~ role1 ;;
  chosen <~~ lift (lookup example "chosen") ;;
  _ <~~ set_messages [(r0, prompt); (r1, chosen)] ;;
  text_chosen <~~ prompt_text ;;
  let example := assign example "text_chosen" (VStr text_chosen) in
  r0 <~~ role0 ;;
  prompt <~~ lift (lookup example "prompt") ;;
  r1 <~~ role1 ;;
  rejected <~~ lift (lookup example "rejected") ;;
  _ <~~ set_messages [(r0, prompt); (r1, rejected)] ;;
  text_rejected <~~ prompt_text ;;
  let example := assign example "text_rejected" (VStr text_rejected) in
  pure (assign example "prompt" (VStr temp_prompt)).

(** The body of the loop over [example["messages"]]. *)
Definition add_line (il : nat * value) : step unit :=
  role <~~ (if (fst il mod 2 =? 0)%nat then role0 else role1) ;;
  content <~~ lift (subscript (snd il) "content") ;;
  append_message (role, content).

Definition instruction_template (example : row) : step row :=
  example <~~ lift (unwrap_prompt example) ;;
  r0 <~~ role0 ;;
  prompt <~~ lift (lookup example "prompt") ;;
  _ <~~ set_messages [(r0, prompt)] ;;
  temp_prompt <~~ prompt_text ;;
  _ <~~ (if has example "messages" then
           _ <~~ set_messages [] ;;
           lines <~~ lift (v <~ lookup example "messages" ;; items v) ;;
           each add_line (Ties.enumerate lines)
         else
           r0 <~~ role0 ;;
           prompt <~~ lift (lookup example "prompt") ;;
           r1 <~~ role1 ;;
           input <~~ lift (lookup example "input") ;;
           set_messages [(r0, prompt); (r1, input)]) ;;
  text <~~ prompt_text ;;
  let example := assign example "text" (VStr text) in
  pure (assign example "prompt" (VStr temp_prompt)).

Definition prepare_dialogue (example : row) (ift : bool) : step row :=
  if has example "chosen" && has example "rejected" then
    prompt <~~ lift (lookup example "prompt") ;;
    match prompt with
    | VList (line :: lines) => multi_turn_template example (line :: lines)
    | _ => single_turn_template example
    end
  else if ift then instruction_template example
  else lift (Fail (Builtin ValueError)).

End Template.

End Chat.

Module ChatSpec.

Import Chat.
Local Open Scope string_scope.
Local Open Scope list_scope.

(** The content of a message of the prompt that the loops can read: the
    message is a dict with the keys "content" and "role". *)
Definition content_of (line : value) : option value :=
  match line with
  | VDict d =>
      match Dict.get String.eqb d "content", Dict.get String.eqb d "role" with
      | Some p, Some _ => Some p
      | _, _ => None
      end
  | _ => None
  end.

(** The contents said by turns, [first] speaking first. *)
Fixpoint alternate (first second : string) (contents : list value)
  : list (string * value) :=
  match contents with
  | [] => []
  | p :: rest => (first, p) :: alternate second first rest
  end.

(** What [prepare_dialogue] leaves after a call on a preference example:
    the roles as they were, the rejected answer as the last message, and
    "text_rejected" as the prompt of the template. *)
Definition left_with_rejected (get_prompt : Conversation -> outcome string)
  (example example' : row) (t t' : Conversation) : Prop :=
  roles t' = roles t /\
  exists r text,
    Dict.get String.eqb example "rejected" = Some r /\
    last_of (messages t') = Done (snd (roles t), r) /\
    get_prompt t' = Done text /\
    Dict.get String.eqb example' "text_rejected" = Some (VStr text).

(** A chat template for the examples: one line per message, for messages
    whose content is a string. *)
Definition transcript_line (text : string) (m : value) : outcome string :=
  r <~ subscript m "role" ;;
  c <~ subscript m "content" ;;
  match r, c with
  | VStr r, VStr c => Done (text ++ r ++ ": " ++ c ++ "; ")%string
  | _, _ => Fail (Foreign "TemplateError")
  end.

Definition transcript (v : value) : outcome string :=
  match v with
  | VList l => iter transcript_line l ""
  | _ => Fail (Foreign "TemplateError")
  end.

Definition said (t : Conversation) : outcome string :=
  transcript (render (messages t)).

Definition chat : Conversation := mkConversation ("user", "assistant") [].

Definition preference_example : row :=
  [ ("prompt", VList [ message "human" (VStr "Hi");
                       message "bot" (VStr "Hello");
                       message "human" (VStr "Bye") ]);
    ("chosen", VStr "See you");
    ("rejected", VStr "No") ].

Definition relabelled_prompt : list value :=
  [ message "user" (VStr "Hi");
    message "assistant" (VStr "Hello");
    message "user" (VStr "Bye") ].

Definition even_example : row :=
  [ ("prompt", VList [ message "user" (VStr "Hi");
                       message "assistant" (VStr "Hello") ]);
    ("chosen", VStr "See you");
    ("rejected", VStr "No") ].

Definition empty_prompt_example : row :=
  [ ("prompt", VList []); ("chosen", VStr "Yes"); ("rejected", VStr "No") ].

Definition raw_example : row :=
  [ ("chosen", VList [ message "user" (VStr "Hi");
                       message "assistant" (VStr "Hello") ]);
    ("rejected", VList [ message "user" (VStr "Other");
                         message "assistant" (VStr "Go away") ]) ].

End ChatSpec.


(** * Properties *)

Import Np Ties Spec.
Local Open Scope R_scope.

(** ** Comparisons on reals *)

Lemma Rgtb_true_iff (x y : R) : Rgtb x y = true <-> x > y.
Proof.
  unfold Rgtb; destruct (Rgt_dec x y); split; intros; auto; discriminate.
Qed.

(** ** [max] and [min] *)

Lemma fold_max_spec (l : list R) (x : R) :
  let m := fold_left (fun m y => if Rgt_dec y m then y else m) l x in
  (m = x \/ In m l) /\ x <= m /\ forall y, In y l -> y <= m.
Proof.
  revert x; induction l as [|a l IH]; intros x; simpl.
  - repeat split; auto; try lra. intros y [].
  - destruct (IH (if Rgt_dec a x then a else x)) as (Hin & Hle & Hall).
    destruct (Rgt_dec a x) as [Hax|Hax].
    + repeat split.
      * destruct Hin; auto.
      * lra.
      * intros y [<-|Hy]; auto.
    + repeat split.
      * destruct Hin; auto.
      * lra.
      * intros y [<-|Hy]; auto. lra.
Qed.

Lemma fold_min_spec (l : list R) (x : R) :
  let m := fold_left (fun m y => if Rlt_dec y m then y else m) l x in
  (m = x \/ In m l) /\ m <= x /\ forall y, In y l -> m <= y.
Proof.
  revert x; induction l as [|a l IH]; intros x; simpl.
  - repeat split; auto; try lra. intros y [].
  - destruct (IH (if Rlt_dec a x then a else x)) as (Hin & Hle & Hall).
    destruct (Rlt_dec a x) as [Hax|Hax].
    + repeat split.
      * destruct Hin; auto.
      * lra.
      * intros y [<-|Hy]; auto.
    + repeat split.
      * destruct Hin; auto.
      * lra.
      * intros y [<-|Hy]; auto. lra.
Qed.

Lemma py_max_is_max (l : list R) :
  l <> [] -> exists m, py_max l = Ok m /\ is_max m l.
Proof.
  destruct l as [|x l]; [congruence|intros _].
  destruct (fold_max_spec l x) as (Hin & Hle & Hall).
  eexists; split; [reflexivity|]. split.
  - simpl. destruct Hin as [->|Hin]; auto.
  - intros y [<-|Hy]; auto.
Qed.

Lemma py_min_is_min (l : list R) :
  l <> [] -> exists m, py_min l = Ok m /\ is_min m l.
Proof.
  destruct l as [|x l]; [congruence|intros _].
  destruct (fold_min_spec l x) as (Hin & Hle & Hall).
  eexists; split; [reflexivity|]. split.
  - simpl. destruct Hin as [->|Hin]; auto.
  - intros y [<-|Hy]; auto.
Qed.

Lemma is_max_unique (l : list R) (m m' : R) :
  is_max m l -> is_max m' l -> m = m'.
Proof.
  intros [Hin Hall] [Hin' Hall']. apply Rle_antisym; auto.
Qed.

Lemma is_min_unique (l : list R) (m m' : R) :
  is_min m l -> is_min m' l -> m = m'.
Proof.
  intros [Hin Hall] [Hin' Hall']. apply Rle_antisym; auto.
Qed.

(** ** [_compute_prompt_stats] *)

(** What the function returns on a group that has a correct and an
    incorrect entry. *)
Lemma compute_prompt_stats_Ok (samples : list (bool * R)) :
  correct_scores samples <> [] ->
  incorrect_scores samples <> [] ->
  exists best_correct worst_correct best_incorrect,
    is_max best_correct (correct_scores samples) /\
    is_min worst_correct (correct_scores samples) /\
    is_max best_incorrect (incorrect_scores samples) /\
    _compute_prompt_stats samples =
      Ok (mkStats (Rgtb (worst_correct - best_incorrect) 0)
            (if (1 <? List.length (correct_scores samples))%nat
             then Some (best_correct - worst_correct) else None)
            (worst_correct - best_incorrect)).
Proof.
  intros Hc Hi.
  destruct (py_max_is_max Hc) as (bc & Ebc & Hbc).
  destruct (py_min_is_min Hc) as (wc & Ewc & Hwc).
  destruct (py_max_is_max Hi) as (bi & Ebi & Hbi).
  exists bc, wc, bi. split; [exact Hbc|]. split; [exact Hwc|].
  split; [exact Hbi|].
  unfold _compute_prompt_stats. rewrite Ebc, Ewc, Ebi. reflexivity.
Qed.

(** The function raises [ValueError], and nothing else, exactly on the groups
    without a correct or without an incorrect entry. *)
Lemma compute_prompt_stats_Raise (samples : list (bool * R)) :
  correct_scores samples = [] \/ incorrect_scores samples = [] ->
  _compute_prompt_stats samples = Raise ValueError.
Proof.
  unfold _compute_prompt_stats. intros [H|H].
  - rewrite H. reflexivity.
  - destruct (correct_scores samples) as [|x l]; [reflexivity|].
    rewrite H. reflexivity.
Qed.

Lemma compute_prompt_stats_exn (samples : list (bool * R)) (e : exn) :
  _compute_prompt_stats samples = Raise e -> e = ValueError.
Proof.
  unfold _compute_prompt_stats.
  destruct (correct_scores samples) as [|x l]; simpl; [congruence|].
  destruct (incorrect_scores samples) as [|y l']; simpl; congruence.
Qed.

(** The correct entries of a group are its pairs labelled [True], the
    incorrect ones its pairs labelled [False]. *)
Lemma In_correct_scores (samples : list (bool * R)) (x : R) :
  In x (correct_scores samples) <-> In (true, x) samples.
Proof.
  unfold correct_scores. rewrite in_map_iff. split.
  - intros ([b y] & E & Hin). apply filter_In in Hin as [Hin Hb].
    cbn [fst snd] in *. subst. exact Hin.
  - intros Hin. exists (true, x). split; [reflexivity|].
    apply filter_In. split; [exact Hin|reflexivity].
Qed.

Lemma In_incorrect_scores (samples : list (bool * R)) (y : R) :
  In y (incorrect_scores samples) <-> In (false, y) samples.
Proof.
  unfold incorrect_scores. rewrite in_map_iff. split.
  - intros ([b z] & E & Hin). apply filter_In in Hin as [Hin Hb].
    cbn [fst snd] in *. subst. destruct b; [discriminate|exact Hin].
  - intros Hin. exists (false, y). split; [reflexivity|].
    apply filter_In. split; [exact Hin|reflexivity].
Qed.

(** C1. On a group with at least one pair labelled correct and one pair
    labelled incorrect, [_compute_prompt_stats] returns
    [correct_incorrect_margin] equal to the least score among the pairs
    labelled correct minus the greatest score among the pairs labelled
    incorrect, and [accurate] is true exactly when that margin is positive,
    that is exactly when the worst correct score is greater than the best
    incorrect score. *)
Theorem C1_margin_and_accurate (samples : list (bool * R)) :
  (exists x, In (true, x) samples) ->
  (exists y, In (false, y) samples) ->
  exists stats worst_correct best_incorrect,
    _compute_prompt_stats samples = Ok stats /\
    In (true, worst_correct) samples /\
    (forall x, In (true, x) samples -> worst_correct <= x) /\
    In (false, best_incorrect) samples /\
    (forall y, In (false, y) samples -> y <= best_incorrect) /\
    correct_incorrect_margin stats = worst_correct - best_incorrect /\
    (accurate stats = true <-> correct_incorrect_margin stats > 0) /\
    accurate stats = Rgtb worst_correct best_incorrect.
Proof.
  intros [x Hx] [y Hy].
  assert (Hc : correct_scores samples <> []).
  { apply In_correct_scores in Hx. intros E. rewrite E in Hx. destruct Hx. }
  assert (Hi : incorrect_scores samples <> []).
  { apply In_incorrect_scores in Hy. intros E. rewrite E in Hy. destruct Hy. }
  destruct (compute_prompt_stats_Ok samples Hc Hi)
    as (bc & wc & bi & Hbc & [Hwc Hmin] & [Hbi Hmax] & E).
  eexists; exists wc, bi. split; [exact E|]. simpl.
  split; [apply In_correct_scores; exact Hwc|].
  split; [intros x' Hx'; apply Hmin, In_correct_scores; exact Hx'|].
  split; [apply In_incorrect_scores; exact Hbi|].
  split; [intros y' Hy'; apply Hmax, In_incorrect_scores; exact Hy'|].
  split; [reflexivity|].
  split; [apply Rgtb_true_iff|].
  unfold Rgtb.
  destruct (Rgt_dec (wc - bi) 0), (Rgt_dec wc bi); auto; exfalso; lra.
Qed.

(** On the reference group of the worked example, scores 5 (correct), 2
    and 1, the margin is 3 and the group is accurate. *)
Lemma C1_margin_and_accurate_witness :
  exists stats,
    _compute_prompt_stats example_ref_group = Ok stats /\
    correct_incorrect_margin stats = 3 /\
    accurate stats = true.
Proof.
  destruct (C1_margin_and_accurate example_ref_group)
    as (stats & wc & bi & E & Hwc & _ & Hbi & Hmax & Hm & Hacc & _).
  - exists 5. left. reflexivity.
  - exists 2. right. left. reflexivity.
  - exists stats. split; [exact E|].
    assert (Ewc : wc = 5).
    { destruct Hwc as [H|[H|[H|[]]]]; [|discriminate H|discriminate H].
      injection H as <-. reflexivity. }
    assert (H2 : 2 <= bi) by (apply Hmax; right; left; reflexivity).
    assert (Ebi : bi = 2).
    { destruct Hbi as [H|[H|[H|[]]]]; [discriminate H| |].
      - injection H as <-. reflexivity.
      - injection H as <-. exfalso. lra. }
    assert (E3 : correct_incorrect_margin stats = 3)
      by (rewrite Hm, Ewc, Ebi; lra).
    split; [exact E3|]. apply Hacc. rewrite E3. lra.
Defined.

(** C6. On a group with exactly one correct entry (and an incorrect one)
    [_compute_prompt_stats] returns [different_correct_margin] as [None],
    not as 0; on a group with two or more correct entries it returns the
    greatest correct score minus the least correct score. *)
Theorem C6_different_correct_margin (samples : list (bool * R)) :
  incorrect_scores samples <> [] ->
  (List.length (correct_scores samples) = 1%nat ->
   exists stats,
     _compute_prompt_stats samples = Ok stats /\
     different_correct_margin stats = None /\
     different_correct_margin stats <> Some 0) /\
  ((2 <= List.length (correct_scores samples))%nat ->
   exists stats best_correct worst_correct,
     _compute_prompt_stats samples = Ok stats /\
     is_max best_correct (correct_scores samples) /\
     is_min worst_correct (correct_scores samples) /\
     different_correct_margin stats = Some (best_correct - worst_correct)).
Proof.
  intros Hi. split; intros Hlen.
  - assert (Hc : correct_scores samples <> [])
      by (intros E; rewrite E in Hlen; discriminate).
    destruct (compute_prompt_stats_Ok samples Hc Hi)
      as (bc & wc & bi & _ & _ & _ & E).
    eexists; split; [exact E|]. simpl. rewrite Hlen. simpl.
    split; [reflexivity|discriminate].
  - assert (Hc : correct_scores samples <> [])
      by (intros E; rewrite E in Hlen; simpl in Hlen; lia).
    destruct (compute_prompt_stats_Ok samples Hc Hi)
      as (bc & wc & bi & Hbc & Hwc & _ & E).
    eexists; exists bc, wc. split; [exact E|]. simpl.
    split; [exact Hbc|]. split; [exact Hwc|].
    destruct (1 <? List.length (correct_scores samples))%nat eqn:El;
      [reflexivity|].
    apply Nat.ltb_ge in El. lia.
Qed.

Lemma C6_different_correct_margin_witness :
  (exists stats,
     _compute_prompt_stats example_ref_group = Ok stats /\
     different_correct_margin stats = None /\
     different_correct_margin stats <> Some 0) /\
  (exists stats best_correct worst_correct,
     _compute_prompt_stats example_tied_group = Ok stats /\
     is_max best_correct (correct_scores example_tied_group) /\
     is_min worst_correct (correct_scores example_tied_group) /\
     different_correct_margin stats = Some (best_correct - worst_correct)).
Proof.
  split.
  - apply (C6_different_correct_margin example_ref_group);
      [simpl; discriminate | reflexivity].
  - apply (C6_different_correct_margin example_tied_group);
      [simpl; discriminate | simpl; lia].
Defined.

(** ** Dicts *)

Section DictFacts.

Variables (K V : Type) (eqb : K -> K -> bool).
Hypothesis eqb_eq : forall a b, eqb a b = true <-> a = b.

Lemma eqb_refl (a : K) : eqb a a = true.
Proof. apply eqb_eq; reflexivity. Qed.

Lemma eqb_neq (a b : K) : a <> b -> eqb a b = false.
Proof.
  intros H. destruct (eqb a b) eqn:E; [|reflexivity].
  apply eqb_eq in E. contradiction.
Qed.

Lemma get_set (d : Dict.dict K V) (k k' : K) (v : V) :
  Dict.get eqb (Dict.set eqb d k v) k' =
  if eqb k' k then Some v else Dict.get eqb d k'.
Proof.
  induction d as [|[k0 v0] d IH]; simpl; [reflexivity|].
  destruct (eqb k k0) eqn:E; simpl.
  - apply eqb_eq in E; subst k0. destruct (eqb k' k); reflexivity.
  - rewrite IH. destruct (eqb k' k0) eqn:E0; [|reflexivity].
    apply eqb_eq in E0; subst k0.
    destruct (eqb k' k) eqn:E1; [|reflexivity].
    apply eqb_eq in E1; subst k'. rewrite eqb_refl in E. discriminate.
Qed.

Lemma get_None (d : Dict.dict K V) (k : K) :
  Dict.get eqb d k = None <-> ~ In k (Dict.keys d).
Proof.
  induction d as [|[k0 v0] d IH]; simpl.
  - split; auto.
  - destruct (eqb k k0) eqn:E.
    + apply eqb_eq in E; subst. split; [discriminate|]. intros H; tauto.
    + rewrite IH. split.
      * intros H [H0|H0]; [subst; rewrite eqb_refl in E; discriminate|tauto].
      * tauto.
Qed.

Lemma get_Some_In (d : Dict.dict K V) (k : K) (v : V) :
  Dict.get eqb d k = Some v -> In (k, v) d.
Proof.
  induction d as [|[k0 v0] d IH]; simpl; [discriminate|].
  destruct (eqb k k0) eqn:E.
  - apply eqb_eq in E; subst. intros [= ->]; auto.
  - auto.
Qed.

Lemma In_get_Some (d : Dict.dict K V) (k : K) (v : V) :
  NoDup (Dict.keys d) -> In (k, v) d -> Dict.get eqb d k = Some v.
Proof.
  induction d as [|[k0 v0] d IH]; simpl; [tauto|].
  intros Hnd [H|H].
  - injection H as -> ->. rewrite eqb_refl. reflexivity.
  - inversion Hnd as [|? ? Hnotin Hnd']; subst.
    destruct (eqb k k0) eqn:E; [|auto].
    apply eqb_eq in E; subst. exfalso; apply Hnotin.
    change k0 with (fst (k0, v)). apply in_map. exact H.
Qed.

Lemma keys_set (d : Dict.dict K V) (k : K) (v : V) :
  Dict.keys (Dict.set eqb d k v) =
  if Dict.mem eqb d k then Dict.keys d else Dict.keys d ++ [k].
Proof.
  unfold Dict.mem.
  induction d as [|[k0 v0] d IH]; simpl; [reflexivity|].
  destruct (eqb k k0) eqn:E; simpl; [reflexivity|].
  rewrite IH. destruct (Dict.get eqb d k); reflexivity.
Qed.

Lemma NoDup_keys_set (d : Dict.dict K V) (k : K) (v : V) :
  NoDup (Dict.keys d) -> NoDup (Dict.keys (Dict.set eqb d k v)).
Proof.
  intros Hnd. rewrite keys_set. unfold Dict.mem.
  destruct (Dict.get eqb d k) eqn:E; [exact Hnd|].
  apply get_None in E.
  apply NoDup_rev in Hnd. rewrite <- (rev_involutive (Dict.keys d ++ [k])).
  apply NoDup_rev. rewrite rev_app_distr. simpl.
  constructor; [|exact Hnd]. rewrite <- in_rev. exact E.
Qed.

(** Two dicts without repeated keys that answer every lookup alike hold the
    same items, in some order. *)
Lemma same_get_Permutation (d d' : Dict.dict K V) :
  NoDup (Dict.keys d) -> NoDup (Dict.keys d') ->
  (forall k, Dict.get eqb d k = Dict.get eqb d' k) ->
  Permutation d d'.
Proof.
  intros Hd Hd' Hget.
  assert (Hnd : forall x : Dict.dict K V, NoDup (Dict.keys x) -> NoDup x).
  { intros x. induction x as [|[k v] x IH]; simpl; intros H; constructor.
    - inversion H; subst. intros Hin. apply H2.
      change k with (fst (k, v)). apply in_map. exact Hin.
    - inversion H; auto. }
  apply NoDup_Permutation; auto.
  intros [k v]. split; intros Hin.
  - apply get_Some_In. rewrite <- Hget. apply In_get_Some; auto.
  - apply get_Some_In. rewrite Hget. apply In_get_Some; auto.
Qed.

End DictFacts.

Arguments eqb_refl [K] [eqb] eqb_eq a.
Arguments eqb_neq [K] [eqb] eqb_eq a b _.
Arguments get_set [K V] [eqb] eqb_eq d k k' v.
Arguments get_None [K V] [eqb] eqb_eq d k.
Arguments get_Some_In [K V] [eqb] eqb_eq d k v _.
Arguments In_get_Some [K V] [eqb] eqb_eq d k v _ _.
Arguments keys_set [K V] [eqb] d k v.
Arguments NoDup_keys_set [K V] [eqb] eqb_eq d k v _.
Arguments same_get_Permutation [K V] [eqb] eqb_eq d d' _ _ _.

Lemma key_eqb_eq (a b : key) : key_eqb a b = true <-> a = b.
Proof.
  destruct a as [t p], b as [t' p']. unfold key_eqb; simpl.
  rewrite andb_true_iff, String.eqb_eq, Z.eqb_eq.
  split; [intros [-> ->]; reflexivity | intros [= -> ->]; auto].
Qed.

(** ** The grouping loop *)

Lemma merge_app {A : Type} (o : option (list A)) (l1 l2 : list A) :
  merge (merge o l1) l2 = merge o (l1 ++ l2).
Proof.
  destruct l2 as [|y l2].
  - rewrite app_nil_r. reflexivity.
  - destruct l1 as [|x l1]; simpl; [reflexivity|].
    rewrite <- app_assoc. reflexivity.
Qed.

Lemma get_append (g : groups) (k k' : key) (x : bool * R) :
  Dict.get key_eqb (append g k x) k' =
  if key_eqb k' k then merge (Dict.get key_eqb g k') [x]
  else Dict.get key_eqb g k'.
Proof.
  unfold append.
  destruct (Dict.get key_eqb g k) as [l|] eqn:E;
    rewrite (get_set key_eqb_eq); destruct (key_eqb k' k) eqn:Ek; auto;
    apply key_eqb_eq in Ek; subst k'; rewrite E; reflexivity.
Qed.

Lemma NoDup_append (g : groups) (k : key) (x : bool * R) :
  NoDup (Dict.keys g) -> NoDup (Dict.keys (append g k x)).
Proof.
  unfold append. destruct (Dict.get key_eqb g k);
    apply (NoDup_keys_set key_eqb_eq).
Qed.

Lemma unwrap_readable (raw : raw_score) :
  readable raw = true -> unwrap raw = Ok (score_of raw).
Proof. destruct raw as [x|[|x l]]; simpl; congruence. Qed.

Lemma unwrap_unreadable (raw : raw_score) :
  readable raw = false -> unwrap raw = Raise IndexError.
Proof. destruct raw as [x|[|x l]]; simpl; congruence. Qed.

Lemma inner_loop_Ok (k : key) (nc : Z) (irs : list (nat * raw_score))
  (g : groups) :
  forallb (fun ir => readable (snd ir)) irs = true ->
  exists g1,
    for_each (add_score k nc) irs g = Ok g1 /\
    (NoDup (Dict.keys g) -> NoDup (Dict.keys g1)) /\
    forall k', Dict.get key_eqb g1 k' =
               if key_eqb k' k
               then merge (Dict.get key_eqb g k') (map (labelled nc) irs)
               else Dict.get key_eqb g k'.
Proof.
  revert g; induction irs as [|ir irs IH]; intros g Hall; simpl in *.
  - exists g. split; [reflexivity|]. split; [auto|].
    intros k'. destruct (key_eqb k' k); reflexivity.
  - apply andb_true_iff in Hall as [Hr Hall].
    unfold add_score at 1. rewrite (unwrap_readable _ Hr). simpl.
    destruct (IH (append g k ((Z.of_nat (fst ir) <? nc)%Z, score_of (snd ir)))
                Hall) as (g1 & E & Hnd & Hget).
    exists g1. split; [exact E|]. split.
    + intros H. apply Hnd. apply NoDup_append. exact H.
    + intros k'. rewrite Hget, get_append.
      destruct (key_eqb k' k); [|reflexivity].
      rewrite merge_app. reflexivity.
Qed.

Lemma inner_loop_Raise (k : key) (nc : Z) (irs : list (nat * raw_score))
  (g : groups) :
  forallb (fun ir => readable (snd ir)) irs = false ->
  for_each (add_score k nc) irs g = Raise IndexError.
Proof.
  revert g; induction irs as [|ir irs IH]; intros g Hall; simpl in *.
  - discriminate.
  - unfold add_score at 1. destruct (readable (snd ir)) eqn:Hr.
    + rewrite (unwrap_readable _ Hr). simpl. apply IH. exact Hall.
    + rewrite (unwrap_unreadable _ Hr). reflexivity.
Qed.

Lemma forallb_enumerate {A : Type} (f : A -> bool) (l : list A) :
  forallb (fun ir => f (snd ir)) (enumerate l) = forallb f l.
Proof.
  unfold enumerate. generalize 0%nat.
  induction l as [|a l IH]; intros n; simpl; [reflexivity|].
  rewrite IH. reflexivity.
Qed.

Lemma parse_id_exn (s : string) (e : exn) :
  parse_id s = Raise e -> e = ValueError.
Proof.
  unfold parse_id.
  destruct (PyStr.split ":" s) as [|t [|p [|x l]]]; try congruence.
  unfold PyStr.int.
  destruct (match PyStr.rstrip (PyStr.lstrip p) with
            | String "-" rest => option_map Z.opp (PyStr.digits rest 0 false)
            | String "+" rest => PyStr.digits rest 0 false
            | _ => PyStr.digits (PyStr.rstrip (PyStr.lstrip p)) 0 false
            end); simpl; congruence.
Qed.

Lemma add_sample_Ok (g : groups) (s : Sample) (k : key) :
  parse_id (id s) = Ok k ->
  forallb readable (scores s) = true ->
  exists g1,
    add_sample g s = Ok g1 /\
    (NoDup (Dict.keys g) -> NoDup (Dict.keys g1)) /\
    forall k', Dict.get key_eqb g1 k' =
               if key_eqb k' k
               then merge (Dict.get key_eqb g k') (pairs s)
               else Dict.get key_eqb g k'.
Proof.
  intros Hk Hr. unfold add_sample. rewrite Hk. destruct k as [t p]. simpl.
  rewrite <- (forallb_enumerate readable) in Hr.
  exact (@inner_loop_Ok (t, p) (num_correct s) (enumerate (scores s)) g Hr).
Qed.

Lemma add_sample_Raise (g : groups) (s : Sample) :
  row_ok s = false ->
  exists e, add_sample g s = Raise e /\
            (e = ValueError \/ e = IndexError) /\
            (forallb readable (scores s) = true -> e = ValueError).
Proof.
  unfold row_ok, add_sample.
  destruct (parse_id (id s)) as [[t p]|e] eqn:Hk; simpl.
  - intros Hr. exists IndexError. split; [|split; [auto|congruence]].
    rewrite <- (forallb_enumerate readable) in Hr.
    exact (@inner_loop_Raise (t, p) (num_correct s) (enumerate (scores s)) g Hr).
  - intros _. exists e. apply parse_id_exn in Hk. subst. auto.
Qed.

Lemma group_loop_Ok (ds : list Sample) (g : groups) :
  forallb row_ok ds = true ->
  exists g1,
    for_each add_sample ds g = Ok g1 /\
    (NoDup (Dict.keys g) -> NoDup (Dict.keys g1)) /\
    forall k, Dict.get key_eqb g1 k =
              merge (Dict.get key_eqb g k) (group_of ds k).
Proof.
  revert g; induction ds as [|s ds IH]; intros g Hall; simpl in *.
  - exists g. auto.
  - apply andb_true_iff in Hall as [Hs Hall].
    unfold row_ok in Hs. destruct (parse_id (id s)) as [k|] eqn:Hk;
      [|discriminate].
    destruct (add_sample_Ok g s Hk Hs) as (g1 & E1 & Hnd1 & Hget1).
    destruct (IH g1 Hall) as (g2 & E2 & Hnd2 & Hget2).
    exists g2. rewrite E1. simpl. split; [exact E2|]. split; [auto|].
    intros k'. rewrite Hget2, Hget1.
    destruct (key_eqb k' k); [apply merge_app|reflexivity].
Qed.

Lemma group_loop_Raise (ds : list Sample) (g : groups) :
  forallb row_ok ds = false ->
  exists e, for_each add_sample ds g = Raise e /\
            (e = ValueError \/ e = IndexError) /\
            (forallb (fun s => forallb readable (scores s)) ds = true ->
             e = ValueError).
Proof.
  revert g; induction ds as [|s ds IH]; intros g Hall; simpl in *.
  - discriminate.
  - destruct (row_ok s) eqn:Hs; simpl in Hall.
    + unfold row_ok in Hs. destruct (parse_id (id s)) as [k|] eqn:Hk;
        [|discriminate].
      destruct (add_sample_Ok g s Hk Hs) as (g1 & E1 & _).
      destruct (IH g1 Hall) as (e & E & He & Hv).
      exists e. rewrite E1. simpl. split; [exact E|]. split; [exact He|].
      intros H. apply andb_true_iff in H as [_ H]. auto.
    + destruct (add_sample_Raise g s Hs) as (e & E & He & Hv).
      exists e. rewrite E. simpl. split; [reflexivity|]. split; [exact He|].
      intros H. apply andb_true_iff in H as [H _]. auto.
Qed.

(** The grouping loop succeeds exactly on the datasets whose rows are all
    accepted, and then the dict holds the groups [group_of], one key per
    non-empty group. *)
Lemma group_samples_Ok (ds : list Sample) :
  forallb row_ok ds = true ->
  exists g,
    group_samples ds = Ok g /\
    NoDup (Dict.keys g) /\
    forall k, Dict.get key_eqb g k = merge None (group_of ds k).
Proof.
  intros Hall. destruct (group_loop_Ok ds [] Hall) as (g & E & Hnd & Hget).
  exists g. split; [exact E|]. split; [apply Hnd; constructor|exact Hget].
Qed.

(** ** The loop over the groups *)

Lemma is_nil_true {A : Type} (l : list A) : is_nil l = true <-> l = [].
Proof. destruct l; simpl; split; congruence. Qed.

Lemma is_nil_false {A : Type} (l : list A) : is_nil l = false <-> l <> [].
Proof. destruct l; simpl; split; congruence. Qed.

Lemma well_formed_true (l : list (bool * R)) :
  well_formed l = true <->
  correct_scores l <> [] /\ incorrect_scores l <> [].
Proof.
  unfold well_formed. rewrite andb_true_iff, !negb_true_iff, !is_nil_false.
  reflexivity.
Qed.

Lemma well_formed_false (l : list (bool * R)) :
  well_formed l = false <->
  correct_scores l = [] \/ incorrect_scores l = [].
Proof.
  unfold well_formed. rewrite andb_false_iff, !negb_false_iff, !is_nil_true.
  reflexivity.
Qed.

Lemma well_formed_stats (l : list (bool * R)) :
  well_formed l = true ->
  exists s, _compute_prompt_stats l = Ok s /\ stats_opt l = Some s.
Proof.
  intros H. apply well_formed_true in H as [Hc Hi].
  destruct (compute_prompt_stats_Ok l Hc Hi) as (bc & wc & bi & _ & _ & _ & E).
  eexists. unfold stats_opt. rewrite E. auto.
Qed.

Lemma stats_loop_Raise (g : groups) (st : stats_dict * stats_dict) :
  (exists k l, In (k, l) g /\ well_formed l = false) ->
  for_each add_stats g st = Raise ValueError.
Proof.
  revert st; induction g as [|[[t p] l0] g IH]; intros [r0 t0] (k & l & Hin & Hbad).
  - destruct Hin.
  - simpl. destruct (_compute_prompt_stats l0) as [s|e] eqn:E; simpl.
    + destruct Hin as [Hin|Hin].
      * injection Hin as <- <-. apply well_formed_false in Hbad.
        rewrite (compute_prompt_stats_Raise _ Hbad) in E. discriminate.
      * destruct (String.eqb t "ref"); simpl; apply IH; eauto.
    + apply compute_prompt_stats_exn in E. subst. reflexivity.
Qed.

Lemma stats_loop_Ok (g : groups) (r0 t0 : stats_dict) :
  NoDup (Dict.keys g) ->
  (forall k l, In (k, l) g ->
     (fst k = "ref"%string \/ fst k = "tied"%string) /\ well_formed l = true) ->
  exists r t,
    for_each add_stats g (r0, t0) = Ok (r, t) /\
    (NoDup (Dict.keys r0) -> NoDup (Dict.keys r)) /\
    (NoDup (Dict.keys t0) -> NoDup (Dict.keys t)) /\
    (forall p, Dict.get Z.eqb r p =
               match Dict.get key_eqb g ("ref"%string, p) with
               | Some l => stats_opt l
               | None => Dict.get Z.eqb r0 p
               end) /\
    (forall p, Dict.get Z.eqb t p =
               match Dict.get key_eqb g ("tied"%string, p) with
               | Some l => stats_opt l
               | None => Dict.get Z.eqb t0 p
               end).
Proof.
  revert r0 t0; induction g as [|[[ty p] l] g IH]; intros r0 t0 Hnd Hall.
  - exists r0, t0. simpl. auto.
  - inversion Hnd as [|? ? Hnotin Hnd']; subst.
    destruct (Hall (ty, p) l (or_introl eq_refl)) as [Hty Hwf].
    destruct (well_formed_stats l Hwf) as (s & Es & Eo).
    assert (Hall' : forall k l', In (k, l') g ->
              (fst k = "ref"%string \/ fst k = "tied"%string) /\
              well_formed l' = true) by (intros; apply Hall; right; auto).
    assert (Hnone : Dict.get key_eqb g (ty, p) = None)
      by (apply (get_None key_eqb_eq); exact Hnotin).
    simpl in Hty. simpl for_each. rewrite Es. simpl bind.
    destruct Hty as [-> | ->]; simpl String.eqb; cbv iota.
    + destruct (IH (Dict.set Z.eqb r0 p s) t0 Hnd' Hall')
        as (r & t & E & Hr & Ht & Gr & Gt).
      exists r, t. split; [exact E|]. split.
      { intros H. apply Hr. apply (NoDup_keys_set Z.eqb_eq). exact H. }
      split; [exact Ht|]. split.
      * intros q. rewrite Gr. simpl Dict.get. unfold key_eqb at 2. simpl.
        destruct (Z.eqb q p) eqn:Eq.
        -- apply Z.eqb_eq in Eq; subst q. rewrite Hnone.
           rewrite (get_set Z.eqb_eq), Z.eqb_refl. auto.
        -- destruct (Dict.get key_eqb g ("ref"%string, q)); [reflexivity|].
           rewrite (get_set Z.eqb_eq), Eq. reflexivity.
      * intros q. rewrite Gt. reflexivity.
    + destruct (IH r0 (Dict.set Z.eqb t0 p s) Hnd' Hall')
        as (r & t & E & Hr & Ht & Gr & Gt).
      exists r, t. split; [exact E|]. split; [exact Hr|]. split.
      { intros H. apply Ht. apply (NoDup_keys_set Z.eqb_eq). exact H. }
      split.
      * intros q. rewrite Gr. reflexivity.
      * intros q. rewrite Gt. simpl Dict.get. unfold key_eqb at 2. simpl.
        destruct (Z.eqb q p) eqn:Eq.
        -- apply Z.eqb_eq in Eq; subst q. rewrite Hnone.
           rewrite (get_set Z.eqb_eq), Z.eqb_refl. auto.
        -- destruct (Dict.get key_eqb g ("tied"%string, q)); [reflexivity|].
           rewrite (get_set Z.eqb_eq), Eq. reflexivity.
Qed.

(** ** Comprehensions and arrays *)

Lemma for_list_Ok {A B : Type} (f : A -> result B) (g : A -> B) (l : list A) :
  (forall a, In a l -> f a = Ok (g a)) -> for_list f l = Ok (map g l).
Proof.
  induction l as [|a l IH]; intros H; simpl; [reflexivity|].
  rewrite (H a (or_introl eq_refl)). simpl.
  rewrite IH by (intros; apply H; right; auto). reflexivity.
Qed.

Lemma for_list_Raise {A B : Type} (f : A -> result B) (l : list A) (e0 : exn) :
  (forall a e, In a l -> f a = Raise e -> e = e0) ->
  (exists a e, In a l /\ f a = Raise e) ->
  for_list f l = Raise e0.
Proof.
  induction l as [|a l IH]; intros Hexn (x & e & Hin & Hx); [destruct Hin|].
  simpl. destruct (f a) as [b|e'] eqn:E; simpl.
  - destruct Hin as [->|Hin]; [congruence|].
    rewrite IH; [reflexivity| |eauto].
    intros a' e1 Ha' Ea'. apply (Hexn a' e1); [right; exact Ha'|exact Ea'].
  - f_equal. apply (Hexn a e'); [left; reflexivity|exact E].
Qed.

Lemma elementwise_map {A B C P : Type} (f : A -> B -> result C)
  (a : P -> A) (b : P -> B) (ps : list P) :
  elementwise f (map a ps) (map b ps) = for_list (fun p => f (a p) (b p)) ps.
Proof.
  induction ps as [|p ps IH]; simpl; [reflexivity|]. rewrite IH. reflexivity.
Qed.

Lemma minimum_map {P : Type} (a b : P -> R) (ps : list P) :
  minimum (map a ps) (map b ps) = map (fun p => Rmin (a p) (b p)) ps.
Proof.
  induction ps as [|p ps IH]; simpl; [reflexivity|]. rewrite IH. reflexivity.
Qed.

Lemma sum_Permutation (l l' : list R) : Permutation l l' -> sum l = sum l'.
Proof.
  induction 1; simpl; lra.
Qed.

Lemma mean_Permutation (l l' : list R) : Permutation l l' -> mean l = mean l'.
Proof.
  intros H. unfold mean.
  destruct l as [|x l], l' as [|x' l'].
  - reflexivity.
  - apply Permutation_nil in H. discriminate.
  - apply Permutation_sym, Permutation_nil in H. discriminate.
  - rewrite (sum_Permutation H), (Permutation_length H). reflexivity.
Qed.

Lemma mean_bool_Permutation (l l' : list bool) :
  Permutation l l' -> mean_bool l = mean_bool l'.
Proof.
  intros H. apply mean_Permutation, Permutation_map, H.
Qed.

Lemma accuracy_Permutation (d d' : stats_dict) :
  Permutation d d' -> accuracy d = accuracy d'.
Proof.
  intros H. unfold accuracy.
  destruct d as [|x d], d' as [|x' d'].
  - reflexivity.
  - apply Permutation_nil in H. discriminate.
  - apply Permutation_sym, Permutation_nil in H. discriminate.
  - apply mean_bool_Permutation.
    unfold Dict.values. apply Permutation_map, Permutation_map, H.
Qed.

(** ** The global metrics *)

Lemma getitem_stat (d : stats_dict) (p : Z) :
  Dict.mem Z.eqb d p = true -> getitem d p = Ok (stat d p).
Proof.
  unfold Dict.mem, getitem, stat. destruct (Dict.get Z.eqb d p); congruence.
Qed.

(** Over prompts that both dicts hold and whose tied group has a spread, the
    metrics are the means of the per-prompt terms. *)
Lemma metrics_over_Ok (r t : stats_dict) (ps : list Z) :
  (forall p, In p ps ->
     Dict.mem Z.eqb r p = true /\ Dict.mem Z.eqb t p = true /\
     different_correct_margin (stat t p) <> None) ->
  metrics_over r t ps =
  Ok (mkMetrics (accuracy r) (accuracy t)
        (mean_bool (map (preferred_at t) ps))
        (mean_bool (map (hard_at r t) ps))
        (map (margin_at r t) ps)
        (mean (map (margin_at r t) ps))
        (weighted (accuracy t) (accuracy r)
           (mean_bool (map (preferred_at t) ps))
           (mean_bool (map (hard_at r t) ps))
           (mean (map (margin_at r t) ps)))).
Proof.
  intros H. unfold metrics_over.
  rewrite (for_list_Ok _ (fun p => different_correct_margin (stat t p)))
    by (intros p Hp; destruct (H p Hp) as (_ & Ht & _);
        rewrite (getitem_stat _ _ Ht); reflexivity).
  simpl bind.
  rewrite (for_list_Ok _ (fun p => correct_incorrect_margin (stat t p)))
    by (intros p Hp; destruct (H p Hp) as (_ & Ht & _);
        rewrite (getitem_stat _ _ Ht); reflexivity).
  simpl bind.
  rewrite (for_list_Ok _ (fun p => correct_incorrect_margin (stat r p)))
    by (intros p Hp; destruct (H p Hp) as (Hr & _ & _);
        rewrite (getitem_stat _ _ Hr); reflexivity).
  simpl bind.
  rewrite minimum_map, !elementwise_map.
  rewrite (for_list_Ok _ (preferred_at t)).
  2:{ intros p Hp; destruct (H p Hp) as (_ & _ & Hd).
      unfold preferred_at, spread.
      destruct (different_correct_margin (stat t p)); [reflexivity|congruence]. }
  simpl bind.
  rewrite (for_list_Ok _ (hard_at r t)).
  2:{ intros p Hp; destruct (H p Hp) as (_ & _ & Hd).
      unfold hard_at, min_margin, spread.
      destruct (different_correct_margin (stat t p)); [reflexivity|congruence]. }
  simpl bind.
  rewrite (for_list_Ok _
             (fun p => sub (div (Fin (min_margin r t p)) (Fin (spread t p)))
                           (Fin 1))).
  2:{ intros p Hp; destruct (H p Hp) as (_ & _ & Hd).
      unfold min_margin, spread.
      destruct (different_correct_margin (stat t p)); [reflexivity|congruence]. }
  simpl bind. rewrite map_map. reflexivity.
Qed.

(** As soon as one common prompt has a tied group without a spread (a single
    correct answer), the first comparison raises [TypeError]. *)
Lemma metrics_over_Raise (r t : stats_dict) (ps : list Z) :
  (forall p, In p ps ->
     Dict.mem Z.eqb r p = true /\ Dict.mem Z.eqb t p = true) ->
  (exists p, In p ps /\ different_correct_margin (stat t p) = None) ->
  metrics_over r t ps = Raise TypeError.
Proof.
  intros H (p0 & Hp0 & Hnone). unfold metrics_over.
  rewrite (for_list_Ok _ (fun p => different_correct_margin (stat t p)))
    by (intros p Hp; destruct (H p Hp) as (_ & Ht);
        rewrite (getitem_stat _ _ Ht); reflexivity).
  simpl bind.
  rewrite (for_list_Ok _ (fun p => correct_incorrect_margin (stat t p)))
    by (intros p Hp; destruct (H p Hp) as (_ & Ht);
        rewrite (getitem_stat _ _ Ht); reflexivity).
  simpl bind.
  rewrite (for_list_Ok _ (fun p => correct_incorrect_margin (stat r p)))
    by (intros p Hp; destruct (H p Hp) as (Hr & _);
        rewrite (getitem_stat _ _ Hr); reflexivity).
  simpl bind.
  rewrite elementwise_map.
  rewrite (for_list_Raise _ ps (e0 := TypeError)); [reflexivity| |].
  - intros a e _. unfold gt_margin.
    destruct (different_correct_margin (stat t a)); congruence.
  - exists p0, TypeError. split; [exact Hp0|]. rewrite Hnone. reflexivity.
Qed.

Lemma common_prompts_In (r t : stats_dict) (p : Z) :
  In p (common_prompts r t) <->
  Dict.mem Z.eqb r p = true /\ Dict.mem Z.eqb t p = true.
Proof.
  unfold common_prompts. rewrite filter_In. split.
  - intros [Hin Ht]. split; [|exact Ht].
    unfold Dict.mem. destruct (Dict.get Z.eqb r p) eqn:E; [reflexivity|].
    apply (get_None Z.eqb_eq) in E. contradiction.
  - intros [Hr Ht]. split; [|exact Ht].
    unfold Dict.mem in Hr. destruct (Dict.get Z.eqb r p) eqn:E; [|discriminate].
    apply (get_Some_In Z.eqb_eq) in E.
    change p with (fst (p, p0)). apply in_map. exact E.
Qed.

(** ** Groups of a dataset *)

Lemma group_of_nonempty (ds : list Sample) (k : key) :
  group_of ds k <> [] -> exists s, In s ds /\ parse_id (id s) = Ok k.
Proof.
  induction ds as [|s ds IH]; simpl; [congruence|].
  intros H. destruct (parse_id (id s)) as [k'|e] eqn:Hk.
  - destruct (key_eqb k k') eqn:E.
    + apply key_eqb_eq in E; subst k'. exists s; auto.
    + destruct (IH H) as (s' & Hin & Hs'). exists s'; auto.
  - destruct (IH H) as (s' & Hin & Hs'). exists s'; auto.
Qed.

Lemma groups_ok_iff (ds : list Sample) :
  groups_ok ds = true <->
  forall k, group_of ds k <> [] -> well_formed (group_of ds k) = true.
Proof.
  unfold groups_ok. rewrite forallb_forall. split.
  - intros H k Hne. destruct (group_of_nonempty ds k Hne) as (s & Hin & Hs).
    specialize (H s Hin). rewrite Hs in H.
    apply orb_true_iff in H as [H|H]; [|exact H].
    apply is_nil_true in H. contradiction.
  - intros H s Hin. destruct (parse_id (id s)) as [k|e]; [|reflexivity].
    destruct (group_of ds k) as [|x l] eqn:E; [reflexivity|].
    simpl. rewrite <- E. apply H. rewrite E. discriminate.
Qed.

Lemma ties_ok_iff (ds : list Sample) :
  ties_ok ds = true <-> forall p, tie_ok ds p = true.
Proof.
  unfold ties_ok. rewrite forallb_forall. split.
  - intros H p. unfold tie_ok.
    destruct (group_of ds ("ref"%string, p)) as [|x l] eqn:E; [reflexivity|].
    assert (Hne : group_of ds ("ref"%string, p) <> []) by (rewrite E; discriminate).
    destruct (group_of_nonempty ds _ Hne) as (s & Hin & Hs).
    specialize (H s Hin). rewrite Hs in H. simpl in H.
    unfold tie_ok in H. rewrite E in H. exact H.
  - intros H s Hin. destruct (parse_id (id s)); auto.
Qed.

(** ** Invariance under permutation *)

Lemma filter_Permutation {A : Type} (f : A -> bool) (l l' : list A) :
  Permutation l l' -> Permutation (filter f l) (filter f l').
Proof.
  induction 1; simpl.
  - constructor.
  - destruct (f x); [constructor|]; assumption.
  - destruct (f x), (f y); try constructor; apply Permutation_refl.
  - eapply Permutation_trans; eassumption.
Qed.

Lemma flat_map_Permutation {A B : Type} (f : A -> list B) (l l' : list A) :
  Permutation l l' -> Permutation (flat_map f l) (flat_map f l').
Proof.
  induction 1; simpl.
  - constructor.
  - apply Permutation_app_head. assumption.
  - rewrite !app_assoc. apply Permutation_app_tail, Permutation_app_comm.
  - eapply Permutation_trans; eassumption.
Qed.

Lemma forallb_Permutation {A : Type} (f : A -> bool) (l l' : list A) :
  Permutation l l' -> forallb f l = forallb f l'.
Proof.
  induction 1; simpl; try congruence.
  destruct (f x), (f y); reflexivity.
Qed.

Lemma group_of_Permutation (ds ds' : list Sample) (k : key) :
  Permutation ds ds' -> Permutation (group_of ds k) (group_of ds' k).
Proof. apply flat_map_Permutation. Qed.

Lemma correct_scores_Permutation (l l' : list (bool * R)) :
  Permutation l l' -> Permutation (correct_scores l) (correct_scores l').
Proof. intros H. apply Permutation_map, filter_Permutation, H. Qed.

Lemma incorrect_scores_Permutation (l l' : list (bool * R)) :
  Permutation l l' -> Permutation (incorrect_scores l) (incorrect_scores l').
Proof. intros H. apply Permutation_map, filter_Permutation, H. Qed.

Lemma Permutation_nil_iff {A : Type} (l l' : list A) :
  Permutation l l' -> (l = [] <-> l' = []).
Proof.
  intros H. split; intros ->.
  - apply Permutation_nil. exact H.
  - apply Permutation_nil. apply Permutation_sym. exact H.
Qed.

Lemma is_nil_Permutation {A : Type} (l l' : list A) :
  Permutation l l' -> is_nil l = is_nil l'.
Proof.
  intros H. destruct l, l'; try reflexivity.
  - apply Permutation_nil in H. discriminate.
  - apply Permutation_sym, Permutation_nil in H. discriminate.
Qed.

Lemma py_max_Permutation (l l' : list R) :
  Permutation l l' -> py_max l = py_max l'.
Proof.
  intros H. destruct l as [|x l].
  - apply Permutation_nil in H. subst. reflexivity.
  - assert (Hl' : l' <> [])
      by (intros ->; apply Permutation_sym, Permutation_nil in H; discriminate).
    destruct (py_max_is_max (l:=x :: l)) as (m & E & Hm); [discriminate|].
    destruct (py_max_is_max Hl') as (m' & E' & Hm').
    rewrite E, E'. f_equal. apply (is_max_unique Hm).
    destruct Hm' as [Hin Hall]. split.
    + apply (Permutation_in _ (Permutation_sym H)). exact Hin.
    + intros y Hy. apply Hall. apply (Permutation_in _ H). exact Hy.
Qed.

Lemma py_min_Permutation (l l' : list R) :
  Permutation l l' -> py_min l = py_min l'.
Proof.
  intros H. destruct l as [|x l].
  - apply Permutation_nil in H. subst. reflexivity.
  - assert (Hl' : l' <> [])
      by (intros ->; apply Permutation_sym, Permutation_nil in H; discriminate).
    destruct (py_min_is_min (l:=x :: l)) as (m & E & Hm); [discriminate|].
    destruct (py_min_is_min Hl') as (m' & E' & Hm').
    rewrite E, E'. f_equal. apply (is_min_unique Hm).
    destruct Hm' as [Hin Hall]. split.
    + apply (Permutation_in _ (Permutation_sym H)). exact Hin.
    + intros y Hy. apply Hall. apply (Permutation_in _ H). exact Hy.
Qed.

(** The statistics of a group do not depend on the order of its pairs. *)
Lemma compute_prompt_stats_Permutation (l l' : list (bool * R)) :
  Permutation l l' -> _compute_prompt_stats l = _compute_prompt_stats l'.
Proof.
  intros H. unfold _compute_prompt_stats.
  rewrite (py_max_Permutation (correct_scores_Permutation H)).
  rewrite (py_min_Permutation (correct_scores_Permutation H)).
  rewrite (py_max_Permutation (incorrect_scores_Permutation H)).
  rewrite (Permutation_length (correct_scores_Permutation H)).
  reflexivity.
Qed.

Lemma well_formed_Permutation (l l' : list (bool * R)) :
  Permutation l l' -> well_formed l = well_formed l'.
Proof.
  intros H. unfold well_formed.
  rewrite (is_nil_Permutation (correct_scores_Permutation H)).
  rewrite (is_nil_Permutation (incorrect_scores_Permutation H)).
  reflexivity.
Qed.

Lemma stats_at_Permutation (ds ds' : list Sample) (t : string) (p : Z) :
  Permutation ds ds' -> stats_at ds t p = stats_at ds' t p.
Proof.
  intros H. unfold stats_at.
  pose proof (group_of_Permutation (t, p) H) as Hg.
  destruct (group_of ds (t, p)) as [|x l] eqn:E,
           (group_of ds' (t, p)) as [|x' l'] eqn:E'.
  - reflexivity.
  - apply Permutation_nil in Hg. discriminate.
  - apply Permutation_sym, Permutation_nil in Hg. discriminate.
  - unfold stats_opt. rewrite (compute_prompt_stats_Permutation Hg).
    reflexivity.
Qed.

Lemma bool_eq_iff (a b : bool) : (a = true <-> b = true) -> a = b.
Proof. destruct a, b; intros [H1 H2]; auto; symmetry; auto. Qed.

Lemma groups_ok_Permutation (ds ds' : list Sample) :
  Permutation ds ds' -> groups_ok ds = groups_ok ds'.
Proof.
  intros H. apply bool_eq_iff. rewrite !groups_ok_iff.
  split; intros Hall k Hne.
  - rewrite <- (well_formed_Permutation (group_of_Permutation k H)).
    apply Hall. intros E. apply Hne.
    apply (Permutation_nil_iff (group_of_Permutation k H)). exact E.
  - rewrite (well_formed_Permutation (group_of_Permutation k H)).
    apply Hall. intros E. apply Hne.
    apply (Permutation_nil_iff (group_of_Permutation k H)). exact E.
Qed.

Lemma tie_ok_Permutation (ds ds' : list Sample) (p : Z) :
  Permutation ds ds' -> tie_ok ds p = tie_ok ds' p.
Proof.
  intros H. unfold tie_ok.
  rewrite (is_nil_Permutation (group_of_Permutation ("ref"%string, p) H)).
  rewrite (is_nil_Permutation (group_of_Permutation ("tied"%string, p) H)).
  rewrite (Permutation_length
             (correct_scores_Permutation
                (group_of_Permutation ("tied"%string, p) H))).
  reflexivity.
Qed.

Lemma ties_ok_Permutation (ds ds' : list Sample) :
  Permutation ds ds' -> ties_ok ds = ties_ok ds'.
Proof.
  intros H. apply bool_eq_iff. rewrite !ties_ok_iff.
  split; intros Hall p.
  - rewrite <- (tie_ok_Permutation p H). apply Hall.
  - rewrite (tie_ok_Permutation p H). apply Hall.
Qed.

(** ** The three stages on a dataset *)

Lemma forallb_false_exists {A : Type} (f : A -> bool) (l : list A) :
  forallb f l = false -> exists x, In x l /\ f x = false.
Proof.
  induction l as [|a l IH]; simpl; [discriminate|].
  destruct (f a) eqn:E; simpl.
  - intros H. destruct (IH H) as (x & Hin & Hx). exists x; auto.
  - intros _. exists a; auto.
Qed.

Lemma score_details_rows_bad (ds : list Sample) :
  rows_ok ds = false ->
  exists e, score_details ds = Raise e /\
            (e = ValueError \/ e = IndexError) /\
            (forallb (fun s => forallb readable (scores s)) ds = true ->
             e = ValueError).
Proof.
  intros H. destruct (group_loop_Raise ds [] H) as (e & E & He).
  exists e. unfold score_details, group_samples. rewrite E. auto.
Qed.

Lemma merge_None_Some {A : Type} (l l' : list A) :
  merge None l = Some l' <-> l = l' /\ l <> [].
Proof.
  destruct l as [|x l]; simpl; split.
  - discriminate.
  - intros [_ H]; congruence.
  - intros [= <-]. split; [reflexivity|discriminate].
  - intros [<- _]. reflexivity.
Qed.

Lemma score_details_groups_bad (ds : list Sample) :
  rows_ok ds = true -> groups_ok ds = false ->
  score_details ds = Raise ValueError.
Proof.
  intros Hrows Hbad.
  destruct (group_samples_Ok ds Hrows) as (g & E & Hnd & Hget).
  unfold score_details. rewrite E. simpl.
  apply forallb_false_exists in Hbad as (s & Hin & Hs).
  destruct (parse_id (id s)) as [k|e]; [|discriminate].
  apply orb_false_iff in Hs as [Hnil Hwf]. apply is_nil_false in Hnil.
  unfold prompt_stats. rewrite (stats_loop_Raise g); [reflexivity|].
  exists k, (group_of ds k). split; [|exact Hwf].
  apply (get_Some_In key_eqb_eq). rewrite Hget.
  apply merge_None_Some. auto.
Qed.

Lemma typed_key (ds : list Sample) (k : key) :
  all_typed ds = true -> group_of ds k <> [] ->
  fst k = "ref"%string \/ fst k = "tied"%string.
Proof.
  intros Hty Hne. destruct (group_of_nonempty ds k Hne) as (s & Hin & Hs).
  unfold all_typed in Hty. rewrite forallb_forall in Hty.
  specialize (Hty s Hin). unfold typed in Hty. rewrite Hs in Hty.
  destruct k as [t p]. simpl.
  apply orb_true_iff in Hty as [H|H]; apply String.eqb_eq in H; auto.
Qed.

(** On a dataset whose rows are accepted and typed and whose groups are well
    formed, the two dicts hold the statistics of the groups, and the score
    is that of [metrics] on them. *)
Lemma score_details_metrics (ds : list Sample) :
  rows_ok ds = true -> all_typed ds = true -> groups_ok ds = true ->
  exists r t,
    NoDup (Dict.keys r) /\ NoDup (Dict.keys t) /\
    (forall p, Dict.get Z.eqb r p = stats_at ds "ref" p) /\
    (forall p, Dict.get Z.eqb t p = stats_at ds "tied" p) /\
    score_details ds = metrics r t.
Proof.
  intros Hrows Hty Hgr.
  destruct (group_samples_Ok ds Hrows) as (g & E & Hnd & Hget).
  destruct (stats_loop_Ok g [] [] Hnd) as (r & t & Es & Hr & Ht & Gr & Gt).
  { intros k l Hin. apply (In_get_Some key_eqb_eq) in Hin; [|exact Hnd].
    rewrite Hget in Hin. apply merge_None_Some in Hin as [<- Hne]. split.
    - apply (typed_key ds k Hty Hne).
    - apply groups_ok_iff; assumption. }
  exists r, t. split; [apply Hr; constructor|].
  split; [apply Ht; constructor|]. split; [|split].
  - intros p. rewrite Gr, Hget. unfold stats_at.
    destruct (group_of ds ("ref"%string, p)); reflexivity.
  - intros p. rewrite Gt, Hget. unfold stats_at.
    destruct (group_of ds ("tied"%string, p)); reflexivity.
  - unfold score_details, prompt_stats. rewrite E. cbn [bind].
    unfold stats_dict, Dict.dict in *. rewrite Es. reflexivity.
Qed.

Lemma stats_at_Some (ds : list Sample) (t : string) (p : Z) :
  groups_ok ds = true -> group_of ds (t, p) <> [] ->
  exists s, stats_at ds t p = Some s /\
            _compute_prompt_stats (group_of ds (t, p)) = Ok s.
Proof.
  intros Hgr Hne. rewrite groups_ok_iff in Hgr.
  destruct (well_formed_stats _ (Hgr _ Hne)) as (s & Es & Eo).
  exists s. split; [|exact Es]. unfold stats_at.
  destruct (group_of ds (t, p)); [congruence|exact Eo].
Qed.

Lemma stats_at_None (ds : list Sample) (t : string) (p : Z) :
  group_of ds (t, p) = [] -> stats_at ds t p = None.
Proof. unfold stats_at. intros ->. reflexivity. Qed.

Lemma mem_stats_at (ds : list Sample) (d : stats_dict) (t : string) (p : Z) :
  groups_ok ds = true ->
  (forall q, Dict.get Z.eqb d q = stats_at ds t q) ->
  Dict.mem Z.eqb d p = negb (is_nil (group_of ds (t, p))).
Proof.
  intros Hgr Hget. unfold Dict.mem. rewrite Hget.
  destruct (group_of ds (t, p)) as [|x l] eqn:E.
  - rewrite (stats_at_None _ _ _ E). reflexivity.
  - destruct (stats_at_Some ds t p Hgr) as (s & Es & _);
      [rewrite E; discriminate|].
    rewrite Es. reflexivity.
Qed.

Lemma spread_defined (l : list (bool * R)) (s : PromptStats) :
  _compute_prompt_stats l = Ok s ->
  (different_correct_margin s = None <->
   (List.length (correct_scores l) < 2)%nat).
Proof.
  intros E.
  destruct (well_formed l) eqn:Hwf.
  - apply well_formed_true in Hwf as [Hc Hi].
    destruct (compute_prompt_stats_Ok l Hc Hi)
      as (bc & wc & bi & _ & _ & _ & E').
    rewrite E' in E. injection E as <-. simpl.
    destruct (1 <? List.length (correct_scores l))%nat eqn:El.
    + apply Nat.ltb_lt in El. split; [discriminate|lia].
    + apply Nat.ltb_ge in El. split; [lia|reflexivity].
  - apply well_formed_false in Hwf.
    rewrite (compute_prompt_stats_Raise _ Hwf) in E. discriminate.
Qed.

Section Metrics.

Variables (ds : list Sample) (r t : stats_dict).
Hypothesis Hgr : groups_ok ds = true.
Hypothesis Gr : forall p, Dict.get Z.eqb r p = stats_at ds "ref" p.
Hypothesis Gt : forall p, Dict.get Z.eqb t p = stats_at ds "tied" p.

Lemma common_prompts_paired (p : Z) :
  In p (common_prompts r t) <-> paired ds p = true.
Proof.
  rewrite common_prompts_In. unfold paired.
  rewrite (mem_stats_at ds r "ref" p Hgr Gr).
  rewrite (mem_stats_at ds t "tied" p Hgr Gt).
  rewrite andb_true_iff. reflexivity.
Qed.

Lemma spread_of_paired (p : Z) :
  paired ds p = true ->
  (different_correct_margin (stat t p) = None <-> tie_ok ds p = false).
Proof.
  unfold paired, tie_ok. rewrite andb_true_iff, !negb_true_iff.
  intros [Hr Ht]. rewrite Hr, Ht. cbn [orb].
  apply is_nil_false in Ht.
  destruct (stats_at_Some ds "tied" p Hgr Ht) as (s & Es & Ec).
  unfold stat. rewrite Gt, Es. rewrite (spread_defined _ Ec).
  rewrite Nat.leb_gt. reflexivity.
Qed.

Lemma metrics_ties_ok :
  ties_ok ds = true ->
  metrics r t =
  Ok (mkMetrics (accuracy r) (accuracy t)
        (mean_bool (map (preferred_at t) (common_prompts r t)))
        (mean_bool (map (hard_at r t) (common_prompts r t)))
        (map (margin_at r t) (common_prompts r t))
        (mean (map (margin_at r t) (common_prompts r t)))
        (weighted (accuracy t) (accuracy r)
           (mean_bool (map (preferred_at t) (common_prompts r t)))
           (mean_bool (map (hard_at r t) (common_prompts r t)))
           (mean (map (margin_at r t) (common_prompts r t))))).
Proof.
  intros Hties. rewrite ties_ok_iff in Hties.
  unfold metrics. apply metrics_over_Ok.
  intros p Hp. pose proof Hp as Hc. apply common_prompts_In in Hc as [Hr Ht].
  split; [exact Hr|]. split; [exact Ht|].
  apply common_prompts_paired in Hp.
  intros Hnone. apply (spread_of_paired p Hp) in Hnone.
  rewrite Hties in Hnone. discriminate.
Qed.

Lemma metrics_ties_bad :
  ties_ok ds = false -> metrics r t = Raise TypeError.
Proof.
  intros Hties. unfold metrics. apply metrics_over_Raise.
  - intros p Hp. apply common_prompts_In. exact Hp.
  - unfold ties_ok in Hties.
    apply forallb_false_exists in Hties as (s & Hin & Hs).
    destruct (parse_id (id s)) as [[ty p]|e]; [|discriminate].
    simpl in Hs. exists p.
    assert (Hp : paired ds p = true).
    { unfold paired. unfold tie_ok in Hs.
      apply orb_false_iff in Hs as [Hs _].
      apply orb_false_iff in Hs as [H1 H2]. rewrite H1, H2. reflexivity. }
    split; [apply common_prompts_paired; exact Hp|].
    apply (spread_of_paired p Hp). exact Hs.
Qed.

End Metrics.

(** ** Independence of the order of the dicts and of the common prompts *)

Section SameContent.

Variables r t r' t' : stats_dict.
Hypothesis Hr : NoDup (Dict.keys r).
Hypothesis Ht : NoDup (Dict.keys t).
Hypothesis Hr' : NoDup (Dict.keys r').
Hypothesis Ht' : NoDup (Dict.keys t').
Hypothesis Gr : forall p, Dict.get Z.eqb r p = Dict.get Z.eqb r' p.
Hypothesis Gt : forall p, Dict.get Z.eqb t p = Dict.get Z.eqb t' p.

Lemma stat_same_r (p : Z) : stat r' p = stat r p.
Proof. unfold stat. rewrite Gr. reflexivity. Qed.

Lemma stat_same_t (p : Z) : stat t' p = stat t p.
Proof. unfold stat. rewrite Gt. reflexivity. Qed.

Lemma common_prompts_same :
  Permutation (common_prompts r' t') (common_prompts r t).
Proof.
  apply NoDup_Permutation.
  - apply NoDup_filter. exact Hr'.
  - apply NoDup_filter. exact Hr.
  - intros p. rewrite !common_prompts_In. unfold Dict.mem.
    rewrite Gr, Gt. reflexivity.
Qed.

Lemma metrics_over_same (ps' : list Z) :
  Permutation ps' (common_prompts r t) ->
  overall_opt (metrics_over r' t' ps') = overall_opt (metrics r t).
Proof.
  intros Hps.
  assert (Hmem : forall p, In p ps' ->
            Dict.mem Z.eqb r' p = true /\ Dict.mem Z.eqb t' p = true).
  { intros p Hp. apply (Permutation_in _ Hps) in Hp.
    apply common_prompts_In in Hp. unfold Dict.mem in *.
    rewrite <- Gr, <- Gt. exact Hp. }
  destruct (spreads_defined t (common_prompts r t)) eqn:Hdef.
  - unfold spreads_defined in Hdef. rewrite forallb_forall in Hdef.
    rewrite metrics_over_Ok.
    2:{ intros p Hp. destruct (Hmem p Hp) as [H1 H2].
        split; [exact H1|]. split; [exact H2|].
        rewrite stat_same_t. apply (Permutation_in _ Hps) in Hp.
        specialize (Hdef p Hp).
        destruct (different_correct_margin (stat t p)); congruence. }
    unfold metrics. rewrite metrics_over_Ok.
    2:{ intros p Hp. pose proof Hp as Hc.
        apply common_prompts_In in Hc as [H1 H2].
        split; [exact H1|]. split; [exact H2|].
        specialize (Hdef p Hp).
        destruct (different_correct_margin (stat t p)); congruence. }
    simpl. f_equal.
    assert (E1 : forall p, preferred_at t' p = preferred_at t p)
      by (intros p; unfold preferred_at, spread; rewrite stat_same_t;
          reflexivity).
    assert (E2 : forall p, hard_at r' t' p = hard_at r t p)
      by (intros p; unfold hard_at, min_margin, spread;
          rewrite stat_same_t, stat_same_r; reflexivity).
    assert (E3 : forall p, margin_at r' t' p = margin_at r t p)
      by (intros p; unfold margin_at, min_margin, spread;
          rewrite stat_same_t, stat_same_r; reflexivity).
    rewrite (map_ext _ _ E1), (map_ext _ _ E2), (map_ext _ _ E3).
    rewrite (accuracy_Permutation (same_get_Permutation Z.eqb_eq t' t Ht' Ht
               (fun p => eq_sym (Gt p)))).
    rewrite (accuracy_Permutation (same_get_Permutation Z.eqb_eq r' r Hr' Hr
               (fun p => eq_sym (Gr p)))).
    rewrite (mean_bool_Permutation (Permutation_map (preferred_at t) Hps)).
    rewrite (mean_bool_Permutation (Permutation_map (hard_at r t) Hps)).
    rewrite (mean_Permutation (Permutation_map (margin_at r t) Hps)).
    reflexivity.
  - unfold spreads_defined in Hdef.
    apply forallb_false_exists in Hdef as (p & Hp & Hnone).
    assert (Hn : different_correct_margin (stat t p) = None)
      by (destruct (different_correct_margin (stat t p)); congruence).
    rewrite metrics_over_Raise.
    + unfold metrics. rewrite metrics_over_Raise; [reflexivity| |].
      * intros q Hq. apply common_prompts_In. exact Hq.
      * exists p; auto.
    + exact Hmem.
    + exists p. split.
      * apply (Permutation_in _ (Permutation_sym Hps)). exact Hp.
      * rewrite stat_same_t. exact Hn.
Qed.

End SameContent.

(** C5 (amended). The overall score does not change when the rows of the
    dataset are permuted, provided every row carries one of the sample
    types "ref" and "tied" of the data model (without that the order of the
    rows can matter, see [C5_counterexample]), and it depends neither on
    the insertion order of the two
    per-prompt dicts nor on the order in which the set of common prompts is
    iterated.  A run that raises has no score, and it raises on the
    permuted dataset as well. *)
Theorem C5_permutation_invariance :
  (forall ds ds' : list Sample,
     all_typed ds = true -> Permutation ds ds' ->
     overall_of ds' = overall_of ds) /\
  (forall (r t r' t' : stats_dict) (ps' : list Z),
     NoDup (Dict.keys r) -> NoDup (Dict.keys t) ->
     NoDup (Dict.keys r') -> NoDup (Dict.keys t') ->
     (forall p, Dict.get Z.eqb r p = Dict.get Z.eqb r' p) ->
     (forall p, Dict.get Z.eqb t p = Dict.get Z.eqb t' p) ->
     Permutation ps' (common_prompts r t) ->
     overall_opt (metrics_over r' t' ps') = overall_opt (metrics r t)).
Proof.
  split.
  - intros ds ds' Hty Hperm.
    assert (Hty' : all_typed ds' = true)
      by (unfold all_typed; rewrite <- (forallb_Permutation typed Hperm);
          exact Hty).
    unfold overall_of.
    destruct (rows_ok ds) eqn:Hrows.
    + assert (Hrows' : rows_ok ds' = true)
        by (unfold rows_ok; rewrite <- (forallb_Permutation row_ok Hperm);
            exact Hrows).
      destruct (groups_ok ds) eqn:Hgr.
      * assert (Hgr' : groups_ok ds' = true)
          by (rewrite <- (groups_ok_Permutation Hperm); exact Hgr).
        destruct (score_details_metrics ds Hrows Hty Hgr)
          as (r & t & Hr & Ht & Gr & Gt & E).
        destruct (score_details_metrics ds' Hrows' Hty' Hgr')
          as (r' & t' & Hr' & Ht' & Gr' & Gt' & E').
        rewrite E, E'.
        assert (Sr : forall p, Dict.get Z.eqb r p = Dict.get Z.eqb r' p)
          by (intros p; rewrite Gr, Gr'; apply stats_at_Permutation, Hperm).
        assert (St : forall p, Dict.get Z.eqb t p = Dict.get Z.eqb t' p)
          by (intros p; rewrite Gt, Gt'; apply stats_at_Permutation, Hperm).
        apply (@metrics_over_same r t r' t' Hr Ht Hr' Ht' Sr St).
        apply (@common_prompts_same r t r' t' Hr Hr' Sr St).
      * assert (Hgr' : groups_ok ds' = false)
          by (rewrite <- (groups_ok_Permutation Hperm); exact Hgr).
        rewrite (score_details_groups_bad ds Hrows Hgr).
        rewrite (score_details_groups_bad ds' Hrows' Hgr').
        reflexivity.
    + assert (Hrows' : rows_ok ds' = false)
        by (unfold rows_ok; rewrite <- (forallb_Permutation row_ok Hperm);
            exact Hrows).
      destruct (score_details_rows_bad ds Hrows) as (e & E & _).
      destruct (score_details_rows_bad ds' Hrows') as (e' & E' & _).
      rewrite E, E'. reflexivity.
  - intros r t r' t' ps' Hr Ht Hr' Ht' Sr St Hps.
    apply (@metrics_over_same r t r' t' Hr Ht Hr' Ht' Sr St ps' Hps).
Qed.

Lemma C5_permutation_invariance_witness :
  overall_of (rev example_rows) = overall_of example_rows /\
  overall_opt
    (metrics_over [(1%Z, mkStats true None 3); (0%Z, mkStats true None 3)]
                  [(0%Z, mkStats true (Some 1) 2); (1%Z, mkStats false (Some 2) 0)]
                  [1%Z; 0%Z]) =
  overall_opt
    (metrics [(0%Z, mkStats true None 3); (1%Z, mkStats true None 3)]
             [(1%Z, mkStats false (Some 2) 0); (0%Z, mkStats true (Some 1) 2)]).
Proof.
  split.
  - apply (proj1 C5_permutation_invariance example_rows (rev example_rows)).
    + reflexivity.
    + apply Permutation_rev.
  - apply (proj2 C5_permutation_invariance).
    + repeat constructor; simpl; intuition discriminate.
    + repeat constructor; simpl; intuition discriminate.
    + repeat constructor; simpl; intuition discriminate.
    + repeat constructor; simpl; intuition discriminate.
    + intros p. simpl.
      destruct (Z.eqb_spec p 0), (Z.eqb_spec p 1); try reflexivity; lia.
    + intros p. simpl.
      destruct (Z.eqb_spec p 0), (Z.eqb_spec p 1); try reflexivity; lia.
    + apply perm_swap.
Defined.

(** ** Valid datasets are scored *)

Lemma valid_dataset_scored (ds : list Sample) :
  valid_dataset ds = true ->
  exists r t,
    (forall p, Dict.get Z.eqb r p = stats_at ds "ref" p) /\
    (forall p, Dict.get Z.eqb t p = stats_at ds "tied" p) /\
    (forall p, In p (common_prompts r t) <-> paired ds p = true) /\
    score_details ds =
    Ok (mkMetrics (accuracy r) (accuracy t)
          (mean_bool (map (preferred_at t) (common_prompts r t)))
          (mean_bool (map (hard_at r t) (common_prompts r t)))
          (map (margin_at r t) (common_prompts r t))
          (mean (map (margin_at r t) (common_prompts r t)))
          (weighted (accuracy t) (accuracy r)
             (mean_bool (map (preferred_at t) (common_prompts r t)))
             (mean_bool (map (hard_at r t) (common_prompts r t)))
             (mean (map (margin_at r t) (common_prompts r t))))).
Proof.
  unfold valid_dataset. rewrite !andb_true_iff.
  intros [[[Hrows Hty] Hgr] Hties].
  destruct (score_details_metrics ds Hrows Hty Hgr)
    as (r & t & Hr & Ht & Gr & Gt & E).
  exists r, t. split; [exact Gr|]. split; [exact Gt|]. split.
  - intros p. apply (common_prompts_paired ds r t Hgr Gr Gt).
  - rewrite E. apply (metrics_ties_ok ds r t Hgr Gr Gt Hties).
Qed.

(** ** Packaging the result *)

Lemma get_app {V : Type} (l1 l2 : Dict.dict string V) (k : string) :
  Dict.get String.eqb (l1 ++ l2) k =
  match Dict.get String.eqb l1 k with
  | Some v => Some v
  | None => Dict.get String.eqb l2 k
  end.
Proof.
  induction l1 as [|[k0 v0] l1 IH]; simpl; [reflexivity|].
  destruct (String.eqb k k0); auto.
Qed.

Lemma get_filter_other (cols : list (string * list cell)) (name : string) :
  name <> "results"%string ->
  Dict.get String.eqb (filter not_results cols) name =
  Dict.get String.eqb cols name.
Proof.
  intros Hne. induction cols as [|[k0 v0] cols IH]; [reflexivity|].
  cbn [filter]. unfold not_results at 1. cbn [fst existsb].
  rewrite orb_false_r.
  destruct (String.eqb k0 "results") eqn:E; cbn [negb Dict.get].
  - apply String.eqb_eq in E; subst k0.
    rewrite (proj2 (String.eqb_neq name "results") Hne). exact IH.
  - rewrite IH. reflexivity.
Qed.

Lemma get_filter_results (cols : list (string * list cell)) :
  Dict.get String.eqb (filter not_results cols) "results"%string = None.
Proof.
  induction cols as [|[k0 v0] cols IH]; [reflexivity|].
  cbn [filter]. unfold not_results at 1. cbn [fst existsb].
  rewrite orb_false_r.
  destruct (String.eqb k0 "results") eqn:E; cbn [negb Dict.get];
    [exact IH|].
  rewrite String.eqb_sym, E. exact IH.
Qed.

Lemma has_column_results (d : Dataset) :
  has_column d "results"%string =
  match column d "results"%string with Some _ => true | None => false end.
Proof.
  unfold has_column, column, column_names.
  change (existsb (String.eqb "results")
            ("id"%string :: "num_correct"%string :: "scores"%string
             :: map fst (columns d)))
    with (existsb (String.eqb "results") (map fst (columns d))).
  induction (columns d) as [|[k0 v0] cols IH]; [reflexivity|].
  cbn [map fst existsb Dict.get].
  destruct (String.eqb "results" k0); cbn [orb]; auto.
Qed.

(** Whatever the input columns, the dataset that reaches [add_column] has no
    "results"%string column, so [add_column] does not raise. *)
Lemma package_Ok (d : Dataset) :
  let d' := if has_column d "results"%string
            then remove_columns ["results"%string] d else d in
  add_column "results"%string (repeat CNone (List.length (rows d'))) d' =
  Ok (mkDataset (rows d)
        (columns d' ++
         [("results"%string, repeat CNone (List.length (rows d)))])) /\
  column d' "results"%string = None /\
  forall name, name <> "results"%string -> column d' name = column d name.
Proof.
  intros d'.
  assert (Hrows : rows d' = rows d)
    by (unfold d'; destruct (has_column d "results"%string); reflexivity).
  assert (Hnone : column d' "results"%string = None).
  { unfold d'. destruct (has_column d "results"%string) eqn:E.
    - apply get_filter_results.
    - rewrite has_column_results in E.
      destruct (column d "results"%string); [discriminate|reflexivity]. }
  split; [|split; [exact Hnone|]].
  - unfold add_column. rewrite has_column_results, Hnone, Hrows.
    rewrite repeat_length, Nat.eqb_refl. reflexivity.
  - intros name Hne. unfold d'. destruct (has_column d "results"%string);
      [|reflexivity].
    apply get_filter_other. exact Hne.
Qed.

Lemma process_single_model_Ok (d : Dataset) (m : Metrics) :
  score_details (rows d) = Ok m ->
  process_single_model d = Ok (packaged d, overall_score m).
Proof.
  intros E. destruct (package_Ok d) as (Ep & _).
  unfold process_single_model. rewrite E. cbn [bind].
  rewrite Ep. reflexivity.
Qed.

Lemma process_single_model_Raise (d : Dataset) (e : exn) :
  score_details (rows d) = Raise e -> process_single_model d = Raise e.
Proof.
  intros E. unfold process_single_model. rewrite E. reflexivity.
Qed.

(** What the packaged dataset holds. *)
Lemma packaged_frame (d : Dataset) :
  rows (packaged d) = rows d /\
  column (packaged d) "results"%string =
    Some (repeat CNone (List.length (rows d))) /\
  (forall i, (i < List.length (rows d))%nat ->
             cell_at (packaged d) "results"%string i = Some CNone) /\
  (forall name i, name <> "results"%string ->
                  cell_at (packaged d) name i = cell_at d name i).
Proof.
  destruct (package_Ok d) as (_ & Hnone & Hother).
  assert (Hres : column (packaged d) "results"%string =
                 Some (repeat CNone (List.length (rows d)))).
  { unfold column, packaged in *. cbn [columns].
    rewrite get_app, Hnone. reflexivity. }
  split; [reflexivity|]. split; [exact Hres|]. split.
  - intros i Hi. unfold cell_at. rewrite Hres.
    rewrite nth_error_repeat; auto.
  - intros name i Hne. unfold cell_at, column, packaged in *. cbn [columns].
    rewrite get_app, (Hother name Hne).
    destruct (Dict.get String.eqb (columns d) name); [reflexivity|].
    cbn [Dict.get].
    rewrite (proj2 (String.eqb_neq name "results"%string) Hne). reflexivity.
Qed.

Lemma process_single_model_inv (d out : Dataset) (score : npfloat) :
  process_single_model d = Ok (out, score) ->
  out = packaged d /\
  exists m, score_details (rows d) = Ok m /\ score = overall_score m.
Proof.
  intros E. destruct (score_details (rows d)) as [m|e] eqn:Em.
  - rewrite (process_single_model_Ok d Em) in E. injection E as <- <-.
    split; [reflexivity|]. exists m. auto.
  - rewrite (process_single_model_Raise d Em) in E. discriminate.
Qed.

(** C9. On a valid dataset [process_single_model] returns, and the dataset
    it returns (on any input on which it returns) has the rows of the input,
    a "results" column that holds [None] in every row, and in every other
    column and every row the value of the input. *)
Theorem C9_results_column (d : Dataset) :
  (valid_dataset (rows d) = true ->
   exists out score, process_single_model d = Ok (out, score)) /\
  (forall out score,
     process_single_model d = Ok (out, score) ->
     rows out = rows d /\
     column out "results"%string =
       Some (repeat CNone (List.length (rows d))) /\
     (forall i, (i < List.length (rows d))%nat ->
                cell_at out "results"%string i = Some CNone) /\
     (forall name i, name <> "results"%string ->
                     cell_at out name i = cell_at d name i)).
Proof.
  split.
  - intros Hvalid.
    destruct (valid_dataset_scored _ Hvalid) as (r & t & _ & _ & _ & E).
    eexists; eexists. apply (@process_single_model_Ok d _ E).
  - intros out score E.
    apply process_single_model_inv in E as [-> _].
    apply packaged_frame.
Qed.

Lemma C9_results_column_witness :
  exists out score,
    process_single_model example_dataset = Ok (out, score) /\
    rows out = rows example_dataset /\
    column out "results"%string =
      Some (repeat CNone (List.length (rows example_dataset))) /\
    (forall i, (i < List.length (rows example_dataset))%nat ->
               cell_at out "results"%string i = Some CNone) /\
    (forall name i, name <> "results"%string ->
                    cell_at out name i = cell_at example_dataset name i).
Proof.
  destruct (proj1 (C9_results_column example_dataset) eq_refl)
    as (out & score & E).
  exists out, score. split; [exact E|].
  apply (proj2 (C9_results_column example_dataset) out score E).
Defined.

(** ** Numeric bounds *)

Lemma div_lt (a b c : R) : 0 < c -> a < b * c -> a / c < b.
Proof.
  intros Hc H. apply (Rmult_lt_reg_r c); [exact Hc|].
  unfold Rdiv. rewrite Rmult_assoc, Rinv_l by lra. lra.
Qed.

Lemma lt_div (a b c : R) : 0 < c -> b * c < a -> b < a / c.
Proof.
  intros Hc H. apply (Rmult_lt_reg_r c); [exact Hc|].
  unfold Rdiv. rewrite Rmult_assoc, Rinv_l by lra. lra.
Qed.

Lemma div_le (a b c : R) : 0 < c -> a <= b * c -> a / c <= b.
Proof.
  intros Hc H. apply (Rmult_le_reg_r c); [exact Hc|].
  unfold Rdiv. rewrite Rmult_assoc, Rinv_l by lra. lra.
Qed.

Lemma le_div (a b c : R) : 0 < c -> b * c <= a -> b <= a / c.
Proof.
  intros Hc H. apply (Rmult_le_reg_r c); [exact Hc|].
  unfold Rdiv. rewrite Rmult_assoc, Rinv_l by lra. lra.
Qed.

Lemma tanh_bounds (x : R) : -1 < Rtrigo_def.tanh x < 1.
Proof.
  unfold Rtrigo_def.tanh, sinh, cosh.
  pose proof (exp_pos x). pose proof (exp_pos (- x)).
  split; [apply lt_div|apply div_lt]; lra.
Qed.

Lemma tanh_below (x : R) : x <= -1 -> Rtrigo_def.tanh x < - (1 / 2).
Proof.
  intros Hx. unfold Rtrigo_def.tanh, sinh, cosh.
  pose proof (exp_pos x) as Hp.
  assert (H1 : 2 < exp (- x)).
  { pose proof (exp_ineq1 (- x)) as Hexp. lra. }
  assert (H2 : exp x * exp (- x) = 1).
  { rewrite <- exp_plus. replace (x + - x) with 0 by lra. apply exp_0. }
  assert (H3 : exp x < 1 / 2) by nra.
  apply div_lt; lra.
Qed.

Lemma sum_bounds (a b : R) (l : list R) :
  (forall x, In x l -> a <= x <= b) ->
  a * INR (List.length l) <= sum l <= b * INR (List.length l).
Proof.
  induction l as [|x l IH]; intros H.
  - simpl. lra.
  - change (sum (x :: l)) with (x + sum l).
    change (List.length (x :: l)) with (S (List.length l)). rewrite S_INR.
    destruct (H x (or_introl eq_refl)).
    destruct IH; [intros; apply H; right; auto|]. lra.
Qed.

Lemma mean_bounds (a b : R) (l : list R) :
  l <> [] -> (forall x, In x l -> a <= x <= b) ->
  exists m, mean l = Fin m /\ a <= m <= b.
Proof.
  intros Hne H. destruct l as [|x l]; [congruence|].
  eexists. split; [reflexivity|].
  assert (Hn : 0 < INR (List.length (x :: l))) by (apply lt_0_INR; simpl; lia).
  destruct (@sum_bounds a b (x :: l) H).
  split; [apply le_div|apply div_le]; assumption.
Qed.

Lemma mean_bool_bounds (l : list bool) :
  l <> [] -> exists m, mean_bool l = Fin m /\ 0 <= m <= 1.
Proof.
  intros Hne. apply mean_bounds.
  - destruct l; [congruence|discriminate].
  - intros x Hx. apply in_map_iff in Hx as (b & <- & _).
    destruct b; simpl; lra.
Qed.

Lemma accuracy_bounds (d : stats_dict) :
  exists m, accuracy d = Fin m /\ 0 <= m <= 1.
Proof.
  destruct d as [|x d].
  - exists 0. simpl. split; [reflexivity|lra].
  - apply mean_bool_bounds. discriminate.
Qed.

(** The value of one margin score, by cases on the divisor. *)
Lemma margin_value (a d : R) :
  nan_to_num (tanh (sub (div (Fin a) (Fin d)) (Fin 1))) =
  if Req_dec_T d 0 then
    match sgn a with Pos => 1 | Neg => -1 | Zero => 0 end
  else Rtrigo_def.tanh (a / d - 1).
Proof.
  unfold div. destruct (Req_dec_T d 0).
  - destruct (sgn a); reflexivity.
  - reflexivity.
Qed.

Lemma margin_bounds (a d : R) :
  -1 <= nan_to_num (tanh (sub (div (Fin a) (Fin d)) (Fin 1))) <= 1.
Proof.
  rewrite margin_value. destruct (Req_dec_T d 0).
  - destruct (sgn a); lra.
  - pose proof (tanh_bounds (a / d - 1)). lra.
Qed.

(** ** Evaluation on concrete inputs *)

Ltac eval_model :=
  cbv -[IZR Rplus Rminus Rmult Rdiv Rinv Ropp INR Rgt_dec Rlt_dec Rle_dec
        Req_dec_T Rmin Rtrigo_def.tanh float_max].

Ltac decide_one a b dec :=
  first [ destruct (dec a b) as [?|?]; [|exfalso; lra]
        | destruct (dec a b) as [?|?]; [exfalso; lra|] ].

Ltac decide_R :=
  repeat match goal with
  | |- context [Rgt_dec ?a ?b] => decide_one a b Rgt_dec
  | |- context [Rlt_dec ?a ?b] => decide_one a b Rlt_dec
  | |- context [Rle_dec ?a ?b] => decide_one a b Rle_dec
  | |- context [Req_dec_T ?a ?b] => decide_one a b Req_dec_T
  end.

(** C4 (amended). On a valid dataset with at least one prompt that has both
    a reference and a tied group, [process_single_model] returns the score
    0.30*tied_accuracy + 0.30*ref_accuracy + 0.20*correctness_preferred +
    0.20*correctness_preferred_hard + 0.01*correctness_margin_score, a
    finite number between -0.01 and 1.01. *)
Theorem C4_overall_score_bounds (d : Dataset) :
  valid_dataset (rows d) = true ->
  (exists p, paired (rows d) p = true) ->
  exists out m ta ra cp cph cms,
    process_single_model d = Ok (out, overall_score m) /\
    score_details (rows d) = Ok m /\
    tied_accuracy m = Fin ta /\
    ref_accuracy m = Fin ra /\
    correctness_preferred m = Fin cp /\
    correctness_preferred_hard m = Fin cph /\
    correctness_margin_score m = Fin cms /\
    overall_score m =
      Fin (0.30 * ta + 0.30 * ra + 0.20 * cp + 0.20 * cph + 0.01 * cms) /\
    -0.01 <= 0.30 * ta + 0.30 * ra + 0.20 * cp + 0.20 * cph + 0.01 * cms
          <= 1.01.
Proof.
  intros Hvalid (p & Hp).
  destruct (valid_dataset_scored _ Hvalid) as (r & t & _ & _ & Hcommon & E).
  assert (Hne : common_prompts r t <> []).
  { apply Hcommon in Hp. intros Hnil. rewrite Hnil in Hp. destruct Hp. }
  destruct (accuracy_bounds t) as (ta & Eta & Hta).
  destruct (accuracy_bounds r) as (ra & Era & Hra).
  destruct (@mean_bool_bounds (map (preferred_at t) (common_prompts r t)))
    as (cp & Ecp & Hcp).
  { intros Hnil. apply map_eq_nil in Hnil. contradiction. }
  destruct (@mean_bool_bounds (map (hard_at r t) (common_prompts r t)))
    as (cph & Ecph & Hcph).
  { intros Hnil. apply map_eq_nil in Hnil. contradiction. }
  destruct (@mean_bounds (-1) 1 (map (margin_at r t) (common_prompts r t)))
    as (cms & Ecms & Hcms).
  { intros Hnil. apply map_eq_nil in Hnil. contradiction. }
  { intros x Hx. apply in_map_iff in Hx as (q & <- & _). apply margin_bounds. }
  eexists; eexists; exists ta, ra, cp, cph, cms.
  split; [apply (@process_single_model_Ok d _ E)|].
  split; [exact E|]. cbn [tied_accuracy ref_accuracy correctness_preferred
    correctness_preferred_hard correctness_margin_score overall_score].
  rewrite Eta, Era, Ecp, Ecph, Ecms.
  repeat (split; [reflexivity|]).
  split; [unfold weighted; simpl; f_equal; lra|lra].
Qed.

Lemma C4_overall_score_bounds_witness :
  exists out m ta ra cp cph cms,
    process_single_model example_dataset = Ok (out, overall_score m) /\
    score_details (rows example_dataset) = Ok m /\
    tied_accuracy m = Fin ta /\
    ref_accuracy m = Fin ra /\
    correctness_preferred m = Fin cp /\
    correctness_preferred_hard m = Fin cph /\
    correctness_margin_score m = Fin cms /\
    overall_score m =
      Fin (0.30 * ta + 0.30 * ra + 0.20 * cp + 0.20 * cph + 0.01 * cms) /\
    -0.01 <= 0.30 * ta + 0.30 * ra + 0.20 * cp + 0.20 * cph + 0.01 * cms
          <= 1.01.
Proof.
  apply (C4_overall_score_bounds example_dataset).
  - reflexivity.
  - exists 0%Z. reflexivity.
Defined.

(** The claimed lower bound -0.01*0.5 fails: on [low_margin_dataset], a
    valid dataset, the four main terms are 0 and the margin term is
    0.01 * tanh(-11), below -0.005. *)
Lemma C4_counterexample :
  valid_dataset (rows low_margin_dataset) = true /\
  exists out x,
    process_single_model low_margin_dataset = Ok (out, Fin x) /\
    ~ (-0.01 * 0.5 <= x <= 1.01).
Proof.
  split; [reflexivity|].
  eexists; eexists. split; [eval_model; reflexivity|].
  unfold Rmin. decide_R. simpl INR.
  match goal with
  | |- context [Rtrigo_def.tanh ?a] =>
      assert (Ha : a <= -1) by lra; pose proof (tanh_below Ha)
  end.
  intros [Hlow _]. lra.
Qed.

(** The worked example of the specification: the score is
    1 + 0.01 * tanh 1. *)
Lemma example_score :
  exists out,
    process_single_model example_dataset =
    Ok (out, Fin (1 + 0.01 * Rtrigo_def.tanh 1)).
Proof.
  eexists. eval_model. unfold Rmin. decide_R. simpl INR.
  do 3 f_equal.
  match goal with
  | |- context [Rtrigo_def.tanh ?a] => replace a with 1 by lra
  end.
  lra.
Qed.

(** ** Datasets without a common prompt *)

Lemma metrics_no_common (r t : stats_dict) :
  common_prompts r t = [] ->
  exists m,
    metrics r t = Ok m /\
    correctness_preferred m = NaN /\
    correctness_preferred_hard m = NaN /\
    correctness_margin_score m = NaN /\
    overall_score m = NaN.
Proof.
  intros E. unfold metrics. rewrite E. eexists. split; [reflexivity|].
  simpl. repeat split.
  destruct (accuracy_bounds t) as (ta & -> & _).
  destruct (accuracy_bounds r) as (ra & -> & _).
  reflexivity.
Qed.

(** C3. On [ref_only_dataset], which has a reference prompt and no tied
    prompt and so no common prompt, the three rates over the common prompts
    are NaN and not 0.0, and the overall score is NaN and not
    0.30*tied_accuracy + 0.30*ref_accuracy = 0.3. *)
Theorem C3_no_common_prompts_nan :
  exists m,
    score_details (rows ref_only_dataset) = Ok m /\
    tied_accuracy m = Fin 0 /\
    ref_accuracy m = Fin 1 /\
    correctness_preferred m = NaN /\
    correctness_preferred_hard m = NaN /\
    correctness_margin_score m = NaN /\
    overall_score m = NaN /\
    process_single_model ref_only_dataset = Ok (packaged ref_only_dataset, NaN).
Proof.
  assert (E : exists x,
             score_details (rows ref_only_dataset) =
             Ok (mkMetrics (Fin x) (Fin 0) NaN NaN [] NaN NaN) /\ x = 1).
  { eexists. eval_model. decide_R. simpl INR. split; [reflexivity|lra]. }
  destruct E as (x & E & ->).
  eexists. split; [exact E|]. simpl.
  repeat (split; [reflexivity|]).
  apply (@process_single_model_Ok ref_only_dataset _ E).
Qed.

(** C2. When the spread of the tied group is 0, the margin score is 0 only
    if the smaller correct-incorrect margin is 0 as well; otherwise the
    division gives an infinity, which [nan_to_num] leaves to [tanh], and the
    margin score is 1 or -1.  On [zero_spread_dataset], where the two
    correct answers of the tied prompt have the same score, it is 1. *)
Theorem C2_zero_spread_margin_score :
  (forall a : R,
     nan_to_num (tanh (sub (div (Fin a) (Fin 0)) (Fin 1))) =
     match sgn a with Pos => 1 | Neg => -1 | Zero => 0 end) /\
  (exists m,
     score_details (rows zero_spread_dataset) = Ok m /\
     margin_scores m = [1]).
Proof.
  split.
  - intros a. rewrite margin_value.
    destruct (Req_dec_T 0 0); [reflexivity|congruence].
  - eexists. split.
    + eval_model. unfold Rmin. decide_R. simpl INR. reflexivity.
    + reflexivity.
Qed.

(** ** Errors *)

(** C7 (amended). A dataset with a row whose id does not split at ":" into
    two parts of which the second is accepted by [int] is not scored:
    [process_single_model] raises and returns nothing.  The exception is the
    built-in [ValueError] of the unpacking or of [int] (the code has no
    [MalformedIdError]), or the [IndexError] of an empty score entry in an
    earlier row. *)
Theorem C7_malformed_id_raises (d : Dataset) (s : Sample) :
  In s (rows d) ->
  (exists e, parse_id (id s) = Raise e) ->
  exists e,
    process_single_model d = Raise e /\
    (e = ValueError \/ e = IndexError) /\
    (forallb (fun s' => forallb readable (scores s')) (rows d) = true ->
     e = ValueError).
Proof.
  intros Hin (e0 & He0).
  assert (Hrows : rows_ok (rows d) = false).
  { destruct (rows_ok (rows d)) eqn:E; [|reflexivity].
    unfold rows_ok in E. rewrite forallb_forall in E.
    specialize (E s Hin). unfold row_ok in E. rewrite He0 in E.
    discriminate. }
  destruct (score_details_rows_bad _ Hrows) as (e & E & He & Hv).
  exists e. split; [apply process_single_model_Raise; exact E|]. auto.
Qed.

Lemma C7_malformed_id_raises_witness :
  exists e,
    process_single_model malformed_dataset = Raise e /\
    (e = ValueError \/ e = IndexError) /\
    (forallb (fun s' => forallb readable (scores s'))
       (rows malformed_dataset) = true ->
     e = ValueError).
Proof.
  apply (C7_malformed_id_raises malformed_dataset
           (mkSample "badid" 1 [Scalar 1; Scalar 0])).
  - left. reflexivity.
  - exists ValueError. reflexivity.
Defined.

(** On the id "badid" the code raises [ValueError], not
    [MalformedIdError]. *)
Lemma C7_counterexample :
  process_single_model malformed_dataset = Raise ValueError /\
  process_single_model malformed_dataset <> Raise MalformedIdError.
Proof.
  assert (E : process_single_model malformed_dataset = Raise ValueError)
    by reflexivity.
  split; [exact E|]. rewrite E. discriminate.
Qed.

(** C8 (amended). On a group without a correct entry or without an
    incorrect entry [_compute_prompt_stats] raises the built-in [ValueError]
    of [max] and [min] on an empty list (the code has no
    [InvalidGroupError]), and [process_single_model] raises it on every
    dataset that has such a group. *)
Theorem C8_empty_side_raises :
  (forall samples : list (bool * R),
     correct_scores samples = [] \/ incorrect_scores samples = [] ->
     _compute_prompt_stats samples = Raise ValueError) /\
  (forall (d : Dataset) (g : groups) (k : key) (samples : list (bool * R)),
     group_samples (rows d) = Ok g ->
     In (k, samples) g ->
     correct_scores samples = [] \/ incorrect_scores samples = [] ->
     process_single_model d = Raise ValueError).
Proof.
  split.
  - apply compute_prompt_stats_Raise.
  - intros d g k samples Eg Hin Hbad.
    apply process_single_model_Raise.
    unfold score_details, prompt_stats. rewrite Eg. cbn [bind].
    rewrite (stats_loop_Raise g); [reflexivity|].
    exists k, samples. split; [exact Hin|].
    apply well_formed_false. exact Hbad.
Qed.

Lemma C8_empty_side_raises_witness :
  _compute_prompt_stats [(true, 1)] = Raise ValueError /\
  process_single_model one_sided_dataset = Raise ValueError.
Proof.
  split.
  - apply (proj1 C8_empty_side_raises). right. reflexivity.
  - apply (proj2 C8_empty_side_raises one_sided_dataset
             [(("ref"%string, 0%Z), [(true, 1)])]
             ("ref"%string, 0%Z) [(true, 1)]).
    + reflexivity.
    + left. reflexivity.
    + right. reflexivity.
Defined.

(** On a group with a correct entry and no incorrect one the code raises
    [ValueError], not [InvalidGroupError]. *)
Lemma C8_counterexample :
  incorrect_scores [(true, 1)] = [] /\
  _compute_prompt_stats [(true, 1)] = Raise ValueError /\
  _compute_prompt_stats [(true, 1)] <> Raise InvalidGroupError.
Proof.
  split; [reflexivity|].
  assert (E : _compute_prompt_stats [(true, 1)] = Raise ValueError)
    by reflexivity.
  split; [exact E|]. rewrite E. discriminate.
Qed.

(** ** Sample types other than "ref" *)

Lemma add_stats_not_ref (ty : string) (p : Z) (samples : list (bool * R))
  (st : stats_dict * stats_dict) :
  ty <> "ref"%string ->
  add_stats st ((ty, p), samples) =
  add_stats st (("tied"%string, p), samples).
Proof.
  intros Hne. destruct st as [r t]. unfold add_stats.
  destruct (_compute_prompt_stats samples); [|reflexivity].
  cbn [bind]. rewrite (proj2 (String.eqb_neq ty "ref") Hne). reflexivity.
Qed.

(** The loop over the groups when no prompt id stands under two types other
    than "ref": [ref_stats] holds the statistics of the groups of type
    "ref", [tied_stats] those of every other group. *)
Lemma stats_loop_nonref (g : groups) (r0 t0 : stats_dict) :
  NoDup (Dict.keys g) ->
  (forall k l, In (k, l) g -> well_formed l = true) ->
  (forall ty ty' p, ty <> "ref"%string -> ty' <> "ref"%string ->
     Dict.get key_eqb g (ty, p) <> None ->
     Dict.get key_eqb g (ty', p) <> None -> ty = ty') ->
  exists r t,
    for_each add_stats g (r0, t0) = Ok (r, t) /\
    (NoDup (Dict.keys r0) -> NoDup (Dict.keys r)) /\
    (NoDup (Dict.keys t0) -> NoDup (Dict.keys t)) /\
    (forall p, Dict.get Z.eqb r p =
               match Dict.get key_eqb g ("ref"%string, p) with
               | Some l => stats_opt l
               | None => Dict.get Z.eqb r0 p
               end) /\
    (forall ty p l, ty <> "ref"%string ->
       Dict.get key_eqb g (ty, p) = Some l ->
       Dict.get Z.eqb t p = stats_opt l) /\
    (forall p, Dict.get Z.eqb t p = Dict.get Z.eqb t0 p \/
               exists ty l, ty <> "ref"%string /\
                            Dict.get key_eqb g (ty, p) = Some l).
Proof.
  revert r0 t0; induction g as [|[[ty p] l] g IH]; intros r0 t0 Hnd Hall Hone.
  - exists r0, t0. cbn. repeat split; auto.
    intros ty p l _ H. discriminate.
  - inversion Hnd as [|? ? Hnotin Hnd']; subst.
    destruct (well_formed_stats l (Hall _ _ (or_introl eq_refl)))
      as (s & Es & Eo).
    assert (Hall' : forall k l', In (k, l') g -> well_formed l' = true)
      by (intros; apply (Hall k); right; assumption).
    assert (Hnone : Dict.get key_eqb g (ty, p) = None)
      by (apply (get_None key_eqb_eq); exact Hnotin).
    assert (Hcons : forall k, Dict.get key_eqb g k <> None ->
              Dict.get key_eqb (((ty, p), l) :: g) k <> None).
    { intros k H. cbn [Dict.get]. destruct (key_eqb k (ty, p));
        [discriminate|exact H]. }
    assert (Hone' : forall ty1 ty2 q,
              ty1 <> "ref"%string -> ty2 <> "ref"%string ->
              Dict.get key_eqb g (ty1, q) <> None ->
              Dict.get key_eqb g (ty2, q) <> None -> ty1 = ty2)
      by (intros ty1 ty2 q H1 H2 G1 G2; apply (Hone ty1 ty2 q); auto).
    cbn [for_each]. unfold add_stats at 1. rewrite Es. cbn [bind].
    destruct (String.eqb ty "ref") eqn:Ety.
    + apply String.eqb_eq in Ety; subst ty.
      destruct (IH (Dict.set Z.eqb r0 p s) t0 Hnd' Hall' Hone')
        as (r & t & E & Hr & Ht & Gr & G1 & G2).
      exists r, t. split; [exact E|]. split.
      { intros H. apply Hr. apply (NoDup_keys_set Z.eqb_eq). exact H. }
      split; [exact Ht|]. split; [|split].
      * intros q. rewrite Gr. cbn [Dict.get]. unfold key_eqb at 2.
        cbn [fst snd String.eqb Ascii.eqb Bool.eqb andb].
        destruct (Z.eqb q p) eqn:Eq.
        -- apply Z.eqb_eq in Eq; subst q. rewrite Hnone.
           rewrite (get_set Z.eqb_eq), Z.eqb_refl. auto.
        -- destruct (Dict.get key_eqb g ("ref"%string, q)); [reflexivity|].
           rewrite (get_set Z.eqb_eq), Eq. reflexivity.
      * intros ty' q l' Hne Hget. cbn [Dict.get] in Hget.
        unfold key_eqb at 1 in Hget. cbn [fst snd] in Hget.
        rewrite (proj2 (String.eqb_neq ty' "ref") Hne) in Hget.
        cbn [andb] in Hget. apply (G1 ty' q l' Hne Hget).
      * intros q. destruct (G2 q) as [H|(ty' & l' & Hne & Hget)];
          [left; exact H|].
        right. exists ty', l'. split; [exact Hne|]. cbn [Dict.get].
        unfold key_eqb at 1. cbn [fst snd].
        rewrite (proj2 (String.eqb_neq ty' "ref") Hne). exact Hget.
    + apply String.eqb_neq in Ety.
      destruct (IH r0 (Dict.set Z.eqb t0 p s) Hnd' Hall' Hone')
        as (r & t & E & Hr & Ht & Gr & G1 & G2).
      exists r, t. split; [exact E|]. split; [exact Hr|]. split.
      { intros H. apply Ht. apply (NoDup_keys_set Z.eqb_eq). exact H. }
      split; [|split].
      * intros q. rewrite Gr. cbn [Dict.get]. unfold key_eqb at 2.
        cbn [fst snd].
        assert (E' : String.eqb "ref" ty = false)
          by (apply String.eqb_neq; congruence).
        rewrite E'. reflexivity.
      * intros ty' q l' Hne Hget. cbn [Dict.get] in Hget.
        destruct (key_eqb (ty', q) (ty, p)) eqn:Ek.
        -- apply key_eqb_eq in Ek. injection Ek as -> ->.
           injection Hget as <-.
           destruct (G2 p) as [H|(ty2 & l2 & Hne2 & Hget2)].
           ++ rewrite H, (get_set Z.eqb_eq), Z.eqb_refl. symmetry. exact Eo.
           ++ exfalso. assert (E2 : ty2 = ty).
              { apply (Hone ty2 ty p Hne2 Ety).
                - apply Hcons. rewrite Hget2. discriminate.
                - cbn [Dict.get]. rewrite (proj2 (key_eqb_eq _ _) eq_refl).
                  discriminate. }
              subst ty2. rewrite Hnone in Hget2. discriminate.
        -- apply (G1 ty' q l' Hne Hget).
      * intros q. destruct (G2 q) as [H|(ty2 & l2 & Hne2 & Hget2)].
        -- destruct (Z.eqb q p) eqn:Eq.
           ++ apply Z.eqb_eq in Eq; subst q. right. exists ty, l.
              split; [exact Ety|]. cbn [Dict.get].
              rewrite (proj2 (key_eqb_eq _ _) eq_refl). reflexivity.
           ++ left. rewrite H, (get_set Z.eqb_eq), Eq. reflexivity.
        -- right. exists ty2. cbn [Dict.get].
           destruct (key_eqb (ty2, q) (ty, p)); eauto.
Qed.

Lemma one_tied_type_groups (ds : list Sample) (ty ty' : string) (p : Z) :
  one_tied_type ds = true ->
  ty <> "ref"%string -> ty' <> "ref"%string ->
  group_of ds (ty, p) <> [] -> group_of ds (ty', p) <> [] -> ty = ty'.
Proof.
  unfold one_tied_type. rewrite forallb_forall. intros H Hne Hne' G G'.
  destruct (group_of_nonempty ds _ G) as (s & Hin & Hs).
  destruct (group_of_nonempty ds _ G') as (s' & Hin' & Hs').
  specialize (H s Hin). rewrite forallb_forall in H. specialize (H s' Hin').
  rewrite Hs, Hs' in H.
  rewrite (proj2 (String.eqb_neq ty "ref") Hne) in H.
  rewrite (proj2 (String.eqb_neq ty' "ref") Hne') in H.
  rewrite Z.eqb_refl in H. cbn [orb negb] in H.
  apply String.eqb_eq. exact H.
Qed.

(** The two dicts of a dataset whose rows are accepted, whose groups are
    well formed, and in which no prompt id stands under two types other
    than "ref". *)
Lemma score_details_nonref (ds : list Sample) :
  rows_ok ds = true -> groups_ok ds = true -> one_tied_type ds = true ->
  exists g r t,
    group_samples ds = Ok g /\
    prompt_stats g = Ok (r, t) /\
    NoDup (Dict.keys r) /\ NoDup (Dict.keys t) /\
    (forall p, Dict.get Z.eqb r p = stats_at ds "ref" p) /\
    (forall ty p, ty <> "ref"%string -> group_of ds (ty, p) <> [] ->
       exists stats,
         _compute_prompt_stats (group_of ds (ty, p)) = Ok stats /\
         Dict.get Z.eqb t p = Some stats) /\
    (forall p, Dict.mem Z.eqb t p = true ->
       exists ty, ty <> "ref"%string /\ group_of ds (ty, p) <> []) /\
    score_details ds = metrics r t.
Proof.
  intros Hrows Hgr Hone.
  destruct (group_samples_Ok ds Hrows) as (g & E & Hnd & Hget).
  assert (Hmem : forall k, Dict.get key_eqb g k <> None -> group_of ds k <> []).
  { intros k H Hnil. apply H. rewrite Hget, Hnil. reflexivity. }
  destruct (stats_loop_nonref g [] [] Hnd)
    as (r & t & Es & Hr & Ht & Gr & G1 & G2).
  { intros k l Hin. apply (In_get_Some key_eqb_eq) in Hin; [|exact Hnd].
    rewrite Hget in Hin. apply merge_None_Some in Hin as [<- Hne].
    apply groups_ok_iff; assumption. }
  { intros ty ty' p Hne Hne' H H'.
    apply (@one_tied_type_groups ds ty ty' p Hone Hne Hne'); apply Hmem;
      assumption. }
  exists g, r, t. split; [exact E|]. split; [exact Es|].
  split; [apply Hr; constructor|]. split; [apply Ht; constructor|].
  split; [|split; [|split]].
  - intros p. rewrite Gr, Hget. unfold stats_at.
    destruct (group_of ds ("ref"%string, p)); reflexivity.
  - intros ty p Hne Hg.
    rewrite groups_ok_iff in Hgr.
    destruct (well_formed_stats _ (Hgr _ Hg)) as (stats & Ec & Eo).
    exists stats. split; [exact Ec|].
    rewrite (G1 ty p (group_of ds (ty, p)) Hne); [exact Eo|].
    rewrite Hget. apply merge_None_Some. auto.
  - intros p Hp. unfold Dict.mem in Hp.
    destruct (G2 p) as [H|(ty & l & Hne & Hl)].
    + rewrite H in Hp. discriminate.
    + exists ty. split; [exact Hne|]. apply Hmem. rewrite Hl. discriminate.
  - unfold score_details, prompt_stats. rewrite E. cbn [bind].
    unfold prompt_stats in Es. unfold stats_dict, Dict.dict in *.
    rewrite Es. reflexivity.
Qed.

Lemma metrics_accuracies (r t : stats_dict) (m : Metrics) :
  metrics r t = Ok m ->
  ref_accuracy m = accuracy r /\ tied_accuracy m = accuracy t.
Proof.
  unfold metrics, metrics_over. intros E.
  repeat match type of E with
         | bind ?x _ = _ => destruct x; cbn [bind] in E; [|discriminate E]
         end.
  injection E as <-. split; reflexivity.
Qed.

Lemma sum_of_bool (l : list bool) :
  sum (map of_bool l) = INR (List.length (filter (fun b => b) l)).
Proof.
  induction l as [|b l IH]; [reflexivity|].
  cbn [map sum fold_right filter]. fold (sum (map of_bool l)). rewrite IH.
  destruct b; cbn [of_bool List.length]; [rewrite S_INR|]; lra.
Qed.

(** The accuracy of a dict: the fraction of its groups that are accurate,
    and 0 for the empty dict. *)
Lemma accuracy_fraction (d : stats_dict) :
  accuracy d =
  match d with
  | [] => Fin 0
  | _ :: _ => Fin (INR (accurate_count d) / INR (List.length d))
  end.
Proof.
  destruct d as [|x d]; [reflexivity|].
  unfold accuracy, mean_bool, mean, accurate_count, Dict.values.
  set (l := x :: d). destruct (map of_bool (map accurate (map snd l))) eqn:El;
    [discriminate|].
  rewrite <- El, sum_of_bool, !length_map.
  do 3 f_equal. clear El.
  induction l as [|y l IH]; [reflexivity|].
  cbn [map filter]. destruct (accurate (snd y)); cbn [List.length];
    rewrite IH; reflexivity.
Qed.

(** C10 (amended).  In a dataset in which no prompt id stands under two
    sample types other than "ref", a sample type other than "ref" - "tied"
    or any other string - raises no error of its own and marks a tied
    group.  [process_single_model] returns whenever the rows are accepted,
    every group has a correct and an incorrect score, and every prompt with
    a reference group has at least two correct answers in its group of
    another type.  On every run that returns, the statistics of each group
    of a type other than "ref" are stored in [tied_stats] under its prompt
    id, [tied_stats] holds nothing else, [ref_stats] holds the groups of
    type "ref", and [tied_accuracy] is the fraction of the entries of
    [tied_stats] that are accurate (0.0 when there is none). *)
Theorem C10_other_types_are_tied (d : Dataset) :
  one_tied_type (rows d) = true ->
  ((rows_ok (rows d) && groups_ok (rows d) && nonref_ties_ok (rows d))%bool
   = true ->
   exists out score, process_single_model d = Ok (out, score)) /\
  (forall out score,
     process_single_model d = Ok (out, score) ->
     exists g ref_stats tied_stats m,
       group_samples (rows d) = Ok g /\
       prompt_stats g = Ok (ref_stats, tied_stats) /\
       score_details (rows d) = Ok m /\
       score = overall_score m /\
       NoDup (Dict.keys tied_stats) /\
       (forall ty p, ty <> "ref"%string ->
          group_of (rows d) (ty, p) <> [] ->
          exists stats,
            _compute_prompt_stats (group_of (rows d) (ty, p)) = Ok stats /\
            Dict.get Z.eqb tied_stats p = Some stats) /\
       (forall p, Dict.mem Z.eqb tied_stats p = true ->
          exists ty, ty <> "ref"%string /\ group_of (rows d) (ty, p) <> []) /\
       (forall p, Dict.get Z.eqb ref_stats p = stats_at (rows d) "ref" p) /\
       tied_accuracy m =
         match tied_stats with
         | [] => Fin 0
         | _ :: _ => Fin (INR (accurate_count tied_stats) /
                          INR (List.length tied_stats))
         end).
Proof.
  intros Hone. split.
  - rewrite !andb_true_iff. intros [[Hrows Hgr] Hties].
    destruct (score_details_nonref (rows d) Hrows Hgr Hone)
      as (g & r & t & _ & _ & _ & _ & Gr & G1 & G2 & E).
    assert (Em : exists m, metrics r t = Ok m).
    { eexists. unfold metrics. apply metrics_over_Ok.
      intros p Hp. apply common_prompts_In in Hp as [Hr Ht].
      split; [exact Hr|]. split; [exact Ht|].
      destruct (G2 p Ht) as (ty & Hne & Hg).
      destruct (G1 ty p Hne Hg) as (stats & Ec & Eg).
      unfold stat. rewrite Eg. rewrite (spread_defined _ Ec).
      assert (Href : group_of (rows d) ("ref"%string, p) <> []).
      { intros Hnil. unfold Dict.mem in Hr. rewrite Gr in Hr.
        rewrite (stats_at_None _ _ _ Hnil) in Hr. discriminate. }
      destruct (group_of_nonempty _ _ Hg) as (s & Hin & Hs).
      unfold nonref_ties_ok in Hties. rewrite forallb_forall in Hties.
      specialize (Hties s Hin). rewrite Hs in Hties.
      rewrite (proj2 (String.eqb_neq ty "ref") Hne) in Hties.
      rewrite (proj2 (is_nil_false _) Href) in Hties.
      rewrite (proj2 (is_nil_false _) Hg) in Hties.
      cbn [orb] in Hties. apply Nat.leb_le in Hties. lia. }
    destruct Em as (m & Em). rewrite Em in E.
    exists (packaged d), (overall_score m).
    apply process_single_model_Ok. exact E.
  - intros out score Hrun.
    apply process_single_model_inv in Hrun as (_ & m & Em & ->).
    assert (Hrows : rows_ok (rows d) = true).
    { destruct (rows_ok (rows d)) eqn:H; [reflexivity|].
      destruct (score_details_rows_bad _ H) as (e & E & _).
      rewrite E in Em. discriminate. }
    assert (Hgr : groups_ok (rows d) = true).
    { destruct (groups_ok (rows d)) eqn:H; [reflexivity|].
      rewrite (score_details_groups_bad _ Hrows H) in Em. discriminate. }
    destruct (score_details_nonref (rows d) Hrows Hgr Hone)
      as (g & r & t & Eg & Es & _ & Ht & Gr & G1 & G2 & E).
    exists g, r, t, m. split; [exact Eg|]. split; [exact Es|].
    split; [exact Em|]. split; [reflexivity|]. split; [exact Ht|].
    split; [exact G1|]. split; [exact G2|]. split; [exact Gr|].
    rewrite E in Em. destruct (@metrics_accuracies r t m Em) as [_ ->].
    apply accuracy_fraction.
Qed.

Lemma C10_other_types_are_tied_witness :
  exists out score,
    process_single_model other_type_dataset = Ok (out, score) /\
    exists g ref_stats tied_stats m,
      group_samples (rows other_type_dataset) = Ok g /\
      prompt_stats g = Ok (ref_stats, tied_stats) /\
      score_details (rows other_type_dataset) = Ok m /\
      score = overall_score m /\
      NoDup (Dict.keys tied_stats) /\
      (forall ty p, ty <> "ref"%string ->
         group_of (rows other_type_dataset) (ty, p) <> [] ->
         exists stats,
           _compute_prompt_stats (group_of (rows other_type_dataset) (ty, p))
             = Ok stats /\
           Dict.get Z.eqb tied_stats p = Some stats) /\
      (forall p, Dict.mem Z.eqb tied_stats p = true ->
         exists ty, ty <> "ref"%string /\
                    group_of (rows other_type_dataset) (ty, p) <> []) /\
      (forall p, Dict.get Z.eqb ref_stats p =
                 stats_at (rows other_type_dataset) "ref" p) /\
      tied_accuracy m =
        match tied_stats with
        | [] => Fin 0
        | _ :: _ => Fin (INR (accurate_count tied_stats) /
                         INR (List.length tied_stats))
        end.
Proof.
  destruct (C10_other_types_are_tied other_type_dataset) as [Hreturns Hrun].
  - reflexivity.
  - destruct Hreturns as (out & score & E); [reflexivity|].
    exists out, score. split; [exact E|]. exact (Hrun out score E).
Defined.

(** The claim does not hold for every dataset: a group of another type is
    not merged with the group of type "tied" of the same prompt id.  In
    [untyped_rows_swapped] the groups "other:0" and "tied:0" both write
    [tied_stats[0]], the accurate group "tied:0" stays, and [tied_accuracy]
    is 1; with "tied" written for "other" the two rows form one group,
    which is not accurate, and [tied_accuracy] is 0. *)
Lemma C10_counterexample :
  one_tied_type untyped_rows_swapped = false /\
  exists m m',
    score_details untyped_rows_swapped = Ok m /\
    score_details retyped_rows_swapped = Ok m' /\
    tied_accuracy m = Fin 1 /\
    tied_accuracy m' = Fin 0 /\
    overall_score m <> overall_score m'.
Proof.
  split; [reflexivity|].
  eexists; eexists. split; [|split].
  - eval_model. unfold Rmin. decide_R. simpl INR. reflexivity.
  - eval_model. unfold Rmin. decide_R. simpl INR. reflexivity.
  - cbn [tied_accuracy overall_score]. split; [|split].
    + f_equal. lra.
    + f_equal. lra.
    + intros H. injection H as H.
      repeat match goal with
      | _ : context [Rtrigo_def.tanh ?a] |- _ =>
          lazymatch goal with
          | _ : -1 < Rtrigo_def.tanh a < 1 |- _ => fail
          | _ => pose proof (tanh_bounds a)
          end
      end.
      lra.
Qed.

(** Outside the data model the order of the rows can matter: two groups of
    different types other than "ref" with the same prompt id compete for
    one entry of [tied_stats], and the group met last wins. *)
Lemma untyped_rows_order_matters :
  Permutation untyped_rows untyped_rows_swapped /\
  all_typed untyped_rows = false /\
  exists x y,
    overall_of untyped_rows = Some (Fin x) /\
    overall_of untyped_rows_swapped = Some (Fin y) /\
    x < y.
Proof.
  split; [apply perm_swap|]. split; [reflexivity|].
  eexists; eexists. split; [|split].
  - eval_model. unfold Rmin. decide_R. simpl INR. reflexivity.
  - eval_model. unfold Rmin. decide_R. simpl INR. reflexivity.
  - repeat match goal with
    | |- context [Rtrigo_def.tanh ?a] =>
        lazymatch goal with
        | _ : -1 < Rtrigo_def.tanh a < 1 |- _ => fail
        | _ => pose proof (tanh_bounds a)
        end
    end.
    lra.
Qed.

(** The permutation invariance claimed for every dataset fails outside the
    data model: [untyped_rows] and [untyped_rows_swapped] hold the same
    three rows, and [process_single_model] scores them differently, because
    the groups "tied:0" and "other:0" both write [tied_stats[0]] and the one
    met last stays. *)
Lemma C5_counterexample :
  Permutation untyped_rows untyped_rows_swapped /\
  exists out out' x y,
    process_single_model (mkDataset untyped_rows []) = Ok (out, Fin x) /\
    process_single_model (mkDataset untyped_rows_swapped []) =
      Ok (out', Fin y) /\
    x <> y.
Proof.
  destruct untyped_rows_order_matters as (Hperm & _ & x & y & Ex & Ey & Hlt).
  split; [exact Hperm|].
  unfold overall_of in Ex, Ey.
  destruct (score_details untyped_rows) as [m|e] eqn:Em; [|discriminate].
  destruct (score_details untyped_rows_swapped) as [m'|e] eqn:Em';
    [|discriminate].
  cbn [overall_opt] in Ex, Ey. injection Ex as Ex. injection Ey as Ey.
  exists (packaged (mkDataset untyped_rows [])),
         (packaged (mkDataset untyped_rows_swapped [])), x, y.
  split; [|split].
  - rewrite <- Ex. apply process_single_model_Ok. exact Em.
  - rewrite <- Ey. apply process_single_model_Ok. exact Em'.
  - lra.
Qed.

(** * Further properties of the ties scorer *)

Import Variation.

(** X1.  The grouping loop of [process_single_model] accumulates across
    rows: when every row can be read, it ends with a dict whose keys are
    distinct and in which the entry of a (type, prompt) pair is the list of
    the labelled scores of all rows with that pair, in the order of the rows
    and of their score entries; a pair without a score has no entry, and no
    entry is empty. *)
Theorem grouping_accumulates (ds : list Sample) :
  rows_ok ds = true ->
  exists g,
    group_samples ds = Ok g /\
    NoDup (Dict.keys g) /\
    (forall k, Dict.get key_eqb g k =
               match group_of ds k with
               | [] => None
               | x :: l => Some (x :: l)
               end) /\
    (forall k l, In (k, l) g -> l = group_of ds k /\ l <> []).
Proof.
  intros Hrows. destruct (group_samples_Ok ds Hrows) as (g & E & Hnd & Hget).
  exists g. split; [exact E|]. split; [exact Hnd|]. split.
  - intros k. rewrite Hget. destruct (group_of ds k); reflexivity.
  - intros k l Hin. apply (In_get_Some key_eqb_eq) in Hin; [|exact Hnd].
    rewrite Hget in Hin. apply merge_None_Some in Hin as [<- Hne]. auto.
Qed.

Lemma grouping_accumulates_witness :
  exists g,
    group_samples example_rows = Ok g /\
    NoDup (Dict.keys g) /\
    (forall k, Dict.get key_eqb g k =
               match group_of example_rows k with
               | [] => None
               | x :: l => Some (x :: l)
               end) /\
    (forall k l, In (k, l) g -> l = group_of example_rows k /\ l <> []).
Proof. apply (@grouping_accumulates example_rows). reflexivity. Defined.

Lemma group_loop_IndexError (ds : list Sample) (g : groups) :
  forallb (fun s => match parse_id (id s) with Ok _ => true | Raise _ => false end)
          ds = true ->
  rows_ok ds = false ->
  for_each add_sample ds g = Raise IndexError.
Proof.
  unfold rows_ok. revert g.
  induction ds as [|s ds IH]; intros g Hparse Hbad; simpl in *; [discriminate|].
  apply andb_true_iff in Hparse as [Hp Hparse].
  destruct (parse_id (id s)) as [k|e] eqn:Hk; [|discriminate].
  destruct (row_ok s) eqn:Hs; simpl in Hbad.
  - unfold row_ok in Hs. rewrite Hk in Hs.
    destruct (add_sample_Ok g s Hk Hs) as (g1 & E1 & _).
    rewrite E1. simpl. apply IH; assumption.
  - unfold row_ok in Hs. rewrite Hk in Hs.
    unfold add_sample. rewrite Hk. destruct k as [t p]. simpl.
    rewrite <- (forallb_enumerate readable) in Hs.
    rewrite (@inner_loop_Raise (t, p) (num_correct s) (enumerate (scores s)) g Hs).
    reflexivity.
Qed.

(** X2.  An empty score entry is an error of the grouping loop: when every
    id can be parsed and some row has the empty list among its score entries,
    [process_single_model] raises IndexError (from [s[0]]), whatever the
    other rows hold. *)
Theorem empty_score_entry_raises (d : Dataset) (s : Sample) :
  forallb (fun s' => match parse_id (id s') with Ok _ => true | Raise _ => false end)
          (rows d) = true ->
  In s (rows d) ->
  In (Listed []) (scores s) ->
  process_single_model d = Raise IndexError.
Proof.
  intros Hparse Hin Hempty.
  apply process_single_model_Raise.
  unfold score_details, group_samples.
  rewrite (group_loop_IndexError (rows d) [] Hparse); [reflexivity|].
  destruct (rows_ok (rows d)) eqn:E; [|reflexivity].
  unfold rows_ok in E. rewrite forallb_forall in E. specialize (E s Hin).
  unfold row_ok in E. destruct (parse_id (id s)); [|discriminate].
  rewrite forallb_forall in E. specialize (E _ Hempty). discriminate.
Qed.

Lemma empty_score_entry_raises_witness :
  process_single_model empty_entry_dataset = Raise IndexError.
Proof.
  apply (@empty_score_entry_raises empty_entry_dataset
           (mkSample "ref:0" 1 [Scalar 5; Listed []])).
  - reflexivity.
  - left. reflexivity.
  - right. left. reflexivity.
Defined.

(** X3.  A tied group with a single correct answer breaks the metrics: when
    the rows can be read, every type is "ref" or "tied" and every group has
    both a correct and an incorrect score, but some prompt that has both a
    reference and a tied group has fewer than two correct answers in its tied
    group, then [process_single_model] raises TypeError (the margin of that
    group is [None], and the comparison or the division on it fails). *)
Theorem single_correct_tie_raises (d : Dataset) :
  rows_ok (rows d) = true ->
  all_typed (rows d) = true ->
  groups_ok (rows d) = true ->
  (exists p, paired (rows d) p = true /\
             (List.length (correct_scores (group_of (rows d) ("tied"%string, p))) < 2)%nat) ->
  process_single_model d = Raise TypeError.
Proof.
  intros Hrows Hty Hgr (p & Hp & Hlen).
  apply process_single_model_Raise.
  destruct (score_details_metrics (rows d) Hrows Hty Hgr)
    as (r & t & _ & _ & Gr & Gt & E).
  rewrite E. apply (metrics_ties_bad (rows d) r t Hgr Gr Gt).
  destruct (ties_ok (rows d)) eqn:Et; [|reflexivity].
  rewrite ties_ok_iff in Et. specialize (Et p).
  unfold paired in Hp. apply andb_true_iff in Hp as [H1 H2].
  apply negb_true_iff in H1, H2. unfold tie_ok in Et. rewrite H1, H2 in Et.
  cbn [orb] in Et. apply Nat.leb_le in Et. lia.
Qed.

Lemma single_correct_tie_raises_witness :
  process_single_model single_correct_tie_dataset = Raise TypeError.
Proof.
  apply (@single_correct_tie_raises single_correct_tie_dataset);
    try reflexivity.
  exists 0%Z. split; [reflexivity|]. simpl. lia.
Defined.

(** Inversion of a run that returns. *)
Lemma metrics_inv (r t : stats_dict) (m : Metrics) :
  metrics r t = Ok m ->
  m = mkMetrics (accuracy r) (accuracy t)
        (mean_bool (map (preferred_at t) (common_prompts r t)))
        (mean_bool (map (hard_at r t) (common_prompts r t)))
        (map (margin_at r t) (common_prompts r t))
        (mean (map (margin_at r t) (common_prompts r t)))
        (weighted (accuracy t) (accuracy r)
           (mean_bool (map (preferred_at t) (common_prompts r t)))
           (mean_bool (map (hard_at r t) (common_prompts r t)))
           (mean (map (margin_at r t) (common_prompts r t)))).
Proof.
  intros E. unfold metrics in E.
  destruct (spreads_defined t (common_prompts r t)) eqn:Hdef.
  - unfold spreads_defined in Hdef. rewrite forallb_forall in Hdef.
    rewrite metrics_over_Ok in E; [congruence|].
    intros p Hp. pose proof Hp as Hc.
    apply common_prompts_In in Hc as [H1 H2].
    split; [exact H1|]. split; [exact H2|]. specialize (Hdef p Hp).
    destruct (different_correct_margin (stat t p)); congruence.
  - unfold spreads_defined in Hdef.
    apply forallb_false_exists in Hdef as (p & Hp & Hnone).
    rewrite metrics_over_Raise in E; [discriminate| |].
    + intros q Hq. apply common_prompts_In. exact Hq.
    + exists p. split; [exact Hp|].
      destruct (different_correct_margin (stat t p)); congruence.
Qed.

Lemma score_details_inv (ds : list Sample) (m : Metrics) :
  score_details ds = Ok m -> exists r t, metrics r t = Ok m.
Proof.
  unfold score_details. intros E.
  destruct (group_samples ds) as [g|e]; [|discriminate]. cbn [bind] in E.
  destruct (prompt_stats g) as [[r t]|e]; [|discriminate]. cbn [bind] in E.
  exists r, t. exact E.
Qed.

Lemma hard_implies_preferred (r t : stats_dict) (p : Z) :
  hard_at r t p = true -> preferred_at t p = true.
Proof.
  unfold hard_at, preferred_at, min_margin. rewrite !Rgtb_true_iff.
  intros H.
  pose proof (Rmin_r (correct_incorrect_margin (stat r p))
                     (correct_incorrect_margin (stat t p))).
  lra.
Qed.

Lemma sum_le_pointwise {A : Type} (f g : A -> R) (l : list A) :
  (forall a, In a l -> f a <= g a) -> sum (map f l) <= sum (map g l).
Proof.
  induction l as [|a l IH]; intros H; simpl; [lra|].
  pose proof (H a (or_introl eq_refl)).
  assert (sum (map f l) <= sum (map g l)) by (apply IH; intros; apply H; right; auto).
  lra.
Qed.

Lemma mean_le_pointwise {A : Type} (f g : A -> R) (l : list A) :
  l <> [] ->
  (forall a, In a l -> f a <= g a) ->
  exists x y, mean (map f l) = Fin x /\ mean (map g l) = Fin y /\ x <= y.
Proof.
  intros Hne H. destruct l as [|a l]; [congruence|].
  eexists; eexists. split; [reflexivity|]. split; [reflexivity|].
  rewrite !length_map.
  assert (Hn : 0 < INR (List.length (a :: l))) by (apply lt_0_INR; simpl; lia).
  pose proof (sum_le_pointwise f g (a :: l) H) as Hs.
  apply div_le; [exact Hn|].
  unfold Rdiv. rewrite Rmult_assoc, Rinv_l, Rmult_1_r by lra. exact Hs.
Qed.

(** X4.  Whenever the metrics are computed, the rate of prompts on which
    correctness is preferred by the hard test (against the worst reference
    margin) is at most the rate by the plain test, and both lie in [0, 1];
    without a common prompt both are NaN. *)
Theorem hard_rate_at_most_preferred_rate (ds : list Sample) (m : Metrics) :
  score_details ds = Ok m ->
  (margin_scores m = [] /\
   correctness_preferred m = NaN /\ correctness_preferred_hard m = NaN) \/
  (exists cp cph,
     correctness_preferred m = Fin cp /\
     correctness_preferred_hard m = Fin cph /\
     0 <= cph <= cp /\ cp <= 1).
Proof.
  intros E. apply score_details_inv in E as (r & t & E).
  apply metrics_inv in E. subst m. cbn.
  destruct (common_prompts r t) as [|p ps] eqn:Eps.
  - left. auto.
  - right. rewrite <- Eps.
    assert (Hne : common_prompts r t <> []) by (rewrite Eps; discriminate).
    clear Eps.
    destruct (@mean_bool_bounds (map (preferred_at t) (common_prompts r t)))
      as (cp & Ecp & Hcp).
    { intros Hnil. apply map_eq_nil in Hnil. contradiction. }
    destruct (@mean_bool_bounds (map (hard_at r t) (common_prompts r t)))
      as (cph & Ecph & Hcph).
    { intros Hnil. apply map_eq_nil in Hnil. contradiction. }
    exists cp, cph. split; [exact Ecp|]. split; [exact Ecph|].
    split; [|lra]. split; [lra|].
    destruct (@mean_le_pointwise Z (fun p => of_bool (hard_at r t p))
                (fun p => of_bool (preferred_at t p)) (common_prompts r t) Hne)
      as (x & y & Ex & Ey & Hxy).
    { intros a _. destruct (hard_at r t a) eqn:Eh.
      - rewrite (hard_implies_preferred r t a Eh). simpl. lra.
      - destruct (preferred_at t a); simpl; lra. }
    unfold mean_bool in Ecp, Ecph. rewrite map_map in Ecp, Ecph.
    rewrite Ex in Ecph. rewrite Ey in Ecp.
    injection Ecp as <-. injection Ecph as <-. exact Hxy.
Qed.

Lemma hard_rate_at_most_preferred_rate_witness :
  exists m,
    score_details example_rows = Ok m /\
    ((margin_scores m = [] /\
      correctness_preferred m = NaN /\ correctness_preferred_hard m = NaN) \/
     (exists cp cph,
        correctness_preferred m = Fin cp /\
        correctness_preferred_hard m = Fin cph /\
        0 <= cph <= cp /\ cp <= 1)).
Proof.
  destruct (valid_dataset_scored example_rows eq_refl)
    as (r & t & _ & _ & _ & E).
  eexists. split; [exact E|].
  apply (@hard_rate_at_most_preferred_rate example_rows _ E).
Defined.

(** Idempotence of packaging. *)
Lemma filter_not_results_id (cols : list (string * list cell)) :
  Dict.get String.eqb cols "results"%string = None ->
  filter not_results cols = cols.
Proof.
  induction cols as [|[k0 v0] cols IH]; [reflexivity|].
  cbn [Dict.get filter]. unfold not_results at 1. cbn [fst existsb].
  rewrite orb_false_r.
  destruct (String.eqb "results" k0) eqn:E; [discriminate|].
  rewrite String.eqb_sym, E. cbn [negb]. intros H. rewrite IH; auto.
Qed.

Lemma filter_not_results_app (cols : list (string * list cell))
  (col : list cell) :
  filter not_results (cols ++ [("results"%string, col)]) =
  filter not_results cols.
Proof.
  rewrite filter_app. cbn [filter]. unfold not_results at 2.
  cbn [fst existsb]. rewrite String.eqb_refl. cbn. apply app_nil_r.
Qed.

Lemma packaged_idempotent (d : Dataset) : packaged (packaged d) = packaged d.
Proof.
  destruct (package_Ok d) as (_ & Hnone & _).
  unfold packaged at 1.
  assert (Hhas : has_column (packaged d) "results"%string = true).
  { rewrite has_column_results.
    destruct (packaged_frame d) as (_ & -> & _). reflexivity. }
  rewrite Hhas. unfold remove_columns. cbn [columns rows].
  change (fun c : string * list cell =>
            negb (existsb (String.eqb (fst c)) ["results"%string]))
    with not_results.
  unfold packaged at 2 3. cbn [columns rows].
  rewrite filter_not_results_app.
  unfold column in Hnone. rewrite (filter_not_results_id _ Hnone).
  reflexivity.
Qed.

(** X6.  [process_single_model] is idempotent: run on its own output
    dataset it returns that dataset and the same overall score again (the
    old "results" column is removed and added back). *)
Theorem process_single_model_idempotent (d out : Dataset) (score : npfloat) :
  process_single_model d = Ok (out, score) ->
  process_single_model out = Ok (out, score).
Proof.
  intros E. apply process_single_model_inv in E as (-> & m & Em & ->).
  assert (Em' : score_details (rows (packaged d)) = Ok m) by exact Em.
  rewrite (process_single_model_Ok (packaged d) Em').
  rewrite packaged_idempotent. reflexivity.
Qed.

Lemma process_single_model_idempotent_witness :
  exists out score,
    process_single_model example_dataset = Ok (out, score) /\
    process_single_model out = Ok (out, score).
Proof.
  destruct (valid_dataset_scored (rows example_dataset) eq_refl)
    as (r & t & _ & _ & _ & E).
  eexists; eexists. split.
  - apply (@process_single_model_Ok example_dataset _ E).
  - apply (@process_single_model_idempotent example_dataset).
    apply (@process_single_model_Ok example_dataset _ E).
Defined.

(** X7.  For every valid dataset in which no prompt has both a reference
    and a tied group, [process_single_model] returns normally, with the
    "results" column of [None] and the overall score NaN. *)
Theorem unpaired_dataset_scores_nan (d : Dataset) :
  valid_dataset (rows d) = true ->
  (forall p, paired (rows d) p = false) ->
  process_single_model d = Ok (packaged d, NaN).
Proof.
  intros Hvalid Hnone.
  destruct (valid_dataset_scored _ Hvalid) as (r & t & _ & _ & Hcommon & E).
  assert (Hnil : common_prompts r t = []).
  { destruct (common_prompts r t) as [|p ps]; [reflexivity|].
    assert (Hp : paired (rows d) p = true) by (apply Hcommon; left; reflexivity).
    rewrite Hnone in Hp. discriminate. }
  rewrite (process_single_model_Ok d E). cbn [overall_score].
  rewrite Hnil. cbn [map]. f_equal. f_equal.
  destruct (accuracy_bounds t) as (ta & -> & _).
  destruct (accuracy_bounds r) as (ra & -> & _).
  reflexivity.
Qed.

Lemma unpaired_dataset_scores_nan_witness :
  process_single_model ref_only_dataset = Ok (packaged ref_only_dataset, NaN).
Proof.
  apply (@unpaired_dataset_scores_nan ref_only_dataset).
  - reflexivity.
  - intros p. unfold paired.
    change (group_of (rows ref_only_dataset) ("tied"%string, p))
      with (@nil (bool * R)).
    apply andb_false_r.
Defined.

(** X8.  The margin between the correct answers that [_compute_prompt_stats]
    returns is never negative, and it is 0 exactly when all correct scores
    are equal. *)
Theorem spread_nonnegative (samples : list (bool * R)) (stats : PromptStats)
  (d : R) :
  _compute_prompt_stats samples = Ok stats ->
  different_correct_margin stats = Some d ->
  0 <= d /\
  (d = 0 <-> forall x y, In x (correct_scores samples) ->
                         In y (correct_scores samples) -> x = y).
Proof.
  intros E Hd.
  destruct (well_formed samples) eqn:Hwf.
  - apply well_formed_true in Hwf as [Hc Hi].
    destruct (compute_prompt_stats_Ok samples Hc Hi)
      as (bc & wc & bi & [Hbc1 Hbc2] & [Hwc1 Hwc2] & _ & E').
    rewrite E' in E. injection E as <-.
    cbn [different_correct_margin] in Hd.
    destruct (1 <? List.length (correct_scores samples))%nat; [|discriminate].
    injection Hd as <-.
    pose proof (Hbc2 wc Hwc1). split; [lra|]. split.
    + intros H0 x y Hx Hy.
      pose proof (Hbc2 x Hx). pose proof (Hwc2 x Hx).
      pose proof (Hbc2 y Hy). pose proof (Hwc2 y Hy). lra.
    + intros Hall. rewrite (Hall bc wc Hbc1 Hwc1). lra.
  - apply well_formed_false in Hwf.
    rewrite (compute_prompt_stats_Raise _ Hwf) in E. discriminate.
Qed.

Lemma spread_nonnegative_witness :
  exists stats d,
    _compute_prompt_stats example_tied_group = Ok stats /\
    different_correct_margin stats = Some d /\
    0 <= d /\
    (d = 0 <-> forall x y, In x (correct_scores example_tied_group) ->
                           In y (correct_scores example_tied_group) -> x = y).
Proof.
  destruct (@compute_prompt_stats_Ok example_tied_group)
    as (bc & wc & bi & _ & _ & _ & E); try (simpl; discriminate).
  eexists; eexists. split; [exact E|]. split; [reflexivity|].
  apply (@spread_nonnegative example_tied_group _ _ E). reflexivity.
Defined.

(** X9.  [_compute_prompt_stats] does not depend on the order of its
    samples: a permutation of the list gives the same statistics, or the same
    exception. *)
Theorem prompt_stats_order_irrelevant (samples samples' : list (bool * R)) :
  Permutation samples samples' ->
  _compute_prompt_stats samples' = _compute_prompt_stats samples.
Proof.
  intros H. symmetry. apply compute_prompt_stats_Permutation. exact H.
Qed.

Lemma prompt_stats_order_irrelevant_witness :
  _compute_prompt_stats (rev example_tied_group) =
  _compute_prompt_stats example_tied_group.
Proof.
  apply (@prompt_stats_order_irrelevant example_tied_group).
  apply Permutation_rev.
Defined.

(** ** Affine changes of the score scale *)

Section MapValues.

Variables (K V W : Type) (eqb : K -> K -> bool) (h : V -> W).

Lemma get_map_values (d : Dict.dict K V) (k : K) :
  Dict.get eqb (map_values h d) k = option_map h (Dict.get eqb d k).
Proof.
  induction d as [|[k0 v0] d IH]; simpl; [reflexivity|].
  destruct (eqb k k0); auto.
Qed.

Lemma set_map_values (d : Dict.dict K V) (k : K) (v : V) :
  Dict.set eqb (map_values h d) k (h v) = map_values h (Dict.set eqb d k v).
Proof.
  induction d as [|[k0 v0] d IH]; simpl; [reflexivity|].
  destruct (eqb k k0); simpl; [reflexivity|]. rewrite IH. reflexivity.
Qed.

Lemma keys_map_values (d : Dict.dict K V) :
  Dict.keys (map_values h d) = Dict.keys d.
Proof. unfold Dict.keys, map_values. rewrite map_map. reflexivity. Qed.

Lemma mem_map_values (d : Dict.dict K V) (k : K) :
  Dict.mem eqb (map_values h d) k = Dict.mem eqb d k.
Proof.
  unfold Dict.mem. rewrite get_map_values.
  destruct (Dict.get eqb d k); reflexivity.
Qed.

End MapValues.

Lemma for_each_rmap {A S : Type} (h : S -> S) (body body' : S -> A -> result S)
  (l : list A) (st : S) :
  (forall st a, body' (h st) a = rmap h (body st a)) ->
  for_each body' l (h st) = rmap h (for_each body l st).
Proof.
  intros H. revert st. induction l as [|a l IH]; intros st; [reflexivity|].
  simpl. rewrite H. destruct (body st a); simpl; auto.
Qed.

Lemma for_list_rmap {A B : Type} (h : B -> B) (f f' : A -> result B)
  (l : list A) :
  (forall a, f' a = rmap h (f a)) ->
  for_list f' l = rmap (map h) (for_list f l).
Proof.
  intros H. induction l as [|a l IH]; [reflexivity|].
  simpl. rewrite H, IH. destruct (f a); simpl; [|reflexivity].
  destruct (for_list f l); reflexivity.
Qed.

Section Rescale.

Variables c b : R.
Hypothesis Hc : 0 < c.

Local Abbreviation f := (rescale c b).
Local Abbreviation rg := (rescale_groups c b).
Local Abbreviation sd := (scale_stats_dict c).

Lemma rescale_gt (x y : R) : f x > f y <-> x > y.
Proof. unfold rescale. split; intros; nra. Qed.

Lemma rescale_lt (x y : R) : f x < f y <-> x < y.
Proof. unfold rescale. split; intros; nra. Qed.

Lemma fold_max_rescale (l : list R) (x : R) :
  fold_left (fun m y => if Rgt_dec y m then y else m) (map f l) (f x) =
  f (fold_left (fun m y => if Rgt_dec y m then y else m) l x).
Proof.
  revert x; induction l as [|a l IH]; intros x; [reflexivity|].
  simpl. destruct (Rgt_dec (f a) (f x)) as [H|H], (Rgt_dec a x) as [H'|H'];
    try apply IH; exfalso.
  - apply H'. apply (proj1 (rescale_gt a x)). exact H.
  - apply H. apply (proj2 (rescale_gt a x)). exact H'.
Qed.

Lemma fold_min_rescale (l : list R) (x : R) :
  fold_left (fun m y => if Rlt_dec y m then y else m) (map f l) (f x) =
  f (fold_left (fun m y => if Rlt_dec y m then y else m) l x).
Proof.
  revert x; induction l as [|a l IH]; intros x; [reflexivity|].
  simpl. destruct (Rlt_dec (f a) (f x)) as [H|H], (Rlt_dec a x) as [H'|H'];
    try apply IH; exfalso.
  - apply H'. apply (proj1 (rescale_lt a x)). exact H.
  - apply H. apply (proj2 (rescale_lt a x)). exact H'.
Qed.

Lemma py_max_rescale (l : list R) : py_max (map f l) = rmap f (py_max l).
Proof.
  destruct l as [|x l]; [reflexivity|]. simpl. rewrite fold_max_rescale.
  reflexivity.
Qed.

Lemma py_min_rescale (l : list R) : py_min (map f l) = rmap f (py_min l).
Proof.
  destruct l as [|x l]; [reflexivity|]. simpl. rewrite fold_min_rescale.
  reflexivity.
Qed.

Lemma correct_scores_rescale (l : list (bool * R)) :
  correct_scores (map (rescale_pair c b) l) = map f (correct_scores l).
Proof.
  unfold correct_scores. induction l as [|[i x] l IH]; [reflexivity|].
  simpl. destruct i; simpl; rewrite IH; reflexivity.
Qed.

Lemma incorrect_scores_rescale (l : list (bool * R)) :
  incorrect_scores (map (rescale_pair c b) l) = map f (incorrect_scores l).
Proof.
  unfold incorrect_scores. induction l as [|[i x] l IH]; [reflexivity|].
  simpl. destruct i; simpl; rewrite IH; reflexivity.
Qed.

Lemma Rgtb_scale (x : R) : Rgtb (c * x) 0 = Rgtb x 0.
Proof.
  unfold Rgtb. destruct (Rgt_dec (c * x) 0), (Rgt_dec x 0);
    try reflexivity; exfalso; nra.
Qed.

Lemma Rgtb_scale2 (x y : R) : Rgtb (c * x) (c * y) = Rgtb x y.
Proof.
  unfold Rgtb. destruct (Rgt_dec (c * x) (c * y)), (Rgt_dec x y);
    try reflexivity; exfalso; nra.
Qed.

Lemma compute_prompt_stats_rescale (l : list (bool * R)) :
  _compute_prompt_stats (map (rescale_pair c b) l) =
  rmap (scale_stats c) (_compute_prompt_stats l).
Proof.
  unfold _compute_prompt_stats.
  rewrite correct_scores_rescale, incorrect_scores_rescale.
  rewrite py_max_rescale, py_min_rescale, py_max_rescale, length_map.
  destruct (py_max (correct_scores l)) as [bc|e]; [|reflexivity].
  destruct (py_min (correct_scores l)) as [wc|e]; [|reflexivity].
  destruct (py_max (incorrect_scores l)) as [bi|e]; [|reflexivity].
  cbn [rmap bind]. unfold scale_stats.
  cbn [accurate different_correct_margin correct_incorrect_margin]. f_equal.
  replace (f wc - f bi) with (c * (wc - bi)) by (unfold rescale; ring).
  replace (f bc - f wc) with (c * (bc - wc)) by (unfold rescale; ring).
  rewrite Rgtb_scale.
  destruct (1 <? List.length (correct_scores l))%nat; reflexivity.
Qed.

Lemma unwrap_rescale (raw : raw_score) :
  unwrap (rescale_raw c b raw) = rmap f (unwrap raw).
Proof. destruct raw as [x|[|x l]]; reflexivity. Qed.

Lemma append_rescale (g : groups) (k : key) (x : bool * R) :
  append (rg g) k (rescale_pair c b x) = rg (append g k x).
Proof.
  unfold append, rescale_groups. rewrite get_map_values.
  destruct (Dict.get key_eqb g k) as [l|]; cbn [option_map].
  - rewrite <- set_map_values. rewrite map_app. reflexivity.
  - rewrite <- set_map_values. reflexivity.
Qed.

Lemma add_score_rescale (k : key) (nc : Z) (g : groups) (i : nat)
  (raw : raw_score) :
  add_score k nc (rg g) (i, rescale_raw c b raw) =
  rmap rg (add_score k nc g (i, raw)).
Proof.
  unfold add_score. cbn [fst snd]. rewrite unwrap_rescale.
  destruct (unwrap raw) as [x|e]; [|reflexivity].
  cbn [rmap bind]. f_equal.
  apply (append_rescale g k ((Z.of_nat i <? nc)%Z, x)).
Qed.

Lemma inner_loop_rescale (k : key) (nc : Z) (l : list raw_score) (n : nat)
  (g : groups) :
  for_each (add_score k nc)
    (combine (seq n (List.length (map (rescale_raw c b) l)))
             (map (rescale_raw c b) l)) (rg g) =
  rmap rg (for_each (add_score k nc) (combine (seq n (List.length l)) l) g).
Proof.
  revert n g. induction l as [|raw l IH]; intros n g; [reflexivity|].
  cbn [map List.length seq combine for_each].
  rewrite (add_score_rescale k nc g n raw).
  destruct (add_score k nc g (n, raw)) as [g1|e]; [|reflexivity].
  cbn [rmap bind]. apply IH.
Qed.

Lemma add_sample_rescale (g : groups) (s : Sample) :
  add_sample (rg g) (rescale_sample c b s) = rmap rg (add_sample g s).
Proof.
  unfold add_sample. cbn [id num_correct scores rescale_sample].
  destruct (parse_id (id s)) as [[t p]|e]; [|reflexivity].
  cbn [bind]. apply inner_loop_rescale.
Qed.

Lemma group_samples_rescale (ds : list Sample) :
  group_samples (map (rescale_sample c b) ds) = rmap rg (group_samples ds).
Proof.
  unfold group_samples.
  assert (H : forall (l : list Sample) (g : groups),
            for_each add_sample (map (rescale_sample c b) l) (rg g) =
            rmap rg (for_each add_sample l g)).
  { induction l as [|s l IH]; intros g; [reflexivity|].
    cbn [map for_each]. rewrite add_sample_rescale.
    destruct (add_sample g s); cbn [rmap bind]; auto. }
  apply (H ds []).
Qed.

Lemma add_stats_rescale (st : stats_dict * stats_dict)
  (item : key * list (bool * R)) :
  add_stats (sd (fst st), sd (snd st))
            (fst item, map (rescale_pair c b) (snd item)) =
  rmap (fun st' => (sd (fst st'), sd (snd st'))) (add_stats st item).
Proof.
  destruct st as [r t], item as [[ty p] l]. unfold add_stats. cbn [fst snd].
  rewrite compute_prompt_stats_rescale.
  destruct (_compute_prompt_stats l) as [s|e]; [|reflexivity].
  cbn [rmap bind]. unfold scale_stats_dict.
  destruct (String.eqb ty "ref"); cbn [rmap fst snd];
    rewrite set_map_values; reflexivity.
Qed.

Lemma prompt_stats_rescale (g : groups) :
  prompt_stats (rg g) =
  rmap (fun st' => (sd (fst st'), sd (snd st'))) (prompt_stats g).
Proof.
  unfold prompt_stats.
  assert (H : forall (l : groups) (st : stats_dict * stats_dict),
            for_each add_stats (rg l) (sd (fst st), sd (snd st)) =
            rmap (fun st' => (sd (fst st'), sd (snd st')))
                 (for_each add_stats l st)).
  { induction l as [|item l IH]; intros st; [reflexivity|].
    unfold rescale_groups. cbn [map_values map for_each].
    rewrite (add_stats_rescale st item).
    destruct (add_stats st item) as [st1|e]; [|reflexivity].
    cbn [rmap bind]. apply IH. }
  apply (H g ([], [])).
Qed.

Lemma accuracy_scale (d : stats_dict) : accuracy (sd d) = accuracy d.
Proof.
  unfold accuracy, scale_stats_dict. destruct d as [|x d]; [reflexivity|].
  cbn [map_values map]. unfold Dict.values. cbn [map snd].
  f_equal. rewrite !map_map. reflexivity.
Qed.

Lemma common_prompts_scale (r t : stats_dict) :
  common_prompts (sd r) (sd t) = common_prompts r t.
Proof.
  unfold common_prompts, scale_stats_dict. rewrite keys_map_values.
  apply filter_ext. intros p. apply mem_map_values.
Qed.

Lemma getitem_scale (d : stats_dict) (p : Z) :
  getitem (sd d) p = rmap (scale_stats c) (getitem d p).
Proof.
  unfold getitem, scale_stats_dict. rewrite get_map_values.
  destruct (Dict.get Z.eqb d p); reflexivity.
Qed.

Lemma gt_margin_scale (xs : list R) (ds : list (option R)) :
  elementwise gt_margin (map (Rmult c) xs) (map (option_map (Rmult c)) ds) =
  elementwise gt_margin xs ds.
Proof.
  revert ds. induction xs as [|x xs IH]; intros [|d ds]; try reflexivity.
  cbn [map elementwise]. rewrite IH.
  destruct d as [y|]; [|reflexivity]. cbn [option_map gt_margin].
  rewrite Rgtb_scale2. reflexivity.
Qed.

Lemma minimum_scale (xs ys : list R) :
  minimum (map (Rmult c) xs) (map (Rmult c) ys) = map (Rmult c) (minimum xs ys).
Proof.
  revert ys. induction xs as [|x xs IH]; intros [|y ys]; try reflexivity.
  cbn [map minimum]. rewrite IH. f_equal.
  unfold Rmin. destruct (Rle_dec (c * x) (c * y)), (Rle_dec x y);
    try reflexivity; exfalso; nra.
Qed.

Lemma sgn_scale (x : R) : sgn (c * x) = sgn x.
Proof.
  unfold sgn.
  destruct (Rlt_dec 0 (c * x)), (Rlt_dec 0 x); try reflexivity;
    try (exfalso; nra).
  destruct (Rlt_dec (c * x) 0), (Rlt_dec x 0); try reflexivity; exfalso; nra.
Qed.

Lemma normalised_gap_scale (xs : list R) (ds : list (option R)) :
  elementwise normalised_gap (map (Rmult c) xs)
                             (map (option_map (Rmult c)) ds) =
  elementwise normalised_gap xs ds.
Proof.
  revert ds. induction xs as [|x xs IH]; intros [|d ds]; try reflexivity.
  cbn [map elementwise]. rewrite IH.
  destruct d as [y|]; [|reflexivity]. cbn [option_map normalised_gap].
  replace (div (Fin (c * x)) (Fin (c * y))) with (div (Fin x) (Fin y));
    [reflexivity|].
  unfold div. destruct (Req_dec_T (c * y) 0), (Req_dec_T y 0).
  - rewrite sgn_scale. reflexivity.
  - exfalso. nra.
  - exfalso. subst. lra.
  - f_equal. field. split; lra.
Qed.

Lemma metrics_scale (r t : stats_dict) : metrics (sd r) (sd t) = metrics r t.
Proof.
  unfold metrics. rewrite common_prompts_scale.
  generalize (common_prompts r t) as ps. intros ps.
  unfold metrics_over. rewrite !accuracy_scale.
  rewrite (for_list_rmap (option_map (Rmult c))
             (fun pid => s <- getitem t pid ;; Ok (different_correct_margin s))).
  2:{ intros p. rewrite getitem_scale. destruct (getitem t p); reflexivity. }
  destruct (for_list (fun pid => s <- getitem t pid ;;
                                 Ok (different_correct_margin s)) ps)
    as [ds|e]; [|reflexivity].
  cbn [rmap bind].
  rewrite (for_list_rmap (Rmult c)
             (fun pid => s <- getitem t pid ;; Ok (correct_incorrect_margin s))).
  2:{ intros p. rewrite getitem_scale. destruct (getitem t p); reflexivity. }
  destruct (for_list (fun pid => s <- getitem t pid ;;
                                 Ok (correct_incorrect_margin s)) ps)
    as [ts|e]; [|reflexivity].
  cbn [rmap bind].
  rewrite (for_list_rmap (Rmult c)
             (fun pid => s <- getitem r pid ;; Ok (correct_incorrect_margin s))).
  2:{ intros p. rewrite getitem_scale. destruct (getitem r p); reflexivity. }
  destruct (for_list (fun pid => s <- getitem r pid ;;
                                 Ok (correct_incorrect_margin s)) ps)
    as [rs|e]; [|reflexivity].
  cbn [rmap bind].
  rewrite minimum_scale, !gt_margin_scale, normalised_gap_scale.
  reflexivity.
Qed.

Lemma score_details_rescale (ds : list Sample) :
  score_details (map (rescale_sample c b) ds) = score_details ds.
Proof.
  unfold score_details. rewrite group_samples_rescale.
  destruct (group_samples ds) as [g|e]; [|reflexivity].
  cbn [rmap bind]. rewrite prompt_stats_rescale.
  destruct (prompt_stats g) as [[r t]|e]; [|reflexivity].
  cbn [rmap bind fst snd]. apply metrics_scale.
Qed.

End Rescale.

(** X5.  The metrics do not depend on the scale of the scores: replacing
    every score [x] of a dataset by [c * x + b] with [c > 0] leaves every
    metric of [process_single_model], the overall score and the exception
    it may raise unchanged (in exact arithmetic). *)
Theorem score_invariant_under_affine_rescaling (c b : R) (d : Dataset) :
  0 < c ->
  score_details (rows (rescale_dataset c b d)) = score_details (rows d) /\
  rmap snd (process_single_model (rescale_dataset c b d)) =
  rmap snd (process_single_model d).
Proof.
  intros Hc.
  assert (E : score_details (rows (rescale_dataset c b d)) =
              score_details (rows d)) by (apply score_details_rescale; exact Hc).
  split; [exact E|].
  destruct (score_details (rows d)) as [m|e] eqn:Em.
  - rewrite (process_single_model_Ok _ E), (process_single_model_Ok _ Em).
    reflexivity.
  - rewrite (process_single_model_Raise _ E), (process_single_model_Raise _ Em).
    reflexivity.
Qed.

Lemma score_invariant_under_affine_rescaling_witness :
  score_details (rows (rescale_dataset 2 (-3) example_dataset)) =
  score_details (rows example_dataset) /\
  rmap snd (process_single_model (rescale_dataset 2 (-3) example_dataset)) =
  rmap snd (process_single_model example_dataset).
Proof.
  apply (@score_invariant_under_affine_rescaling 2 (-3) example_dataset). lra.
Defined.

(** ** Ids *)

Lemma split_nonempty (c : ascii) (s : string) : PyStr.split c s <> [].
Proof.
  destruct s as [|x r]; simpl; [discriminate|].
  destruct (Ascii.eqb x c); [discriminate|].
  destruct (PyStr.split c r); discriminate.
Qed.

Lemma split_no_sep (c : ascii) (s : string) :
  has_char c s = false -> PyStr.split c s = [s].
Proof.
  induction s as [|x r IH]; simpl; [reflexivity|].
  intros H. apply orb_false_iff in H as [Hx Hr].
  rewrite Hx, (IH Hr). reflexivity.
Qed.

Lemma split_at_sep (c : ascii) (a b : string) :
  has_char c a = false ->
  PyStr.split c (a ++ String c b) = a :: PyStr.split c b.
Proof.
  induction a as [|x r IH]; simpl.
  - intros _. rewrite Ascii.eqb_refl. reflexivity.
  - intros H. apply orb_false_iff in H as [Hx Hr].
    rewrite Hx, (IH Hr). reflexivity.
Qed.

Lemma split_single (c : ascii) (s u : string) :
  PyStr.split c s = [u] -> s = u /\ has_char c u = false.
Proof.
  revert u. induction s as [|x r IH]; intros u; simpl.
  - intros [= <-]. auto.
  - destruct (Ascii.eqb x c) eqn:Ex.
    + intros [= _ H]. exfalso. exact (split_nonempty c r H).
    + destruct (PyStr.split c r) as [|w ws] eqn:Er; [intros [= <-]|].
      * exfalso. exact (split_nonempty c r Er).
      * intros [= <- ->]. destruct (IH w eq_refl) as [-> Hw].
        split; [reflexivity|]. simpl. rewrite Ex, Hw. reflexivity.
Qed.

Lemma split_pair (c : ascii) (s t u : string) :
  PyStr.split c s = [t; u] ->
  s = (t ++ String c u)%string /\
  has_char c t = false /\ has_char c u = false.
Proof.
  revert t. induction s as [|x r IH]; intros t; simpl.
  - discriminate.
  - destruct (Ascii.eqb x c) eqn:Ex.
    + intros [= <- H]. apply Ascii.eqb_eq in Ex. subst x.
      destruct (split_single c r H) as [-> Hu]. auto.
    + destruct (PyStr.split c r) as [|w ws] eqn:Er; [discriminate|].
      intros [= <- ->]. destruct (IH w eq_refl) as (-> & Hw & Hu).
      split; [reflexivity|]. split; [|exact Hu].
      simpl. rewrite Ex, Hw. reflexivity.
Qed.

(** X10.  The ids that the grouping loop accepts: [sample_type, prompt_id =
    id.split(":")] followed by [int(prompt_id)] gives type [t] and prompt [p]
    exactly when the id is [t], one colon, and a text without a colon that
    [int] reads as [p]; [t] holds no colon either. *)
Theorem parse_id_accepts_exactly (s t : string) (p : Z) :
  parse_id s = Ok (t, p) <->
  exists p_str,
    s = (t ++ String ":" p_str)%string /\
    has_char ":" t = false /\
    has_char ":" p_str = false /\
    PyStr.int p_str = Ok p.
Proof.
  split.
  - unfold parse_id.
    destruct (PyStr.split ":" s) as [|t' [|u [|x l]]] eqn:Es; try discriminate.
    destruct (PyStr.int u) as [n|e] eqn:Eu; [|discriminate].
    cbn [bind]. intros [= -> ->].
    destruct (split_pair ":" s Es) as (Hs & Ht & Hu).
    exists u. auto.
  - intros (u & -> & Ht & Hu & Eu). unfold parse_id.
    rewrite (split_at_sep ":" t u Ht), (split_no_sep ":" u Hu), Eu.
    reflexivity.
Qed.

(** * Section scores *)

Section SectionScoreFacts.

Import SectionScores SectionSpec.

Lemma string_get_None {V : Type} (d : Dict.dict string V) (k : string) :
  Dict.mem String.eqb d k = false -> item d k = Raise KeyError.
Proof.
  unfold Dict.mem, item. destruct (Dict.get String.eqb d k); congruence.
Qed.

Lemma add_test_present (ec : Dict.dict string Z) (m : Dict.dict string R)
  (acc : R * Z) (t : string) :
  Dict.mem String.eqb m t = true ->
  Dict.mem String.eqb ec t = true ->
  add_test ec m acc t =
  Ok (fst acc + metric_of m t * IZR (count_of ec t),
      (snd acc + count_of ec t)%Z).
Proof.
  unfold add_test, Dict.mem, item, metric_of, count_of.
  destruct (Dict.get String.eqb m t); [|discriminate].
  destruct (Dict.get String.eqb ec t); [|discriminate]. reflexivity.
Qed.

Lemma add_test_uncounted (ec : Dict.dict string Z) (m : Dict.dict string R)
  (acc : R * Z) (t : string) :
  Dict.mem String.eqb m t = true ->
  Dict.mem String.eqb ec t = false ->
  add_test ec m acc t = Raise KeyError.
Proof.
  unfold add_test, Dict.mem, item.
  destruct (Dict.get String.eqb m t); [|discriminate].
  destruct (Dict.get String.eqb ec t); [discriminate|]. reflexivity.
Qed.

Lemma add_test_absent (ec : Dict.dict string Z) (m : Dict.dict string R)
  (acc : R * Z) (t : string) :
  Dict.mem String.eqb m t = false -> add_test ec m acc t = Ok acc.
Proof. unfold add_test. intros ->. reflexivity. Qed.

Lemma tests_loop_Ok (ec : Dict.dict string Z) (m : Dict.dict string R)
  (tests : list string) (w : R) (n : Z) :
  counted ec m tests = true ->
  for_each (add_test ec m) tests (w, n) =
  Ok (w + weighted_sum ec m tests, (n + examples ec m tests)%Z).
Proof.
  unfold counted, weighted_sum, examples, present.
  revert w n. induction tests as [|t tests IH]; intros w n H.
  - cbn. rewrite Rplus_0_r, Z.add_0_r. reflexivity.
  - cbn [filter for_each] in *.
    destruct (Dict.mem String.eqb m t) eqn:Em.
    + cbn [forallb] in H. apply andb_true_iff in H as [Hc H].
      rewrite (add_test_present ec m (w, n) t Em Hc). cbn [bind fst snd].
      rewrite (IH _ _ H). cbn [map Np.sum fold_right].
      rewrite Rplus_assoc, Z.add_assoc. reflexivity.
    + rewrite (add_test_absent ec m (w, n) t Em). cbn [bind].
      apply IH. exact H.
Qed.

Lemma tests_loop_Raise (ec : Dict.dict string Z) (m : Dict.dict string R)
  (tests : list string) (acc : R * Z) :
  counted ec m tests = false ->
  for_each (add_test ec m) tests acc = Raise KeyError.
Proof.
  unfold counted, present.
  revert acc. induction tests as [|t tests IH]; intros acc H.
  - discriminate.
  - cbn [filter for_each] in *.
    destruct (Dict.mem String.eqb m t) eqn:Em.
    + cbn [forallb] in H.
      destruct (Dict.mem String.eqb ec t) eqn:Ec.
      * rewrite (add_test_present ec m acc t Em Ec). cbn [bind].
        apply IH. exact H.
      * rewrite (add_test_uncounted ec m acc t Em Ec). reflexivity.
    + rewrite (add_test_absent ec m acc t Em). cbn [bind].
      apply IH. exact H.
Qed.

Lemma section_score_Ok (ec : Dict.dict string Z) (m : Dict.dict string R)
  (tests : list string) :
  counted ec m tests = true ->
  section_score ec m tests = Ok (section_value ec m tests).
Proof.
  intros H. unfold section_score, section_value.
  rewrite (tests_loop_Ok ec m tests 0 0%Z H). cbn [bind fst snd].
  rewrite Z.add_0_l, Rplus_0_l.
  destruct (0 <? examples ec m tests)%Z; reflexivity.
Qed.

Lemma section_score_Raise (ec : Dict.dict string Z) (m : Dict.dict string R)
  (tests : list string) :
  counted ec m tests = false ->
  section_score ec m tests = Raise KeyError.
Proof.
  intros H. unfold section_score.
  rewrite (tests_loop_Raise ec m tests (0, 0%Z) H). reflexivity.
Qed.

Lemma sections_loop_Ok (ec : Dict.dict string Z) (m : Dict.dict string R)
  (sm : Dict.dict string (list string)) (d : Dict.dict string R) :
  forallb (fun e => counted ec m (snd e)) sm = true ->
  NoDup (Dict.keys d ++ Dict.keys sm) ->
  exists d',
    for_each (add_section ec m) sm d = Ok d' /\
    Dict.keys d' = Dict.keys d ++ Dict.keys sm /\
    (forall s tests, In (s, tests) sm ->
       Dict.get String.eqb d' s = Some (section_value ec m tests)) /\
    (forall s, ~ In s (Dict.keys sm) ->
       Dict.get String.eqb d' s = Dict.get String.eqb d s).
Proof.
  revert d. induction sm as [|[s0 tests0] sm IH]; intros d Hc Hnd.
  - exists d. cbn. rewrite app_nil_r. repeat split; auto. intros s tests [].
  - cbn [forallb snd] in Hc. apply andb_true_iff in Hc as [Hc0 Hc].
    cbn [for_each]. unfold add_section at 1. cbn [fst snd].
    rewrite (section_score_Ok ec m tests0 Hc0). cbn [bind].
    assert (Hnew : Dict.mem String.eqb d s0 = false).
    { unfold Dict.mem. destruct (Dict.get String.eqb d s0) eqn:E; [|reflexivity].
      exfalso. apply (get_Some_In String.eqb_eq) in E.
      cbn [Dict.keys map fst] in Hnd. apply NoDup_remove_2 in Hnd.
      apply Hnd. apply in_or_app. left.
      change s0 with (fst (s0, r)). apply in_map. exact E. }
    assert (Hkeys : Dict.keys (Dict.set String.eqb d s0 (section_value ec m tests0))
                    = Dict.keys d ++ [s0]).
    { rewrite keys_set, Hnew. reflexivity. }
    destruct (IH (Dict.set String.eqb d s0 (section_value ec m tests0)) Hc)
      as (d' & E & Hk & Hin & Hout).
    { rewrite Hkeys, <- app_assoc. exact Hnd. }
    exists d'. split; [exact E|]. split.
    { rewrite Hk, Hkeys, <- app_assoc. reflexivity. }
    assert (Hs0 : ~ In s0 (Dict.keys sm)).
    { cbn [Dict.keys map fst] in Hnd. apply NoDup_remove_2 in Hnd.
      intros H. apply Hnd. apply in_or_app. right. exact H. }
    split.
    + intros s tests [H|H].
      * injection H as <- <-. rewrite (Hout s0 Hs0).
        rewrite (get_set String.eqb_eq), String.eqb_refl. reflexivity.
      * apply Hin. exact H.
    + intros s Hs. cbn [Dict.keys map fst] in Hs.
      rewrite Hout by (intros H; apply Hs; right; exact H).
      rewrite (get_set String.eqb_eq).
      destruct (String.eqb s s0) eqn:Es; [|reflexivity].
      apply String.eqb_eq in Es. subst. exfalso. apply Hs. left. reflexivity.
Qed.

(** X11.  [calculate_scores_per_section] returns, for every section of the
    mapping and in its order, the mean of the metrics of the section's tests
    weighted by their example counts, over the tests that have a metric, and
    0 when these tests have no example; it returns normally when every such
    test has a count. *)
Theorem section_scores_are_weighted_means (ec : Dict.dict string Z)
  (sm : Dict.dict string (list string)) (m : Dict.dict string R) :
  NoDup (Dict.keys sm) ->
  forallb (fun e => counted ec m (snd e)) sm = true ->
  exists scores,
    calculate_scores_per_section ec sm m = Ok scores /\
    Dict.keys scores = Dict.keys sm /\
    forall s tests, In (s, tests) sm ->
      Dict.get String.eqb scores s = Some (section_value ec m tests).
Proof.
  intros Hnd Hc.
  destruct (sections_loop_Ok ec m sm [] Hc Hnd) as (d' & E & Hk & Hin & _).
  exists d'. auto.
Qed.

Lemma section_scores_are_weighted_means_witness :
  exists scores,
    calculate_scores_per_section leaderboard_counts leaderboard_mapping
      leaderboard_metrics = Ok scores /\
    Dict.keys scores = Dict.keys leaderboard_mapping /\
    forall s tests, In (s, tests) leaderboard_mapping ->
      Dict.get String.eqb scores s =
      Some (section_value leaderboard_counts leaderboard_metrics tests).
Proof.
  apply (@section_scores_are_weighted_means leaderboard_counts
           leaderboard_mapping leaderboard_metrics).
  - repeat constructor; simpl; intuition discriminate.
  - reflexivity.
Defined.

Lemma sections_loop_Raise (ec : Dict.dict string Z) (m : Dict.dict string R)
  (sm : Dict.dict string (list string)) (d : Dict.dict string R) :
  forallb (fun e => counted ec m (snd e)) sm = false ->
  for_each (add_section ec m) sm d = Raise KeyError.
Proof.
  revert d. induction sm as [|[s0 tests0] sm IH]; intros d Hc; [discriminate|].
  cbn [forallb snd] in Hc. cbn [for_each]. unfold add_section at 1.
  cbn [fst snd]. destruct (counted ec m tests0) eqn:Hc0.
  - rewrite (section_score_Ok ec m tests0 Hc0). cbn [bind]. apply IH. exact Hc.
  - rewrite (section_score_Raise ec m tests0 Hc0). reflexivity.
Qed.

(** X12.  A test that has a metric but no example count makes
    [calculate_scores_per_section] raise KeyError, whatever the other
    sections hold. *)
Theorem uncounted_test_raises_KeyError (ec : Dict.dict string Z)
  (sm : Dict.dict string (list string)) (m : Dict.dict string R)
  (s t : string) (tests : list string) :
  In (s, tests) sm -> In t tests ->
  Dict.mem String.eqb m t = true ->
  Dict.mem String.eqb ec t = false ->
  calculate_scores_per_section ec sm m = Raise KeyError.
Proof.
  intros Hs Ht Hm Hec. apply sections_loop_Raise.
  destruct (forallb (fun e => counted ec m (snd e)) sm) eqn:E; [|reflexivity].
  rewrite forallb_forall in E. specialize (E _ Hs). cbn [snd] in E.
  unfold counted in E. rewrite forallb_forall in E.
  rewrite (E t) in Hec; [discriminate|].
  unfold present. apply filter_In. auto.
Qed.

Lemma uncounted_test_raises_KeyError_witness :
  calculate_scores_per_section [] leaderboard_mapping leaderboard_metrics =
  Raise KeyError.
Proof.
  apply (@uncounted_test_raises_KeyError [] leaderboard_mapping
           leaderboard_metrics "Chat"%string "alpaca"%string
           ["alpaca"%string; "mt-bench"%string; "absent"%string]).
  - left. reflexivity.
  - left. reflexivity.
  - reflexivity.
  - reflexivity.
Defined.

Lemma weighted_sum_bounds (ec : Dict.dict string Z) (m : Dict.dict string R)
  (l : list string) (lo hi : R) :
  (forall t, In t l ->
     (0 <= count_of ec t)%Z /\ lo <= metric_of m t <= hi) ->
  lo * IZR (fold_right Z.add 0%Z (map (count_of ec) l)) <=
  Np.sum (map (fun t => metric_of m t * IZR (count_of ec t)) l) <=
  hi * IZR (fold_right Z.add 0%Z (map (count_of ec) l)).
Proof.
  induction l as [|t l IH]; intros H.
  - cbn. lra.
  - cbn [map fold_right Np.sum]. rewrite plus_IZR.
    destruct (H t (or_introl eq_refl)) as [Hn Hm].
    apply IZR_le in Hn.
    destruct IH as [IH1 IH2]; [intros; apply H; right; assumption|].
    assert (H1 : 0 <= (metric_of m t - lo) * IZR (count_of ec t))
      by (apply Rmult_le_pos; lra).
    assert (H2 : 0 <= (hi - metric_of m t) * IZR (count_of ec t))
      by (apply Rmult_le_pos; lra).
    unfold Np.sum in *. split; lra.
Qed.

(** X13.  Accuracies give a section score in [0, 1]: when the counts are
    not negative and the metrics of the section's tests lie between 0 and 1,
    so does the score of the section (it is 0 without examples).  The bound
    does not rest on exact arithmetic: products, sums and the quotient are
    monotone under rounding, and 0, 1 and the counts are exact. *)
Theorem section_score_within_unit_interval (ec : Dict.dict string Z)
  (m : Dict.dict string R) (tests : list string) :
  counted ec m tests = true ->
  (forall t, In t tests -> Dict.mem String.eqb m t = true ->
     (0 <= count_of ec t)%Z /\ 0 <= metric_of m t <= 1) ->
  exists s,
    section_score ec m tests = Ok s /\
    0 <= s <= 1 /\
    ((examples ec m tests <= 0)%Z -> s = 0).
Proof.
  intros Hc H. exists (section_value ec m tests).
  split; [apply section_score_Ok; exact Hc|].
  unfold section_value.
  destruct (0 <? examples ec m tests)%Z eqn:Epos.
  - apply Z.ltb_lt in Epos. split; [|lia].
    assert (Hn : 0 < IZR (examples ec m tests)) by (apply IZR_lt; exact Epos).
    destruct (@weighted_sum_bounds ec m (present m tests) 0 1) as [H1 H2].
    { intros t Ht. unfold present in Ht. apply filter_In in Ht as [Ht Hm].
      apply H; assumption. }
    fold (examples ec m tests) in H1, H2.
    fold (weighted_sum ec m tests) in H1, H2.
    split; [apply le_div|apply div_le]; assumption.
  - split; [lra|reflexivity].
Qed.

Lemma section_score_within_unit_interval_witness :
  exists s,
    section_score leaderboard_counts leaderboard_metrics
      ["alpaca"%string; "mt-bench"%string; "absent"%string] = Ok s /\
    0 <= s <= 1 /\
    ((examples leaderboard_counts leaderboard_metrics
        ["alpaca"%string; "mt-bench"%string; "absent"%string] <= 0)%Z ->
     s = 0).
Proof.
  apply (@section_score_within_unit_interval leaderboard_counts
           leaderboard_metrics
           ["alpaca"%string; "mt-bench"%string; "absent"%string]).
  - reflexivity.
  - intros t [<-|[<-|[<-|[]]]] Hm.
    + split; [cbv; discriminate|]. cbv [metric_of leaderboard_metrics Dict.get].
      cbn. lra.
    + split; [cbv; discriminate|]. cbv [metric_of leaderboard_metrics Dict.get].
      cbn. lra.
    + discriminate.
Defined.

Lemma Zsum_Permutation (l l' : list Z) :
  Permutation l l' -> fold_right Z.add 0%Z l = fold_right Z.add 0%Z l'.
Proof. induction 1; simpl; lia. Qed.

(** X14.  The score of a section does not depend on the order of its tests
    (in exact arithmetic), and neither does the exception it may raise. *)
Theorem section_score_ignores_test_order (ec : Dict.dict string Z)
  (m : Dict.dict string R) (tests tests' : list string) :
  Permutation tests tests' ->
  section_score ec m tests' = section_score ec m tests.
Proof.
  intros H.
  assert (Hp : Permutation (present m tests) (present m tests'))
    by (apply filter_Permutation; exact H).
  assert (Hc : counted ec m tests' = counted ec m tests)
    by (unfold counted; symmetry; apply forallb_Permutation; exact Hp).
  destruct (counted ec m tests) eqn:E.
  - rewrite (section_score_Ok ec m tests' Hc), (section_score_Ok ec m tests E).
    f_equal. unfold section_value, weighted_sum, examples.
    rewrite <- (Zsum_Permutation (Permutation_map (count_of ec) Hp)).
    rewrite <- (sum_Permutation
                  (Permutation_map
                     (fun t => metric_of m t * IZR (count_of ec t)) Hp)).
    reflexivity.
  - rewrite (section_score_Raise ec m tests' Hc),
            (section_score_Raise ec m tests E).
    reflexivity.
Qed.

Lemma section_score_ignores_test_order_witness :
  section_score leaderboard_counts leaderboard_metrics
    (rev ["alpaca"%string; "mt-bench"%string; "absent"%string]) =
  section_score leaderboard_counts leaderboard_metrics
    ["alpaca"%string; "mt-bench"%string; "absent"%string].
Proof.
  apply (@section_score_ignores_test_order leaderboard_counts
           leaderboard_metrics).
  apply Permutation_rev.
Defined.

End SectionScoreFacts.

(** * Rerolling a best-of-n dataset *)

Section RerollFacts.

Import Reroll RerollSpec.

Lemma py_slice_chunk {A : Type} (l : list A) (a n : Z) :
  (0 <= a)%Z -> (0 <= n)%Z -> (a + n <= Z.of_nat (List.length l))%Z ->
  py_slice l a (a + n) = firstn (Z.to_nat n) (skipn (Z.to_nat a) l).
Proof.
  intros Ha Hn Hlen. unfold py_slice, clamp_index.
  rewrite (proj2 (Z.ltb_ge a 0) Ha).
  rewrite (proj2 (Z.ltb_ge (a + n) 0)) by lia.
  rewrite !Z.min_l by lia. f_equal. f_equal. lia.
Qed.

Lemma py_slice_empty {A : Type} (l : list A) (a : Z) :
  py_slice l a (a + 0) = [].
Proof.
  unfold py_slice. rewrite Z.add_0_r, Z.sub_diag. reflexivity.
Qed.

Lemma fold_Rmax_spec (l : list R) (x : R) :
  let m := fold_left Rmax l x in
  (m = x \/ In m l) /\ x <= m /\ forall y, In y l -> y <= m.
Proof.
  revert x; induction l as [|a l IH]; intros x; simpl.
  - split; [auto|]. split; [lra|]. intros y [].
  - destruct (IH (Rmax x a)) as (Hin & Hle & Hall).
    pose proof (Rmax_l x a). pose proof (Rmax_r x a).
    split; [|split].
    + destruct Hin as [Hin|Hin]; [|auto].
      rewrite Hin. unfold Rmax. destruct (Rle_dec x a); auto.
    + lra.
    + intros y [<-|Hy]; [lra|auto].
Qed.

Lemma np_max_is_max (l : list R) (m : R) :
  np_max l = Ok m -> Spec.is_max m l.
Proof.
  destruct l as [|x l]; [discriminate|]. simpl. intros [= <-].
  destruct (fold_Rmax_spec l x) as (Hin & Hle & Hall). split.
  - simpl. destruct Hin as [->|Hin]; auto.
  - intros y [<-|Hy]; auto.
Qed.

Lemma count_equal_cons (v x : R) (l : list R) :
  count_equal v (x :: l) =
  ((if Req_dec_T x v then 1 else 0) + count_equal v l)%nat.
Proof.
  unfold count_equal. simpl. destruct (Req_dec_T x v); reflexivity.
Qed.

Lemma count_equal_zero (v : R) (l : list R) :
  count_equal v l = 0%nat <-> forall y, In y l -> y <> v.
Proof.
  induction l as [|x l IH].
  - split; [intros _ y []|reflexivity].
  - rewrite count_equal_cons. destruct (Req_dec_T x v) as [E|E].
    + split; [discriminate|]. intros H. exfalso. apply (H x); [left; auto|exact E].
    + simpl. rewrite IH. split.
      * intros H y [<-|Hy]; auto.
      * intros H y Hy. apply H. right. exact Hy.
Qed.

(** The penalty for ties of one group: it is defined for a group with a
    score, lies in [0, 1], is 0 exactly when a later score beats the first
    one, 1 exactly when the first score beats all the others, and one over
    the number of scores equal to the first when the first is a maximum. *)
Lemma tie_penalty_value (scores : list R) (r : R) :
  tie_penalty scores = Ok r ->
  exists first rest,
    scores = first :: rest /\
    0 <= r <= 1 /\
    (r = 0 <-> exists y, In y rest /\ first < y) /\
    (r = 1 <-> forall y, In y rest -> y < first) /\
    ((forall y, In y rest -> y <= first) ->
     r = 1 / INR (S (count_equal first rest))).
Proof.
  intros Hr. unfold tie_penalty in Hr.
  destruct (np_max scores) as [m|e] eqn:Em; [|discriminate].
  cbn [bind] in Hr. destruct scores as [|first rest]; [discriminate|].
  exists first, rest. split; [reflexivity|].
  destruct (np_max_is_max _ Em) as [Hin Hall].
  assert (Hfirst : first <= m) by (apply Hall; left; reflexivity).
  destruct (Req_dec_T first m) as [<-|Hne].
  - injection Hr as <-.
    rewrite count_equal_cons in *. destruct (Req_dec_T first first); [|congruence].
    change (1 + count_equal first rest)%nat with (S (count_equal first rest)).
    assert (Hk : 1 <= INR (S (count_equal first rest)))
      by (rewrite S_INR; pose proof (pos_INR (count_equal first rest)); lra).
    assert (Hrest : forall y, In y rest -> y <= first)
      by (intros y Hy; apply Hall; right; exact Hy).
    assert (Hpos : 0 < 1 / INR (S (count_equal first rest)))
      by (apply Rdiv_lt_0_compat; lra).
    split.
    { split; [lra|]. apply div_le; lra. }
    split; [|split].
    + split; [lra|]. intros (y & Hy & Hlt). pose proof (Hrest y Hy). lra.
    + split.
      * intros H1 y Hy.
        assert (Hc : count_equal first rest = 0%nat).
        { assert (INR (S (count_equal first rest)) = 1).
          { apply (Rmult_eq_reg_l (1 / INR (S (count_equal first rest)))); [|lra].
            rewrite H1 at 2. field. lra. }
          rewrite S_INR in H. 
          assert (INR (count_equal first rest) = 0) by lra.
          apply INR_eq. exact H0. }
        pose proof (proj1 (count_equal_zero first rest) Hc y Hy).
        pose proof (Hrest y Hy). lra.
      * intros H.
        assert (Hc : count_equal first rest = 0%nat).
        { apply count_equal_zero. intros y Hy. pose proof (H y Hy). lra. }
        rewrite Hc. simpl. lra.
    + intros _. reflexivity.
  - injection Hr as <-.
    assert (Hlt : first < m) by lra.
    assert (Hm : In m rest) by (destruct Hin as [E|E]; [congruence|exact E]).
    split; [lra|]. split; [|split].
    + split; [|reflexivity]. intros _. exists m. auto.
    + split; [lra|]. intros H. pose proof (H m Hm). lra.
    + intros H. pose proof (H m Hm). lra.
Qed.

Lemma tie_penalty_value_witness :
  exists first rest,
    [3; 1; 3] = first :: rest /\
    0 <= 1 / 2 <= 1 /\
    (1 / 2 = 0 <-> exists y, In y rest /\ first < y) /\
    (1 / 2 = 1 <-> forall y, In y rest -> y < first) /\
    ((forall y, In y rest -> y <= first) ->
     1 / 2 = 1 / INR (S (count_equal first rest))).
Proof.
  apply (@tie_penalty_value [3; 1; 3] (1 / 2)).
  unfold tie_penalty, np_max. cbn [fold_left bind].
  assert (E : Rmax (Rmax 3 1) 3 = 3).
  { unfold Rmax. destruct (Rle_dec 3 1); [lra|].
    destruct (Rle_dec 3 3); reflexivity. }
  rewrite E. destruct (Req_dec_T 3 3); [|congruence].
  unfold count_equal. cbn [filter].
  destruct (Req_dec_T 3 3); [|congruence].
  destruct (Req_dec_T 1 3); [lra|]. reflexivity.
Defined.

Lemma cell_eqb_eq (a b : cell) : cell_eqb a b = true <-> a = b.
Proof.
  destruct a, b; simpl; try (split; [discriminate|congruence]).
  - split; reflexivity.
  - rewrite Z.eqb_eq. split; congruence.
  - destruct (Req_dec_T x x0); split; congruence.
  - rewrite String.eqb_eq. split; congruence.
Qed.

Lemma unique_In (l : list cell) (y : cell) : In y (unique l) <-> In y l.
Proof.
  induction l as [|x l IH]; simpl; [reflexivity|].
  rewrite filter_In, IH. split.
  - intros [H|[H _]]; auto.
  - intros [H|H]; [auto|].
    destruct (cell_eqb x y) eqn:E.
    + apply cell_eqb_eq in E. auto.
    + right. auto.
Qed.

Lemma unique_single (l : list cell) (v : cell) :
  unique l = [v] -> l <> [] /\ forall x, In x l -> x = v.
Proof.
  destruct l as [|x l]; simpl; [discriminate|].
  intros [= -> Hf]. split; [discriminate|].
  intros y [<-|Hy]; [reflexivity|].
  destruct (cell_eqb v y) eqn:E.
  - apply cell_eqb_eq in E. auto.
  - exfalso. assert (Hin : In y (filter (fun y => negb (cell_eqb v y)) (unique l))).
    { apply filter_In. split; [apply unique_In; exact Hy|]. rewrite E. reflexivity. }
    rewrite Hf in Hin. destruct Hin.
Qed.

Lemma take_constant_exn (group : list Row) (row : new_row) (col : string)
  (e : exn) :
  take_constant group row col = Raise e -> e = ValueError.
Proof.
  unfold take_constant.
  destruct (unique (map (fun r => row_other r col) group)) as [|v [|w l]];
    congruence.
Qed.

Lemma constants_loop (group : list Row) (cols : list string)
  (row row' : new_row) :
  for_each (take_constant group) cols row = Ok row' ->
  (forall k, ~ In k cols ->
     Dict.get String.eqb row' k = Dict.get String.eqb row k) /\
  (forall col, In col cols ->
     exists v, Dict.get String.eqb row' col = Some (Value v) /\
               forall r, In r group -> row_other r col = v).
Proof.
  revert row. induction cols as [|c cols IH]; intros row E.
  - injection E as <-. split; [reflexivity|]. intros col [].
  - cbn [for_each] in E. unfold take_constant at 1 in E.
    destruct (unique (map (fun r => row_other r c) group)) as [|v [|w l]] eqn:Eu;
      try discriminate.
    cbn [bind] in E. destruct (IH _ E) as [Hout Hin].
    destruct (unique_single _ Eu) as [_ Hall].
    split.
    + intros k Hk. rewrite Hout by (intros H; apply Hk; right; exact H).
      rewrite (get_set String.eqb_eq).
      destruct (String.eqb k c) eqn:Ek; [|reflexivity].
      apply String.eqb_eq in Ek. subst. exfalso. apply Hk. left. reflexivity.
    + intros col [<-|Hcol].
      * destruct (in_dec string_dec c cols) as [Hc|Hc]; [apply Hin; exact Hc|].
        exists v. rewrite (Hout c Hc), (get_set String.eqb_eq), String.eqb_refl.
        split; [reflexivity|]. intros r Hr. apply Hall.
        apply (in_map (fun r => row_other r c)). exact Hr.
      * apply Hin. exact Hcol.
Qed.

Lemma constants_loop_exn (group : list Row) (cols : list string)
  (row : new_row) (e : exn) :
  for_each (take_constant group) cols row = Raise e -> e = ValueError.
Proof.
  revert row. induction cols as [|c cols IH]; intros row; [discriminate|].
  cbn [for_each]. destruct (take_constant group row c) as [row1|e1] eqn:E1.
  - cbn [bind]. apply IH.
  - cbn [bind]. intros [= <-]. apply (take_constant_exn _ _ _ E1).
Qed.

Lemma tie_penalty_exn (scores : list R) (e : exn) :
  tie_penalty scores = Raise e -> e = ValueError.
Proof.
  unfold tie_penalty. destruct scores as [|x l]; simpl; [congruence|].
  destruct (Req_dec_T x (fold_left Rmax l x)); discriminate.
Qed.

Lemma combine_group_exn (df : DataFrame) (group : list Row) (e : exn) :
  combine_group df group = Raise e -> e = ValueError.
Proof.
  unfold combine_group.
  destruct (tie_penalty (map row_score group)) as [r|e1] eqn:E1; cbn [bind].
  - apply constants_loop_exn.
  - intros [= <-]. apply (tie_penalty_exn _ E1).
Qed.

Lemma combine_group_empty (df : DataFrame) :
  combine_group df [] = Raise ValueError.
Proof. reflexivity. Qed.

Lemma other_columns_not_combined (df : DataFrame) (col : string) :
  In col (other_columns df) ->
  col <> "text"%string /\ col <> "scores"%string.
Proof.
  unfold other_columns, cols_to_combine. rewrite filter_In.
  intros [_ H]. cbn [existsb] in H. rewrite orb_false_r in H.
  apply negb_true_iff, orb_false_iff in H as [H1 H2].
  apply String.eqb_neq in H1, H2. auto.
Qed.

(** What a new row holds. *)
Lemma combine_group_Ok (df : DataFrame) (group : list Row) (row : new_row) :
  combine_group df group = Ok row ->
  group <> [] /\
  Dict.get String.eqb row "text"%string = Some (Texts (map row_text group)) /\
  Dict.get String.eqb row "scores"%string =
    Some (Scores (map row_score group)) /\
  (~ In "results"%string (frame_columns df) ->
   exists r, tie_penalty (map row_score group) = Ok r /\
             Dict.get String.eqb row "results"%string = Some (Result r)) /\
  (forall col, In col (other_columns df) ->
     exists v, Dict.get String.eqb row col = Some (Value v) /\
               forall r, In r group -> row_other r col = v).
Proof.
  unfold combine_group.
  destruct (tie_penalty (map row_score group)) as [r|e] eqn:Er; [|discriminate].
  cbn [bind]. intros E. destruct (constants_loop _ _ _ E) as [Hout Hin].
  assert (Ht : ~ In "text"%string (other_columns df))
    by (intros H; apply other_columns_not_combined in H as [H _]; congruence).
  assert (Hs : ~ In "scores"%string (other_columns df))
    by (intros H; apply other_columns_not_combined in H as [_ H]; congruence).
  split; [intros ->; discriminate|].
  split; [rewrite (Hout _ Ht); reflexivity|].
  split; [rewrite (Hout _ Hs); reflexivity|].
  split; [|exact Hin].
  intros Hres. exists r. split; [reflexivity|].
  rewrite Hout; [reflexivity|].
  intros H. apply Hres. unfold other_columns in H.
  apply filter_In in H as [H _]. exact H.
Qed.

Lemma groups_loop (df : DataFrame) (sizes : list Z) (acc : list new_row)
  (idx : Z) :
  Forall (fun n => 0 <= n)%Z sizes ->
  (0 <= idx)%Z ->
  (idx + fold_right Z.add 0%Z sizes <= Z.of_nat (List.length (frame_rows df)))%Z ->
  for_each (reroll_group df) sizes (acc, idx) =
  rmap (fun rows => (acc ++ rows, (idx + fold_right Z.add 0%Z sizes)%Z))
       (for_list (combine_group df)
          (chunks (map Z.to_nat sizes)
                  (skipn (Z.to_nat idx) (frame_rows df)))).
Proof.
  revert acc idx. induction sizes as [|n sizes IH]; intros acc idx Hpos Hidx Hlen.
  - cbn. rewrite app_nil_r, Z.add_0_r. reflexivity.
  - inversion Hpos as [|? ? Hn Hpos']; subst.
    assert (Hs : (0 <= fold_right Z.add 0 sizes)%Z).
    { clear -Hpos'. induction Hpos'; simpl; lia. }
    cbn [fold_right] in Hlen.
    cbn [for_each map chunks for_list]. unfold reroll_group at 1. cbn [fst snd].
    rewrite py_slice_chunk by lia.
    destruct (combine_group df
                (firstn (Z.to_nat n) (skipn (Z.to_nat idx) (frame_rows df))))
      as [row|e]; [|reflexivity].
    cbn [bind]. rewrite IH by (try assumption; lia).
    rewrite skipn_skipn. replace (Z.to_nat n + Z.to_nat idx)%nat
      with (Z.to_nat (idx + n)) by lia.
    destruct (for_list (combine_group df)
                (chunks (map Z.to_nat sizes)
                        (skipn (Z.to_nat (idx + n)) (frame_rows df))))
      as [rows|e]; cbn [rmap fold_right]; [|reflexivity].
    rewrite <- app_assoc, Z.add_assoc. reflexivity.
Qed.

Lemma for_list_Forall2 {A B : Type} (f : A -> result B) (l : list A)
  (out : list B) :
  for_list f l = Ok out -> Forall2 (fun a b => f a = Ok b) l out.
Proof.
  revert out. induction l as [|a l IH]; intros out; simpl.
  - intros [= <-]. constructor.
  - destruct (f a) as [b|e] eqn:E; [|discriminate]. cbn [bind].
    destruct (for_list f l) as [bs|e]; [|discriminate]. cbn [bind].
    intros [= <-]. constructor; auto.
Qed.

(** With sizes that are not negative, the rows of the result are the new
    rows of the consecutive chunks of the frame. *)
Lemma reroll_rows_of_chunks (df : DataFrame) (sizes : list Z)
  (out : list new_row) :
  Forall (fun n => 0 <= n)%Z sizes ->
  reroll_and_score_dataset df sizes = Ok out ->
  fold_right Z.add 0%Z sizes = Z.of_nat (List.length (frame_rows df)) /\
  Forall2 (fun group row => combine_group df group = Ok row)
          (chunks (map Z.to_nat sizes) (frame_rows df)) out.
Proof.
  intros Hpos. unfold reroll_and_score_dataset.
  destruct (fold_right Z.add 0%Z sizes =? Z.of_nat (List.length (frame_rows df)))%Z
    eqn:Esum; [|discriminate].
  apply Z.eqb_eq in Esum. cbn [negb].
  rewrite (@groups_loop df sizes [] 0%Z Hpos) by lia.
  cbn [Z.to_nat skipn].
  destruct (for_list (combine_group df)
              (chunks (map Z.to_nat sizes) (frame_rows df))) as [rows|e] eqn:E;
    [|discriminate].
  cbn [rmap bind fst app]. intros [= <-].
  split; [exact Esum|]. apply for_list_Forall2. exact E.
Qed.

Lemma firstn_plus {A : Type} (n m : nat) (l : list A) :
  firstn (n + m) l = firstn n l ++ firstn m (skipn n l).
Proof.
  revert l. induction n as [|n IH]; intros l; [reflexivity|].
  destruct l as [|x l]; simpl.
  - rewrite firstn_nil. reflexivity.
  - rewrite IH. reflexivity.
Qed.

Lemma concat_chunks {A : Type} (sizes : list nat) (l : list A) :
  List.concat (chunks sizes l) = firstn (fold_right Nat.add 0%nat sizes) l.
Proof.
  revert l. induction sizes as [|n sizes IH]; intros l; [reflexivity|].
  cbn [chunks List.concat fold_right]. rewrite IH, firstn_plus. reflexivity.
Qed.

Lemma Zsum_to_nat (sizes : list Z) :
  Forall (fun n => 0 <= n)%Z sizes ->
  fold_right Nat.add 0%nat (map Z.to_nat sizes) =
  Z.to_nat (fold_right Z.add 0%Z sizes).
Proof.
  induction 1 as [|n sizes Hn Hpos IH]; [reflexivity|].
  cbn [map fold_right]. rewrite IH.
  assert (0 <= fold_right Z.add 0 sizes)%Z
    by (clear -Hpos; induction Hpos; simpl; lia).
  lia.
Qed.

(** X15.  [reroll_and_score_dataset] keeps every completion: with group
    sizes that are not negative, the result has one row per group size, the
    i-th row holds as many scores as the i-th size, and the scores and the
    texts of the rows, concatenated, are the "scores" and "text" columns of
    the data frame. *)
Theorem reroll_keeps_every_score (df : DataFrame) (sizes : list Z)
  (out : list new_row) :
  Forall (fun n => 0 <= n)%Z sizes ->
  reroll_and_score_dataset df sizes = Ok out ->
  List.length out = List.length sizes /\
  map (fun row => Z.of_nat (List.length (scores_of row))) out = sizes /\
  List.concat (map scores_of out) = map row_score (frame_rows df) /\
  List.concat (map texts_of out) = map row_text (frame_rows df).
Proof.
  intros Hpos E.
  destruct (@reroll_rows_of_chunks df sizes out Hpos E) as [Hsum Hall].
  assert (Hscores : map scores_of out =
                    map (map row_score)
                        (chunks (map Z.to_nat sizes) (frame_rows df))).
  { clear -Hall. induction Hall as [|g row gs rows Hrow _ IH]; [reflexivity|].
    cbn [map]. rewrite IH. f_equal.
    destruct (@combine_group_Ok df g row Hrow) as (_ & _ & Hs & _).
    unfold scores_of. rewrite Hs. reflexivity. }
  assert (Htexts : map texts_of out =
                   map (map row_text)
                       (chunks (map Z.to_nat sizes) (frame_rows df))).
  { clear -Hall. induction Hall as [|g row gs rows Hrow _ IH]; [reflexivity|].
    cbn [map]. rewrite IH. f_equal.
    destruct (@combine_group_Ok df g row Hrow) as (_ & Ht & _).
    unfold texts_of. rewrite Ht. reflexivity. }
  assert (Hchunks : List.concat (chunks (map Z.to_nat sizes) (frame_rows df)) =
                    frame_rows df).
  { rewrite concat_chunks, (Zsum_to_nat Hpos), Hsum, Nat2Z.id.
    apply firstn_all. }
  assert (Hlen : List.length out = List.length sizes).
  { rewrite <- (Forall2_length Hall).
    clear. generalize (frame_rows df).
    induction sizes as [|n sizes IH]; intros l; [reflexivity|].
    cbn. rewrite IH. reflexivity. }
  split; [exact Hlen|]. split; [|split].
  - rewrite <- (map_map scores_of (fun l => Z.of_nat (List.length l))).
    rewrite Hscores.
    assert (Hsum' : (fold_right Z.add 0 sizes
                     <= Z.of_nat (List.length (frame_rows df)))%Z) by lia.
    clear -Hpos Hsum'. revert Hsum'. generalize (frame_rows df).
    induction Hpos as [|n sizes Hn Hpos IH]; intros l Hsum; [reflexivity|].
    cbn [map chunks fold_right] in *.
    assert (0 <= fold_right Z.add 0 sizes)%Z
      by (clear -Hpos; induction Hpos; simpl; lia).
    rewrite IH by (rewrite length_skipn; lia).
    rewrite length_map, length_firstn. f_equal. lia.
  - rewrite Hscores, <- concat_map, Hchunks. reflexivity.
  - rewrite Htexts, <- concat_map, Hchunks. reflexivity.
Qed.

Ltac eval_frame :=
  cbv -[IZR Rplus Rminus Rmult Rdiv Rinv Ropp INR Rgt_dec Rlt_dec Rle_dec
        Req_dec_T Rmin Rmax].

Lemma bon_frame_rerolled :
  exists out, reroll_and_score_dataset bon_frame [2%Z; 3%Z] = Ok out.
Proof.
  eexists. eval_frame. unfold Rmax. decide_R. reflexivity.
Qed.

Lemma reroll_keeps_every_score_witness :
  exists out,
    reroll_and_score_dataset bon_frame [2%Z; 3%Z] = Ok out /\
    List.length out = List.length [2%Z; 3%Z] /\
    map (fun row => Z.of_nat (List.length (scores_of row))) out = [2%Z; 3%Z] /\
    List.concat (map scores_of out) = map row_score (frame_rows bon_frame) /\
    List.concat (map texts_of out) = map row_text (frame_rows bon_frame).
Proof.
  destruct bon_frame_rerolled as (out & E). exists out. split; [exact E|].
  apply (@reroll_keeps_every_score bon_frame [2%Z; 3%Z] out).
  - repeat constructor; lia.
  - exact E.
Defined.

Lemma reroll_group_exn (df : DataFrame) (st : list new_row * Z) (n : Z)
  (e : exn) :
  reroll_group df st n = Raise e -> e = ValueError.
Proof.
  unfold reroll_group.
  destruct (combine_group df (py_slice (frame_rows df) (snd st) (snd st + n)))
    as [row|e1] eqn:E1; [discriminate|].
  cbn [bind]. intros [= <-]. apply (combine_group_exn _ _ E1).
Qed.

Lemma groups_loop_zero (df : DataFrame) (sizes : list Z)
  (st : list new_row * Z) :
  In 0%Z sizes -> for_each (reroll_group df) sizes st = Raise ValueError.
Proof.
  revert st. induction sizes as [|n sizes IH]; intros st Hin; [destruct Hin|].
  cbn [for_each]. destruct (reroll_group df st n) as [st1|e] eqn:E.
  - cbn [bind]. destruct Hin as [->|Hin]; [|apply IH; exact Hin].
    unfold reroll_group in E. rewrite py_slice_empty in E. discriminate.
  - cbn [bind]. f_equal. apply (reroll_group_exn _ _ _ E).
Qed.

(** X17.  [reroll_and_score_dataset] raises ValueError when the group sizes
    do not add up to the number of rows, and also when a group size is 0
    ([np.max] of an empty group). *)
Theorem reroll_rejects_bad_sizes (df : DataFrame) (sizes : list Z) :
  fold_right Z.add 0%Z sizes <> Z.of_nat (List.length (frame_rows df)) \/
  In 0%Z sizes ->
  reroll_and_score_dataset df sizes = Raise ValueError.
Proof.
  intros H. unfold reroll_and_score_dataset.
  destruct (fold_right Z.add 0%Z sizes =? Z.of_nat (List.length (frame_rows df)))%Z
    eqn:Esum; [|reflexivity].
  apply Z.eqb_eq in Esum. cbn [negb].
  destruct H as [H|H]; [contradiction|].
  rewrite (groups_loop_zero df sizes _ H). reflexivity.
Qed.

Lemma reroll_rejects_bad_sizes_witness :
  reroll_and_score_dataset bon_frame [5%Z; 0%Z] = Raise ValueError /\
  reroll_and_score_dataset bon_frame [2%Z; 2%Z] = Raise ValueError.
Proof.
  split.
  - apply (@reroll_rejects_bad_sizes bon_frame [5%Z; 0%Z]).
    right. right. left. reflexivity.
  - apply (@reroll_rejects_bad_sizes bon_frame [2%Z; 2%Z]).
    left. discriminate.
Defined.

(** X18.  In the result of [reroll_and_score_dataset] every group is not
    empty, and every column other than "text" and "scores" holds, in the row
    of a group, the value that all rows of the group share. *)
Theorem reroll_columns_constant (df : DataFrame) (sizes : list Z)
  (out : list new_row) :
  Forall (fun n => 0 <= n)%Z sizes ->
  reroll_and_score_dataset df sizes = Ok out ->
  Forall2 (fun group row =>
             group <> [] /\
             forall col, In col (other_columns df) ->
               exists v, Dict.get String.eqb row col = Some (Value v) /\
                         forall r, In r group -> row_other r col = v)
          (chunks (map Z.to_nat sizes) (frame_rows df)) out.
Proof.
  intros Hpos E.
  destruct (@reroll_rows_of_chunks df sizes out Hpos E) as [_ Hall].
  revert Hall. apply Forall2_impl. intros g row Hrow.
  destruct (@combine_group_Ok df g row Hrow) as (Hne & _ & _ & _ & Hc).
  auto.
Qed.

Lemma reroll_columns_constant_witness :
  exists out,
    reroll_and_score_dataset bon_frame [2%Z; 3%Z] = Ok out /\
    Forall2 (fun group row =>
               group <> [] /\
               forall col, In col (other_columns bon_frame) ->
                 exists v, Dict.get String.eqb row col = Some (Value v) /\
                           forall r, In r group -> row_other r col = v)
            (chunks (map Z.to_nat [2%Z; 3%Z]) (frame_rows bon_frame)) out.
Proof.
  destruct bon_frame_rerolled as (out & E). exists out. split; [exact E|].
  apply (@reroll_columns_constant bon_frame [2%Z; 3%Z] out).
  - repeat constructor; lia.
  - exact E.
Defined.

Lemma groups_loop_rows (df : DataFrame) (sizes : list Z)
  (st st' : list new_row * Z) :
  for_each (reroll_group df) sizes st = Ok st' ->
  (forall row, In row (fst st) -> exists g, combine_group df g = Ok row) ->
  forall row, In row (fst st') -> exists g, combine_group df g = Ok row.
Proof.
  revert st. induction sizes as [|n sizes IH]; intros st E Hacc.
  - injection E as <-. exact Hacc.
  - cbn [for_each] in E. unfold reroll_group at 1 in E.
    destruct (combine_group df
                (py_slice (frame_rows df) (snd st) (snd st + n))) as [row1|e]
      eqn:E1; [|discriminate].
    cbn [bind] in E. apply (IH _ E). cbn [fst].
    intros row Hin. apply in_app_or in Hin as [Hin|[<-|[]]]; eauto.
Qed.

(** X16.  The "results" value of a rerolled row is the penalty for ties of
    its scores (when the data frame has no "results" column of its own): it
    lies in [0, 1], is 0 exactly when a later completion scores higher than
    the first, 1 exactly when the first scores higher than all the others,
    and one over the number of completions that share the top score when the
    first is among them. *)
Theorem reroll_results_are_tie_penalties (df : DataFrame) (sizes : list Z)
  (out : list new_row) (row : new_row) :
  reroll_and_score_dataset df sizes = Ok out ->
  ~ In "results"%string (frame_columns df) ->
  In row out ->
  exists first rest r,
    scores_of row = first :: rest /\
    Dict.get String.eqb row "results"%string = Some (Result r) /\
    0 <= r <= 1 /\
    (r = 0 <-> exists y, In y rest /\ first < y) /\
    (r = 1 <-> forall y, In y rest -> y < first) /\
    ((forall y, In y rest -> y <= first) ->
     r = 1 / INR (S (count_equal first rest))).
Proof.
  intros E Hres Hin. unfold reroll_and_score_dataset in E.
  destruct (negb _); [discriminate|].
  destruct (for_each (reroll_group df) sizes ([], 0%Z)) as [st|e] eqn:Eloop;
    [|discriminate].
  cbn [bind] in E. injection E as <-.
  destruct (@groups_loop_rows df sizes _ _ Eloop) with (row := row)
    as (g & Hg); [intros ? []|exact Hin|].
  destruct (@combine_group_Ok df g row Hg) as (_ & _ & Hs & Hr & _).
  destruct (Hr Hres) as (r & Er & Hget).
  destruct (@tie_penalty_value _ _ Er) as (first & rest & Escores & Hfacts).
  exists first, rest, r. unfold scores_of. rewrite Hs.
  split; [exact Escores|]. split; [exact Hget|]. exact Hfacts.
Qed.

Lemma bon_frame_first_row :
  exists row out,
    reroll_and_score_dataset bon_frame [2%Z; 3%Z] = Ok (row :: out).
Proof.
  eexists. eexists. eval_frame. unfold Rmax. decide_R. reflexivity.
Qed.

Lemma reroll_results_are_tie_penalties_witness :
  exists out row,
    reroll_and_score_dataset bon_frame [2%Z; 3%Z] = Ok out /\
    In row out /\
    exists first rest r,
      scores_of row = first :: rest /\
      Dict.get String.eqb row "results"%string = Some (Result r) /\
      0 <= r <= 1 /\
      (r = 0 <-> exists y, In y rest /\ first < y) /\
      (r = 1 <-> forall y, In y rest -> y < first) /\
      ((forall y, In y rest -> y <= first) ->
       r = 1 / INR (S (count_equal first rest))).
Proof.
  destruct bon_frame_first_row as (row & out & E).
  exists (row :: out), row. split; [exact E|]. split; [left; reflexivity|].
  apply (@reroll_results_are_tie_penalties bon_frame [2%Z; 3%Z] (row :: out)
           row).
  - exact E.
  - simpl. intuition discriminate.
  - left. reflexivity.
Defined.

End RerollFacts.

(** * Dialogue formatting *)

Section ChatFacts.

Import Chat ChatSpec.
Local Open Scope nat_scope.
Local Open Scope string_scope.
Local Open Scope list_scope.

(** ** Rows *)

Lemma lookup_get (e : row) (k : string) (v : value) :
  Dict.get String.eqb e k = Some v -> lookup e k = Done v.
Proof. unfold lookup. intros ->. reflexivity. Qed.

Lemma has_get (e : row) (k : string) :
  has e k = true -> exists v, Dict.get String.eqb e k = Some v.
Proof.
  unfold has, Dict.mem. destruct (Dict.get String.eqb e k) as [v|];
    [eauto|discriminate].
Qed.

Lemma get_assign_other (e : row) (k k' : string) (v : value) :
  k' <> k ->
  Dict.get String.eqb (assign e k v) k' = Dict.get String.eqb e k'.
Proof.
  intros Hne. unfold assign. rewrite (get_set String.eqb_eq).
  rewrite (eqb_neq String.eqb_eq _ _ Hne). reflexivity.
Qed.

Lemma get_assign_same (e : row) (k : string) (v : value) :
  Dict.get String.eqb (assign e k v) k = Some v.
Proof.
  unfold assign. rewrite (get_set String.eqb_eq), String.eqb_refl.
  reflexivity.
Qed.

Lemma lookup_assign_other (e : row) (k k' : string) (v : value) :
  k' <> k -> lookup (assign e k v) k' = lookup e k'.
Proof. intros Hne. unfold lookup. rewrite get_assign_other; auto. Qed.

Lemma has_assign_other (e : row) (k k' : string) (v : value) :
  k' <> k -> has (assign e k v) k' = has e k'.
Proof.
  intros Hne. unfold has, Dict.mem. rewrite get_assign_other; auto.
Qed.

Lemma assign_assign (e : row) (k : string) (v v' : value) :
  assign (assign e k v) k v' = assign e k v'.
Proof.
  unfold assign. induction e as [|[k0 v0] e IH]; cbn [Dict.set].
  - rewrite String.eqb_refl. reflexivity.
  - destruct (String.eqb k k0) eqn:E; cbn [Dict.set]; rewrite E;
      [reflexivity|]. rewrite IH. reflexivity.
Qed.

Lemma assign_same (e : row) (k : string) (v : value) :
  Dict.get String.eqb e k = Some v -> assign e k v = e.
Proof.
  unfold assign. induction e as [|[k0 v0] e IH]; cbn [Dict.get Dict.set];
    [discriminate|].
  destruct (String.eqb k k0) eqn:E.
  - intros [= ->]. reflexivity.
  - intros H. rewrite (IH H). reflexivity.
Qed.

(** Assignments to two keys commute when the first key is already there:
    no key changes its place. *)
Lemma assign_comm (e : row) (k k' : string) (v v' : value) :
  has e k = true -> k <> k' ->
  assign (assign e k v) k' v' = assign (assign e k' v') k v.
Proof.
  unfold has, Dict.mem, assign. intros Hk Hne.
  induction e as [|[k0 v0] e IH]; cbn [Dict.get Dict.set] in *;
    [discriminate|].
  destruct (String.eqb k k0) eqn:E.
  - apply String.eqb_eq in E; subst k0.
    assert (E' : String.eqb k' k = false).
    { apply (eqb_neq String.eqb_eq). congruence. }
    cbn [Dict.set]. rewrite E'. cbn [Dict.set]. rewrite String.eqb_refl.
    reflexivity.
  - destruct (String.eqb k' k0) eqn:E'; cbn [Dict.set]; rewrite E, ?E';
      [reflexivity|].
    rewrite (IH Hk). reflexivity.
Qed.

(** ** Messages *)

Lemma readable_line (line p : value) :
  content_of line = Some p ->
  subscript line "content" = Done p /\
  exists r, subscript line "role" = Done r.
Proof.
  destruct line as [| | | | |l|d]; try discriminate.
  unfold content_of, subscript, lookup.
  destruct (Dict.get String.eqb d "content") as [p'|]; [|discriminate].
  destruct (Dict.get String.eqb d "role") as [r|]; [|discriminate].
  intros [= ->]. eauto.
Qed.

Lemma content_of_message (r : string) (p : value) :
  content_of (message r p) = Some p.
Proof. reflexivity. Qed.

Lemma turn_parity (k : nat) : ((k + 1) mod 2 =? 1)%nat = Nat.even k.
Proof.
  destruct (Nat.even k) eqn:E.
  - apply Nat.even_spec in E. destruct E as [m ->].
    apply Nat.eqb_eq.
    replace (2 * m + 1)%nat with (1 + m * 2)%nat by lia.
    rewrite Nat.Div0.mod_add. reflexivity.
  - apply Nat.eqb_neq.
    assert (O : Nat.odd k = true) by (rewrite <- Nat.negb_even, E; reflexivity).
    apply Nat.odd_spec in O. destruct O as [m ->].
    replace (2 * m + 1 + 1)%nat with (0 + (m + 1) * 2)%nat by lia.
    rewrite Nat.Div0.mod_add. discriminate.
Qed.

Lemma line_parity (k : nat) : (k mod 2 =? 0)%nat = Nat.even k.
Proof.
  destruct (Nat.even k) eqn:E.
  - apply Nat.even_spec in E. destruct E as [m ->].
    apply Nat.eqb_eq.
    replace (2 * m)%nat with (0 + m * 2)%nat by lia.
    rewrite Nat.Div0.mod_add. reflexivity.
  - apply Nat.eqb_neq.
    assert (O : Nat.odd k = true) by (rewrite <- Nat.negb_even, E; reflexivity).
    apply Nat.odd_spec in O. destruct O as [m ->].
    replace (2 * m + 1)%nat with (1 + m * 2)%nat by lia.
    rewrite Nat.Div0.mod_add. discriminate.
Qed.

(** The turns of the contents when the first of them has index [k]. *)
Lemma alternate_length (a b : string) (contents : list value) :
  List.length (alternate a b contents) = List.length contents.
Proof.
  revert a b. induction contents as [|p cs IH]; intros a b; [reflexivity|].
  cbn [alternate List.length]. rewrite IH. reflexivity.
Qed.

Lemma last_alternate (a b : string) (contents : list value) (x : string * value) :
  fst (last (alternate a b contents) x) =
  match contents with
  | [] => fst x
  | _ => if Nat.odd (List.length contents) then a else b
  end.
Proof.
  revert a b x. induction contents as [|p cs IH]; intros a b x;
    [reflexivity|].
  cbn [alternate]. destruct cs as [|q cs]; [reflexivity|].
  change (last ((a, p) :: alternate b a (q :: cs)) x)
    with (last (alternate b a (q :: cs)) x).
  rewrite IH. cbn [List.length].
  rewrite (Nat.odd_succ (S (List.length cs))), (Nat.even_succ (List.length cs)).
  rewrite (Nat.odd_succ (List.length cs)).
  rewrite <- Nat.negb_odd. destruct (Nat.odd (List.length cs)); reflexivity.
Qed.

Lemma last_cons {A : Type} (l : list A) (x d : A) :
  last (x :: l) d = last l x.
Proof.
  revert x d. induction l as [|y l IH]; intros x d; [reflexivity|].
  change (last (x :: y :: l) d) with (last (y :: l) d).
  rewrite (IH y d), (IH y x). reflexivity.
Qed.

Lemma set_last_app {A : Type} (l : list A) (x y : A) :
  set_last (l ++ [x]) y = Done (l ++ [y]).
Proof.
  unfold set_last. rewrite removelast_last.
  destruct l; reflexivity.
Qed.

Lemma same_contents_length (lines : list value) (contents : list value) :
  map content_of lines = map Some contents ->
  List.length lines = List.length contents.
Proof.
  intros H. rewrite <- (length_map content_of lines), H, length_map.
  reflexivity.
Qed.

(** ** [prepare_dialogue_from_tokenizer] *)

Section TokenizerFacts.

Variable apply_chat_template : value -> outcome string.

Lemma messages_loop (lines contents : list value) (k : nat)
  (acc : list (string * value)) :
  map content_of lines = map Some contents ->
  iter add_message (combine (seq k (List.length lines)) lines) acc =
  Done (acc ++ if Nat.even k then alternate "user" "assistant" contents
               else alternate "assistant" "user" contents).
Proof.
  revert contents k acc.
  induction lines as [|line lines IH]; intros contents k acc H.
  - destruct contents; [|discriminate].
    destruct (Nat.even k); cbn; rewrite app_nil_r; reflexivity.
  - destruct contents as [|p contents]; [discriminate|].
    cbn [map] in H. injection H as Hp H.
    destruct (readable_line _ Hp) as (Hc & r & Hr).
    cbn [List.length seq combine iter]. unfold add_message at 1.
    cbn [fst snd]. rewrite Hc, Hr. cbn [and_then].
    rewrite turn_parity.
    destruct (Nat.even k) eqn:E; cbn [and_then];
      rewrite (IH contents (S k) _ H), Nat.even_succ, <- Nat.negb_even, E;
      cbn [negb alternate]; rewrite <- app_assoc; reflexivity.
Qed.

(** The multi-turn branch in closed form. *)
Lemma multi_turn_closed (e : row) (lines contents : list value)
  (c r : value) :
  lines <> [] ->
  map content_of lines = map Some contents ->
  Dict.get String.eqb e "chosen" = Some c ->
  Dict.get String.eqb e "rejected" = Some r ->
  multi_turn apply_chat_template e lines =
  if Nat.even (List.length lines) then Fail AssertionError
  else
    let turns := alternate "user" "assistant" contents in
    tp <~ apply_chat_template (render turns) ;;
    tc <~ apply_chat_template (render (turns ++ [("assistant", c)])) ;;
    tr <~ apply_chat_template (render (turns ++ [("assistant", r)])) ;;
    Done (assign (assign (assign e "text_chosen" (VStr tc))
                         "text_rejected" (VStr tr))
                 "prompt" (VStr tp)).
Proof.
  intros Hne H Hc Hr. unfold multi_turn, enumerate.
  rewrite (@messages_loop lines contents 0 [] H). cbn [Nat.even app and_then].
  pose proof (@same_contents_length lines contents H) as Hlen.
  destruct contents as [|p cs];
    [destruct lines; [contradiction|discriminate]|].
  unfold last_of. cbn [alternate and_then].
  rewrite <- (last_cons (alternate "assistant" "user" cs) ("user", p)
                ("user", p)).
  change (("user", p) :: alternate "assistant" "user" cs)
    with (alternate "user" "assistant" (p :: cs)).
  rewrite last_alternate, <- Hlen, <- Nat.negb_even.
  destruct (Nat.even (List.length lines)); cbn [negb];
    [reflexivity|].
  cbn [String.eqb Ascii.eqb Bool.eqb negb].
  destruct (apply_chat_template _) as [tp|]; [|reflexivity].
  cbn [and_then]. rewrite (lookup_get _ _ Hc). cbn [and_then].
  change ((("user", p) :: alternate "assistant" "user" cs)
            ++ [("assistant", c)])
    with (alternate "user" "assistant" (p :: cs) ++ [("assistant", c)]).
  destruct (apply_chat_template _) as [tc|]; [|reflexivity].
  cbn [and_then]. rewrite lookup_assign_other by discriminate.
  rewrite (lookup_get _ _ Hr). cbn [and_then].
  rewrite set_last_app. reflexivity.
Qed.

End TokenizerFacts.

Lemma get_has (e : row) (k : string) (v : value) :
  Dict.get String.eqb e k = Some v -> has e k = true.
Proof. unfold has, Dict.mem. intros ->. reflexivity. Qed.

Lemma last_of_app {A : Type} (l : list A) (x : A) :
  last_of (l ++ [x]) = Done x.
Proof.
  destruct l as [|a l]; [reflexivity|].
  cbn [app last_of]. rewrite last_last. reflexivity.
Qed.

Lemma odd_nonempty {A : Type} (l : list A) :
  Nat.odd (List.length l) = true -> l <> [].
Proof. destruct l; [discriminate|discriminate]. Qed.

Lemma odd_not_even (n : nat) : Nat.odd n = true -> Nat.even n = false.
Proof. rewrite <- Nat.negb_even. destruct (Nat.even n); auto. Qed.

(** The result on a multi-turn example, by the parity of the prompt. *)
Lemma prepare_multi_turn (tokenizer : value -> outcome string)
  (example : row) (ift : bool) (lines contents : list value) (c r : value) :
  Dict.get String.eqb example "chosen" = Some c ->
  Dict.get String.eqb example "rejected" = Some r ->
  Dict.get String.eqb example "prompt" = Some (VList lines) ->
  map content_of lines = map Some contents ->
  lines <> [] ->
  prepare_dialogue_from_tokenizer tokenizer example ift =
  if Nat.even (List.length lines) then Fail AssertionError
  else
    let turns := alternate "user" "assistant" contents in
    tp <~ tokenizer (render turns) ;;
    tc <~ tokenizer (render (turns ++ [("assistant", c)])) ;;
    tr <~ tokenizer (render (turns ++ [("assistant", r)])) ;;
    Done (assign (assign (assign example "text_chosen" (VStr tc))
                         "text_rejected" (VStr tr))
                 "prompt" (VStr tp)).
Proof.
  intros Ec Er Hp H Hne. unfold prepare_dialogue_from_tokenizer.
  rewrite (get_has _ _ Ec), (get_has _ _ Er). cbn [andb].
  rewrite (lookup_get _ _ Hp). cbn [and_then].
  destruct lines as [|line lines]; [contradiction|].
  apply (@multi_turn_closed tokenizer example (line :: lines) contents c r
           Hne H Ec Er).
Qed.

(** X19.  A prompt with an even number of messages stops
    [prepare_dialogue_from_tokenizer] with an AssertionError: when the
    example has a chosen and a rejected answer and its prompt is a list of
    an even, positive number of messages that all have a content and a
    role, the call fails on the [assert], whatever the tokenizer does. *)
Theorem even_prompt_fails_assertion (tokenizer : value -> outcome string)
  (example : row) (ift : bool) (lines contents : list value) :
  has example "chosen" = true ->
  has example "rejected" = true ->
  Dict.get String.eqb example "prompt" = Some (VList lines) ->
  map content_of lines = map Some contents ->
  lines <> [] ->
  Nat.even (List.length lines) = true ->
  prepare_dialogue_from_tokenizer tokenizer example ift = Fail AssertionError.
Proof.
  intros Hc Hr Hp H Hne Heven.
  destruct (has_get _ _ Hc) as (c & Ec).
  destruct (has_get _ _ Hr) as (r & Er).
  rewrite (@prepare_multi_turn tokenizer example ift lines contents c r
             Ec Er Hp H Hne).
  rewrite Heven. reflexivity.
Qed.

Lemma even_prompt_fails_assertion_witness :
  prepare_dialogue_from_tokenizer transcript even_example false =
  Fail AssertionError.
Proof.
  apply (@even_prompt_fails_assertion transcript even_example false
           [message "user" (VStr "Hi"); message "assistant" (VStr "Hello")]
           [VStr "Hi"; VStr "Hello"]).
  - reflexivity.
  - reflexivity.
  - reflexivity.
  - reflexivity.
  - discriminate.
  - reflexivity.
Defined.

(** X20.  The three texts of a multi-turn example.  When the prompt is a
    list of an odd number of messages that all have a content and a role,
    [prepare_dialogue_from_tokenizer] applies the chat template three
    times: to the contents of the prompt said by turns, the user first, for
    the new "prompt"; to these turns followed by the chosen answer as the
    assistant's, for "text_chosen"; and to the same turns followed by the
    rejected answer, for "text_rejected".  It fails exactly when one of the
    three applications does, and leaves every other key as it was. *)
Theorem multi_turn_texts (tokenizer : value -> outcome string)
  (example : row) (ift : bool) (lines contents : list value) (c r : value) :
  Dict.get String.eqb example "chosen" = Some c ->
  Dict.get String.eqb example "rejected" = Some r ->
  Dict.get String.eqb example "prompt" = Some (VList lines) ->
  map content_of lines = map Some contents ->
  Nat.odd (List.length lines) = true ->
  prepare_dialogue_from_tokenizer tokenizer example ift =
  let turns := alternate "user" "assistant" contents in
  tp <~ tokenizer (render turns) ;;
  tc <~ tokenizer (render (turns ++ [("assistant", c)])) ;;
  tr <~ tokenizer (render (turns ++ [("assistant", r)])) ;;
  Done (assign (assign (assign example "text_chosen" (VStr tc))
                       "text_rejected" (VStr tr))
               "prompt" (VStr tp)).
Proof.
  intros Ec Er Hp H Hodd.
  rewrite (@prepare_multi_turn tokenizer example ift lines contents c r
             Ec Er Hp H (@odd_nonempty _ lines Hodd)).
  rewrite (@odd_not_even _ Hodd). reflexivity.
Qed.

Lemma multi_turn_texts_witness :
  prepare_dialogue_from_tokenizer transcript preference_example false =
  let turns :=
    alternate "user" "assistant" [VStr "Hi"; VStr "Hello"; VStr "Bye"] in
  tp <~ transcript (render turns) ;;
  tc <~ transcript (render (turns ++ [("assistant", VStr "See you")])) ;;
  tr <~ transcript (render (turns ++ [("assistant", VStr "No")])) ;;
  Done (assign (assign (assign preference_example "text_chosen" (VStr tc))
                       "text_rejected" (VStr tr))
               "prompt" (VStr tp)).
Proof.
  apply (@multi_turn_texts transcript preference_example false
           [message "human" (VStr "Hi"); message "bot" (VStr "Hello");
            message "human" (VStr "Bye")]
           [VStr "Hi"; VStr "Hello"; VStr "Bye"] (VStr "See you") (VStr "No"));
    reflexivity.
Defined.

(** X21.  The roles written in the prompt are not read for their value:
    replacing the prompt of an example by a list of messages with the same
    contents, whatever their roles and other keys, changes nothing in the
    result of [prepare_dialogue_from_tokenizer]. *)
Theorem prompt_roles_are_ignored (tokenizer : value -> outcome string)
  (example : row) (ift : bool) (lines lines' contents : list value) :
  has example "chosen" = true ->
  has example "rejected" = true ->
  Dict.get String.eqb example "prompt" = Some (VList lines) ->
  map content_of lines = map Some contents ->
  map content_of lines' = map Some contents ->
  prepare_dialogue_from_tokenizer tokenizer
    (assign example "prompt" (VList lines')) ift =
  prepare_dialogue_from_tokenizer tokenizer example ift.
Proof.
  intros Hc Hr Hp H H'.
  destruct contents as [|p cs].
  - destruct lines; [|discriminate]. destruct lines'; [|discriminate].
    rewrite (assign_same _ _ Hp). reflexivity.
  - destruct (has_get _ _ Hc) as (c & Ec).
    destruct (has_get _ _ Hr) as (r & Er).
    unfold prepare_dialogue_from_tokenizer.
    rewrite !has_assign_other by discriminate.
    rewrite Hc, Hr. cbn [andb].
    rewrite (lookup_get _ _ Hp).
    rewrite (lookup_get _ _ (get_assign_same example "prompt" (VList lines'))).
    cbn [and_then].
    destruct lines as [|line lines]; [discriminate|].
    destruct lines' as [|line' lines']; [discriminate|].
    rewrite (@multi_turn_closed tokenizer example (line :: lines) (p :: cs)
               c r); try assumption; [|discriminate].
    rewrite (@multi_turn_closed tokenizer
               (assign example "prompt" (VList (line' :: lines')))
               (line' :: lines') (p :: cs) c r); try assumption;
      [|discriminate|rewrite get_assign_other by discriminate; exact Ec
       |rewrite get_assign_other by discriminate; exact Er].
    rewrite (@same_contents_length (line :: lines) (p :: cs) H).
    rewrite (@same_contents_length (line' :: lines') (p :: cs) H').
    destruct (Nat.even (List.length (p :: cs))); [reflexivity|].
    cbv zeta.
    destruct (tokenizer _) as [tp|]; [|reflexivity]. cbn [and_then].
    destruct (tokenizer _) as [tc|]; [|reflexivity]. cbn [and_then].
    destruct (tokenizer _) as [tr|]; [|reflexivity]. cbn [and_then].
    f_equal.
    pose proof (get_has _ _ Hp) as Hhas.
    rewrite (@assign_comm example "prompt" "text_chosen") by
      (assumption || discriminate).
    rewrite (@assign_comm (assign example "text_chosen" (VStr tc))
               "prompt" "text_rejected") by
      (rewrite ?has_assign_other by discriminate; assumption || discriminate).
    rewrite assign_assign. reflexivity.
Qed.

Lemma prompt_roles_are_ignored_witness :
  prepare_dialogue_from_tokenizer transcript
    (assign preference_example "prompt" (VList relabelled_prompt)) false =
  prepare_dialogue_from_tokenizer transcript preference_example false.
Proof.
  apply (@prompt_roles_are_ignored transcript preference_example false
           [message "human" (VStr "Hi"); message "bot" (VStr "Hello");
            message "human" (VStr "Bye")]
           relabelled_prompt
           [VStr "Hi"; VStr "Hello"; VStr "Bye"]);
    reflexivity.
Defined.

(** X22.  [process_preference_data] followed by
    [prepare_dialogue_from_tokenizer], as [load_and_process_dataset] maps
    them over a preference dataset.  When the chosen conversation is an odd
    number of readable messages followed by a last message with content
    [c], and the rejected conversation ends in a message with content [r],
    the chat template is applied to the earlier messages of the chosen
    conversation said by turns, to these turns followed by [c], and to
    these same turns followed by [r]: the earlier messages of the rejected
    conversation are never read.  If the chosen conversation is already
    written as alternating user and assistant messages, "text_chosen" is the
    template of the chosen conversation as it stands. *)
Theorem preference_data_then_dialogue (tokenizer : value -> outcome string)
  (example : row) (lines contents other : list value)
  (final_c final_r c r : value) :
  Dict.get String.eqb example "chosen" = Some (VList (lines ++ [final_c])) ->
  Dict.get String.eqb example "rejected" = Some (VList (other ++ [final_r])) ->
  map content_of lines = map Some contents ->
  Nat.odd (List.length lines) = true ->
  subscript final_c "content" = Done c ->
  subscript final_r "content" = Done r ->
  let turns := alternate "user" "assistant" contents in
  let processed :=
    assign (assign (assign example "prompt" (VList lines)) "chosen" c)
           "rejected" r in
  (e <~ process_preference_data example ;;
   prepare_dialogue_from_tokenizer tokenizer e false) =
  (tp <~ tokenizer (render turns) ;;
   tc <~ tokenizer (render (turns ++ [("assistant", c)])) ;;
   tr <~ tokenizer (render (turns ++ [("assistant", r)])) ;;
   Done (assign (assign (assign processed "text_chosen" (VStr tc))
                        "text_rejected" (VStr tr))
                "prompt" (VStr tp))) /\
  (lines = map (fun m => message (fst m) (snd m)) turns ->
   final_c = message "assistant" c ->
   render (turns ++ [("assistant", c)]) = VList (lines ++ [final_c])).
Proof.
  intros Ec Er H Hodd Hc Hr turns processed. split.
  - assert (Hproc : process_preference_data example = Done processed).
    { unfold process_preference_data.
      rewrite (lookup_get _ _ Ec). cbn [and_then but_last].
      rewrite removelast_last.
      rewrite lookup_assign_other by discriminate.
      rewrite (lookup_get _ _ Ec). cbn [and_then last_item].
      rewrite last_of_app. cbn [and_then]. rewrite Hc. cbn [and_then].
      rewrite !lookup_assign_other by discriminate.
      rewrite (lookup_get _ _ Er). cbn [and_then last_item].
      rewrite last_of_app. cbn [and_then]. rewrite Hr. reflexivity. }
    rewrite Hproc. cbn [and_then].
    rewrite (@prepare_multi_turn tokenizer processed false lines contents
               c r).
    + rewrite (@odd_not_even _ Hodd). reflexivity.
    + unfold processed. rewrite get_assign_other by discriminate.
      apply get_assign_same.
    + unfold processed. apply get_assign_same.
    + unfold processed. rewrite !get_assign_other by discriminate.
      apply get_assign_same.
    + exact H.
    + exact (@odd_nonempty _ lines Hodd).
  - intros -> ->. unfold render. rewrite map_app. reflexivity.
Qed.

Lemma preference_data_then_dialogue_witness :
  let turns := alternate "user" "assistant" [VStr "Hi"] in
  let processed :=
    assign (assign (assign raw_example "prompt"
                      (VList [message "user" (VStr "Hi")]))
                   "chosen" (VStr "Hello"))
           "rejected" (VStr "Go away") in
  (e <~ process_preference_data raw_example ;;
   prepare_dialogue_from_tokenizer transcript e false) =
  (tp <~ transcript (render turns) ;;
   tc <~ transcript (render (turns ++ [("assistant", VStr "Hello")])) ;;
   tr <~ transcript (render (turns ++ [("assistant", VStr "Go away")])) ;;
   Done (assign (assign (assign processed "text_chosen" (VStr tc))
                        "text_rejected" (VStr tr))
                "prompt" (VStr tp))) /\
  ([message "user" (VStr "Hi")] =
     map (fun m => message (fst m) (snd m)) turns ->
   message "assistant" (VStr "Hello") = message "assistant" (VStr "Hello") ->
   render (turns ++ [("assistant", VStr "Hello")]) =
   VList ([message "user" (VStr "Hi")] ++
          [message "assistant" (VStr "Hello")])).
Proof.
  apply (@preference_data_then_dialogue transcript raw_example
           [message "user" (VStr "Hi")] [VStr "Hi"]
           [message "user" (VStr "Other")]
           (message "assistant" (VStr "Hello"))
           (message "assistant" (VStr "Go away"))
           (VStr "Hello") (VStr "Go away"));
    reflexivity.
Defined.

(** ** [prepare_dialogue] *)

Ltac run_step :=
  cbv [next lift pure set_messages append_message replace_last_message
       role0 role1 last_role prompt_text];
  cbn [fst snd roles messages and_then].

Lemma unwrap_prompt_plain (example : row) (v : value) :
  Dict.get String.eqb example "prompt" = Some v ->
  (forall l, v <> VList l) ->
  unwrap_prompt example = Done example.
Proof.
  intros Hp Hv. unfold unwrap_prompt. rewrite (lookup_get _ _ Hp).
  cbn [and_then]. destruct v; try reflexivity. exfalso. exact (Hv l eq_refl).
Qed.

Lemma unwrap_prompt_empty (example : row) :
  Dict.get String.eqb example "prompt" = Some (VList []) ->
  unwrap_prompt example = Fail (Builtin IndexError).
Proof.
  intros Hp. unfold unwrap_prompt. rewrite (lookup_get _ _ Hp).
  reflexivity.
Qed.

(** X23.  An empty list as prompt is an IndexError for [prepare_dialogue]:
    on a preference example, and on any example when [ift] is set, the
    call raises it (from [example["prompt"][0]]) before the template is
    touched. *)
Theorem empty_prompt_raises_IndexError
  (get_prompt : Conversation -> outcome string) (example : row) (ift : bool)
  (t : Conversation) :
  Dict.get String.eqb example "prompt" = Some (VList []) ->
  has example "chosen" && has example "rejected" = true \/ ift = true ->
  prepare_dialogue get_prompt example ift t = (Fail (Builtin IndexError), t).
Proof.
  intros Hp Hcase. unfold prepare_dialogue.
  destruct (has example "chosen" && has example "rejected").
  - run_step. rewrite (lookup_get _ _ Hp).
    unfold single_turn_template. run_step.
    rewrite (unwrap_prompt_empty _ Hp). reflexivity.
  - destruct Hcase as [Hcase| ->]; [discriminate|].
    unfold instruction_template. run_step.
    rewrite (unwrap_prompt_empty _ Hp). reflexivity.
Qed.

Lemma empty_prompt_raises_IndexError_witness :
  prepare_dialogue said empty_prompt_example false chat =
  (Fail (Builtin IndexError), chat).
Proof.
  apply (@empty_prompt_raises_IndexError said empty_prompt_example false chat).
  - reflexivity.
  - left. reflexivity.
Defined.

(** The loop over the prompt keeps the roles of the template. *)
Lemma turns_loop_roles (l : list (nat * value)) (t t' : Conversation)
  (o : outcome unit) :
  each add_turn l t = (o, t') -> roles t' = roles t.
Proof.
  revert t. induction l as [|il l IH]; intros t.
  - intros [= _ <-]. reflexivity.
  - cbn [each]. unfold add_turn at 1. run_step.
    destruct (subscript (snd il) "content") as [p|e];
      [|intros [= _ <-]; reflexivity].
    destruct (subscript (snd il) "role") as [r|e];
      [|intros [= _ <-]; reflexivity].
    destruct ((fst il + 1) mod 2 =? 1)%nat; intros H;
      apply IH in H; exact H.
Qed.

(** The loop on readable messages. *)
Lemma turns_loop (lines contents : list value) (k : nat) (t : Conversation) :
  map content_of lines = map Some contents ->
  each add_turn (combine (seq k (List.length lines)) lines) t =
  (Done tt,
   mkConversation (roles t)
     (messages t ++
      if Nat.even k
      then alternate (fst (roles t)) (snd (roles t)) contents
      else alternate (snd (roles t)) (fst (roles t)) contents)).
Proof.
  revert contents k t.
  induction lines as [|line lines IH]; intros contents k t H.
  - destruct contents; [|discriminate].
    destruct t as [rs ms]. destruct (Nat.even k); cbn; rewrite app_nil_r;
      reflexivity.
  - destruct contents as [|p contents]; [discriminate|].
    cbn [map] in H. injection H as Hp H.
    destruct (readable_line _ Hp) as (Hc & r & Hr).
    cbn [List.length seq combine each]. unfold add_turn at 1. run_step.
    rewrite Hc, Hr. rewrite turn_parity.
    destruct (Nat.even k) eqn:E;
      rewrite (IH contents (S k) _ H), Nat.even_succ, <- Nat.negb_even, E;
      cbn [negb alternate roles messages]; rewrite <- app_assoc;
      reflexivity.
Qed.

(** X24.  A prompt with an even number of messages stops [prepare_dialogue]
    with an AssertionError when the two roles of the template differ, and
    the template has by then lost its messages: it holds the contents of
    the prompt, said by turns. *)
Theorem even_prompt_leaves_turns
  (get_prompt : Conversation -> outcome string) (example : row) (ift : bool)
  (t : Conversation) (lines contents : list value) :
  has example "chosen" = true ->
  has example "rejected" = true ->
  Dict.get String.eqb example "prompt" = Some (VList lines) ->
  map content_of lines = map Some contents ->
  lines <> [] ->
  Nat.even (List.length lines) = true ->
  fst (roles t) <> snd (roles t) ->
  prepare_dialogue get_prompt example ift t =
  (Fail AssertionError,
   mkConversation (roles t)
     (alternate (fst (roles t)) (snd (roles t)) contents)).
Proof.
  intros Hc Hr Hp H Hne Heven Hroles. unfold prepare_dialogue.
  rewrite Hc, Hr. cbn [andb]. run_step. rewrite (lookup_get _ _ Hp).
  destruct lines as [|line lines]; [contradiction|].
  unfold multi_turn_template, enumerate. run_step.
  rewrite (@turns_loop (line :: lines) contents 0 _ H).
  cbn [Nat.even roles messages app].
  pose proof (@same_contents_length (line :: lines) contents H) as Hlen.
  destruct contents as [|p cs]; [discriminate|].
  unfold last_of. cbn [alternate].
  rewrite <- (last_cons (alternate (snd (roles t)) (fst (roles t)) cs)
                (fst (roles t), p) (fst (roles t), p)).
  change ((fst (roles t), p) :: alternate (snd (roles t)) (fst (roles t)) cs)
    with (alternate (fst (roles t)) (snd (roles t)) (p :: cs)).
  rewrite last_alternate, <- Hlen, <- Nat.negb_even, Heven. cbn [negb].
  assert (E : (snd (roles t) =? fst (roles t)) = false).
  { apply String.eqb_neq. congruence. }
  cbn [roles]. rewrite E. reflexivity.
Qed.

Lemma even_prompt_leaves_turns_witness :
  prepare_dialogue said even_example false chat =
  (Fail AssertionError,
   mkConversation (roles chat)
     (alternate (fst (roles chat)) (snd (roles chat))
        [VStr "Hi"; VStr "Hello"])).
Proof.
  apply (@even_prompt_leaves_turns said even_example false chat
           [message "user" (VStr "Hi"); message "assistant" (VStr "Hello")]
           [VStr "Hi"; VStr "Hello"]); try reflexivity; discriminate.
Defined.

Lemma unwrap_prompt_keeps (example example1 : row) (k : string) :
  unwrap_prompt example = Done example1 ->
  k <> "prompt" ->
  Dict.get String.eqb example1 k = Dict.get String.eqb example k.
Proof.
  unfold unwrap_prompt. intros H Hk.
  destruct (lookup example "prompt") as [v|e]; [|discriminate].
  cbn [and_then] in H.
  destruct v; try (injection H as <-; reflexivity).
  destruct (first_item (VList l)) as [first|e]; [|discriminate].
  cbn [and_then] in H. injection H as <-.
  apply get_assign_other. exact Hk.
Qed.

Lemma lookup_Done (e : row) (k : string) (v : value) :
  lookup e k = Done v -> Dict.get String.eqb e k = Some v.
Proof.
  unfold lookup. destruct (Dict.get String.eqb e k); [|discriminate].
  intros [= ->]. reflexivity.
Qed.

Section TemplateFacts.

Variable get_prompt : Conversation -> outcome string.

Lemma single_turn_template_done (example example' : row)
  (t t' : Conversation) :
  single_turn_template get_prompt example t = (Done example', t') ->
  left_with_rejected get_prompt example example' t t'.
Proof.
  unfold single_turn_template. run_step.
  destruct (unwrap_prompt example) as [ex1|e] eqn:Eu; [|intros [=]].
  destruct (lookup ex1 "prompt") as [p|e] eqn:Ep; [|intros [=]].
  destruct (get_prompt _) as [tp|e]; [|intros [=]].
  destruct (lookup ex1 "chosen") as [c|e]; [|intros [=]].
  destruct (get_prompt _) as [tc|e]; [|intros [=]].
  rewrite !lookup_assign_other by discriminate. rewrite Ep.
  destruct (lookup ex1 "rejected") as [r|e] eqn:Er; [|intros [=]].
  destruct (get_prompt _) as [tr|e] eqn:Eg; [|intros [=]].
  intros [= <- <-]. split; [reflexivity|].
  exists r, tr. split; [|split; [|split]].
  - rewrite <- (@unwrap_prompt_keeps example ex1 "rejected" Eu) by
      discriminate.
    apply lookup_Done. exact Er.
  - reflexivity.
  - exact Eg.
  - rewrite get_assign_other by discriminate. apply get_assign_same.
Qed.

Lemma multi_turn_template_done (example example' : row)
  (prompt : list value) (t t' : Conversation) :
  multi_turn_template get_prompt example prompt t = (Done example', t') ->
  left_with_rejected get_prompt example example' t t'.
Proof.
  unfold multi_turn_template. run_step.
  destruct (each add_turn (enumerate prompt) _) as [[[]|e] t1] eqn:Eloop;
    [|intros [=]].
  apply turns_loop_roles in Eloop. cbn [roles] in Eloop.
  destruct (last_of (messages t1)) as [final|e]; [|intros [=]].
  destruct (negb _); [intros [=]|].
  destruct (get_prompt t1) as [tp|e]; [|intros [=]].
  destruct (lookup example "chosen") as [c|e]; [|intros [=]].
  destruct (get_prompt _) as [tc|e]; [|intros [=]].
  rewrite lookup_assign_other by discriminate.
  destruct (lookup example "rejected") as [r|e] eqn:Er; [|intros [=]].
  rewrite set_last_app.
  destruct (get_prompt _) as [tr|e] eqn:Eg; [|intros [=]].
  intros [= <- <-]. split; [exact Eloop|].
  exists r, tr. split; [|split; [|split]].
  - apply lookup_Done. exact Er.
  - cbn [messages]. rewrite last_of_app, Eloop. reflexivity.
  - exact Eg.
  - rewrite get_assign_other by discriminate. apply get_assign_same.
Qed.

End TemplateFacts.

(** X25.  After a call of [prepare_dialogue] that returns on a preference
    example, the template is left holding the rejected conversation: its
    roles are unchanged, its last message is the rejected answer under the
    second role, and "text_rejected" is the prompt of the template as it is
    left. *)
Theorem template_left_with_rejected
  (get_prompt : Conversation -> outcome string) (example example' : row)
  (ift : bool) (t t' : Conversation) :
  has example "chosen" = true ->
  has example "rejected" = true ->
  prepare_dialogue get_prompt example ift t = (Done example', t') ->
  roles t' = roles t /\
  exists r text,
    Dict.get String.eqb example "rejected" = Some r /\
    last_of (messages t') = Done (snd (roles t), r) /\
    get_prompt t' = Done text /\
    Dict.get String.eqb example' "text_rejected" = Some (VStr text).
Proof.
  intros Hc Hr. unfold prepare_dialogue. rewrite Hc, Hr. cbn [andb].
  unfold next at 1, lift at 1.
  destruct (lookup example "prompt") as [v|e]; [|intros [=]].
  destruct v as [| | | | |[|line lines]|];
    try apply single_turn_template_done.
  apply multi_turn_template_done.
Qed.

Lemma template_left_with_rejected_witness :
  exists example' t',
    prepare_dialogue said preference_example false chat =
      (Done example', t') /\
    roles t' = roles chat /\
    exists r text,
      Dict.get String.eqb preference_example "rejected" = Some r /\
      last_of (messages t') = Done (snd (roles chat), r) /\
      said t' = Done text /\
      Dict.get String.eqb example' "text_rejected" = Some (VStr text).
Proof.
  assert (E : exists example' t',
             prepare_dialogue said preference_example false chat =
             (Done example', t')).
  { vm_compute. eexists. eexists. reflexivity. }
  destruct E as (example' & t' & E). exists example', t'.
  split; [exact E|].
  apply (@template_left_with_rejected said preference_example example' false
           chat t'); [reflexivity|reflexivity|exact E].
Defined.

(** ** The two ways of formatting *)

Lemma add_turn_eq (il : nat * value) (t : Conversation) :
  add_turn il t =
  match subscript (snd il) "content" with
  | Fail e => (Fail e, t)
  | Done p =>
      match subscript (snd il) "role" with
      | Fail e => (Fail e, t)
      | Done _ =>
          (Done tt,
           mkConversation (roles t)
             (messages t ++
              [(if ((fst il + 1) mod 2 =? 1)%nat
                then fst (roles t) else snd (roles t), p)]))
      end
  end.
Proof.
  unfold add_turn. run_step.
  destruct (subscript (snd il) "content") as [p|e]; [|reflexivity].
  destruct (subscript (snd il) "role") as [r|e]; [|reflexivity].
  destruct ((fst il + 1) mod 2 =? 1)%nat; reflexivity.
Qed.

Lemma turns_simulation (l : list (nat * value)) (t : Conversation) :
  roles t = ("user", "assistant") ->
  match iter add_message l (messages t) with
  | Done ms => each add_turn l t = (Done tt, mkConversation (roles t) ms)
  | Fail e => fst (each add_turn l t) = Fail e
  end.
Proof.
  revert t. induction l as [|il l IH]; intros t Hroles.
  - destruct t; reflexivity.
  - cbn [iter each]. unfold next. rewrite add_turn_eq.
    unfold add_message at 1.
    destruct (subscript (snd il) "content") as [p|e]; [|reflexivity].
    destruct (subscript (snd il) "role") as [r|e]; [|reflexivity].
    cbn [and_then]. rewrite Hroles. cbn [fst snd].
    destruct ((fst il + 1) mod 2 =? 1)%nat; cbn [and_then].
    + specialize (IH (mkConversation ("user", "assistant")
                        (messages t ++ [("user", p)])) eq_refl).
      exact IH.
    + specialize (IH (mkConversation ("user", "assistant")
                        (messages t ++ [("assistant", p)])) eq_refl).
      exact IH.
Qed.

(** X26.  On a preference example whose prompt is not the empty list,
    [prepare_dialogue] with the roles "user" and "assistant" and a template
    whose prompt is the chat template of its messages returns what
    [prepare_dialogue_from_tokenizer] returns, or raises the same
    exception, whatever messages the template held before. *)
Theorem template_and_tokenizer_agree (tokenizer : value -> outcome string)
  (example : row) (ift : bool) (held : list (string * value)) :
  has example "chosen" && has example "rejected" = true ->
  Dict.get String.eqb example "prompt" <> Some (VList []) ->
  fst (prepare_dialogue (fun t => tokenizer (render (messages t))) example
         ift (mkConversation ("user", "assistant") held)) =
  prepare_dialogue_from_tokenizer tokenizer example ift.
Proof.
  intros Hhas Hp. unfold prepare_dialogue, prepare_dialogue_from_tokenizer.
  rewrite Hhas. unfold next at 1, lift at 1.
  destruct (lookup example "prompt") as [v|e] eqn:Ep; [|reflexivity].
  apply lookup_Done in Ep. cbn [and_then].
  assert (Hsingle :
    (forall l, v <> VList l) ->
    fst (single_turn_template (fun t => tokenizer (render (messages t)))
           example (mkConversation ("user", "assistant") held)) =
    single_turn tokenizer example).
  { intros Hv. unfold single_turn_template, single_turn. run_step.
    rewrite (unwrap_prompt_plain _ Ep Hv).
    rewrite (lookup_get _ _ Ep). cbn [and_then messages].
    destruct (tokenizer _) as [tp|e]; [|reflexivity]. cbn [and_then].
    destruct (lookup example "chosen") as [c|e]; [|reflexivity].
    cbn [and_then].
    destruct (tokenizer _) as [tc|e]; [|reflexivity]. cbn [and_then].
    rewrite !lookup_assign_other by discriminate.
    rewrite (lookup_get _ _ Ep). cbn [and_then].
    destruct (lookup example "rejected") as [r|e]; [|reflexivity].
    cbn [and_then].
    destruct (tokenizer _) as [tr|e]; reflexivity. }
  destruct v as [| | | | |[|line lines]|];
    try (apply Hsingle; discriminate); [contradiction|].
  clear Hsingle.
  unfold multi_turn_template, multi_turn. run_step.
  pose proof (@turns_simulation (enumerate (line :: lines))
                (mkConversation ("user", "assistant") []) eq_refl) as Hsim.
  cbn [messages roles] in Hsim.
  destruct (iter add_message (enumerate (line :: lines)) []) as [ms|e].
  - rewrite Hsim. cbn [and_then messages roles fst snd].
    destruct (last_of ms) as [final|e]; [|reflexivity]. cbn [and_then].
    destruct (negb _); [reflexivity|].
    destruct (tokenizer _) as [tp|e]; [|reflexivity]. cbn [and_then].
    destruct (lookup example "chosen") as [c|e]; [|reflexivity].
    cbn [and_then].
    destruct (tokenizer _) as [tc|e]; [|reflexivity]. cbn [and_then].
    rewrite lookup_assign_other by discriminate.
    destruct (lookup example "rejected") as [r|e]; [|reflexivity].
    cbn [and_then roles fst snd messages]. rewrite !set_last_app.
    cbn [and_then roles fst snd messages].
    destruct (tokenizer _) as [tr|e]; reflexivity.
  - destruct (each add_turn _ _) as [o t1]. cbn [fst] in Hsim. subst o.
    reflexivity.
Qed.

Lemma template_and_tokenizer_agree_witness :
  fst (prepare_dialogue (fun t => transcript (render (messages t)))
         preference_example false
         (mkConversation ("user", "assistant") [("user", VStr "Old")])) =
  prepare_dialogue_from_tokenizer transcript preference_example false.
Proof.
  apply (@template_and_tokenizer_agree transcript preference_example false
           [("user", VStr "Old")]).
  - reflexivity.
  - discriminate.
Defined.

End ChatFacts.

